(** * A verified model of the sing-box configuration receiver

    The receiver is a small express server (server.js).  Its [/deploy]
    handler authenticates a request, takes a process-wide lock, decrypts and
    sanitises the pushed configuration, archives the previous business file,
    writes the new one through a write-then-rename helper, runs the daemon's
    syntax check, restarts it, watches it for a crash loop and rolls back when
    a step fails.

    The development embeds the handler and its helpers shallowly:

    - JavaScript values are an inductive type, with the language's truthiness;
    - the file system is a finite map from paths to files, directories are a
      list of paths, and a directory is an entry of its parent as a file is;
    - every interaction with the outside (file system calls, [execSync],
      [console.log], timers) is recorded in a trace, and its outcome is decided
      by an environment the theorems quantify over;
    - exceptions are a result type; [await] is a suspension point of a
      resumption monad, so that the interleaving of several requests on the
      node event loop can be stated. *)

From Stdlib Require Import ZArith Lia Floats Ascii String DecimalString.
From Stdlib Require DecimalZ.
From stdpp Require Import base option list sorting gmap strings.

Local Open Scope string_scope.
Local Open Scope Z_scope.
Local Open Scope list_scope.

(** ** The parts of the JavaScript library the server uses *)

Module Js.

(** *** Strings *)

(** [s.startsWith(p)] *)
Definition startsWith (s p : string) : bool := String.prefix p s.

(** [s.endsWith(p)] *)
Definition endsWith (s p : string) : bool :=
  let n := String.length s in
  let m := String.length p in
  (m <=? n)%nat && String.eqb (String.substring (n - m) m s) p.

(** [s.slice(0, n)] for a non-negative [n]. *)
Definition slice0 (n : nat) (s : string) : string := String.substring 0 n s.

(** [s.substring(a, b)] for [0 <= a <= b]. *)
Definition substring (a b : nat) (s : string) : string :=
  String.substring a (b - a) s.

(** [s.replace(/[cs]/g, '')] for a character class [cs]. *)
Fixpoint remove_chars (cs : list ascii) (s : string) : string :=
  match s with
  | EmptyString => EmptyString
  | String c r =>
      if existsb (Ascii.eqb c) cs then remove_chars cs r
      else String c (remove_chars cs r)
  end.

(** Decimal rendering of an integer, as [String(n)] gives for the integers
    the server formats (time values and loop counters). *)
Definition string_of_Z (z : Z) : string := NilZero.string_of_int (Z.to_int z).

(** [String(n).padStart(w, '0')] for a natural number. *)
Definition pad (w : nat) (n : Z) : string :=
  let s := string_of_Z n in
  String.concat "" (replicate (w - String.length s) "0") +:+ s.

(** *** Dates

    A [Date] is its time value: milliseconds since the epoch, UTC.  The
    calendar fields follow ECMAScript's [Day], [TimeWithinDay],
    [YearFromTime], [MonthFromTime] and [DateFromTime]; the year, month and
    day of a day number are computed era by era (an era is 400 years, 146097
    days, starting on a 1st of March). *)

Definition msPerDay : Z := 86400000.

Definition Day (t : Z) : Z := t / msPerDay.
Definition TimeWithinDay (t : Z) : Z := t mod msPerDay.

Record civil := Civil { c_year : Z; c_month : Z; c_day : Z }.

Definition civil_of_day (day : Z) : civil :=
  let z := day + 719468 in
  let era := z / 146097 in
  let doe := z mod 146097 in
  let yoe := (doe - doe / 1460 + doe / 36524 - doe / 146096) / 365 in
  let doy := doe - (365 * yoe + yoe / 4 - yoe / 100) in
  let mp := (5 * doy + 2) / 153 in
  let d := doy - (153 * mp + 2) / 5 + 1 in
  let m := if mp <? 10 then mp + 3 else mp - 9 in
  let y := yoe + era * 400 + (if m <=? 2 then 1 else 0) in
  Civil y m d.

Definition HourFromTime (t : Z) : Z := TimeWithinDay t / 3600000.
Definition MinFromTime (t : Z) : Z := (TimeWithinDay t / 60000) mod 60.
Definition SecFromTime (t : Z) : Z := (TimeWithinDay t / 1000) mod 60.
Definition msFromTime (t : Z) : Z := t mod 1000.

(** The year of an ISO string: four digits from 0 to 9999, otherwise a sign
    and six digits. *)
Definition iso_year (y : Z) : string :=
  if (0 <=? y) && (y <=? 9999) then pad 4 y
  else if y <? 0 then "-" +:+ pad 6 (- y)
  else "+" +:+ pad 6 y.

(** [new Date(t).toISOString()]: [YYYY-MM-DDTHH:mm:ss.sssZ]. *)
Definition toISOString (t : Z) : string :=
  let c := civil_of_day (Day t) in
  iso_year (c_year c) +:+ "-" +:+ pad 2 (c_month c) +:+ "-" +:+ pad 2 (c_day c)
    +:+ "T" +:+ pad 2 (HourFromTime t) +:+ ":" +:+ pad 2 (MinFromTime t)
    +:+ ":" +:+ pad 2 (SecFromTime t) +:+ "." +:+ pad 3 (msFromTime t) +:+ "Z".

(** *** Values *)

(** The values the handler manipulates: what [JSON.parse] returns, and
    [undefined].  An object is the list of its own properties in insertion
    order. *)
#[warnings="-register-all"] Inductive value : Type :=
| VUndefined
| VNull
| VBool (b : bool)
| VNum (f : float)
| VStr (s : string)
| VArr (items : list value)
| VObj (props : list (string * value)).

(** [ToBoolean]: [undefined], [null], [false], [0], [-0], [NaN] and the empty
    string are falsy. *)
Definition truthy (v : value) : bool :=
  match v with
  | VUndefined | VNull => false
  | VBool b => b
  | VNum f => negb (PrimFloat.eqb f 0%float || PrimFloat.is_nan f)
  | VStr s => negb (String.eqb s "")
  | VArr _ | VObj _ => true
  end.

(** [v === undefined || v === null] *)
Definition nullish (v : value) : bool :=
  match v with
  | VUndefined | VNull => true
  | _ => false
  end.

(** Own property lookup in a property list. *)
Fixpoint get_prop (k : string) (props : list (string * value)) : value :=
  match props with
  | [] => VUndefined
  | (k', v) :: r => if String.eqb k k' then v else get_prop k r
  end.

(** [delete o[k]] *)
Definition delete_prop (k : string) (props : list (string * value))
  : list (string * value) :=
  List.filter (fun kv => negb (String.eqb k kv.1)) props.

(** [Object.keys(o)] *)
Definition keys (props : list (string * value)) : list string := props.*1.

(** [a || b] *)
Definition or_else (a b : value) : value := if truthy a then a else b.

End Js.

(** ** Configuration *)

Record Cmd := {
  RESTART : string;
  STATUS : string;
  CHECK : string
}.

Record Health := {
  INITIAL_DELAY : Z;
  CHECK_COUNT : nat;
  INTERVAL : Z
}.

Record Config := {
  PORT : Z;
  TOKEN : string;
  SECRET : string;
  BASE_DIR : string;
  BACKUP_DIR : string;
  PROXY_FILE : string;
  SYSTEM_FILE : string;
  MAX_BACKUPS : nat;
  CMD : Cmd;
  EXEC_TIMEOUT : Z;
  HEALTH : Health
}.

(** The production configuration of server.js. *)
Definition CONFIG : Config := {|
  PORT := 8080;
  TOKEN := "my_token_123";
  SECRET := "my_key_456";
  BASE_DIR := "/etc/sing-box/conf.d";
  BACKUP_DIR := "/etc/sing-box/backups";
  PROXY_FILE := "10-proxy.json";
  SYSTEM_FILE := "00-system.json";
  MAX_BACKUPS := 3;
  CMD := {|
    RESTART := "rc-service sing-box restart";
    STATUS := "rc-service sing-box status";
    CHECK := "/usr/bin/sing-box check -C /etc/sing-box/conf.d"
  |};
  EXEC_TIMEOUT := 10000;
  HEALTH := {| INITIAL_DELAY := 1500; CHECK_COUNT := 5; INTERVAL := 1000 |}
|}.

(** The template written when 00-system.json is missing. *)
Definition DEFAULT_SYSTEM_CONFIG : Js.value :=
  Js.VObj [
    ("log", Js.VObj [
       ("level", Js.VStr "info");
       ("output", Js.VStr "/var/log/sing-box.log");
       ("timestamp", Js.VBool true)]);
    ("inbounds", Js.VArr [
       Js.VObj [
         ("type", Js.VStr "tun");
         ("tag", Js.VStr "tun-in");
         ("interface_name", Js.VStr "tun0");
         ("inet4_address", Js.VStr "172.19.0.1/30");
         ("mtu", Js.VNum 9000%float);
         ("auto_route", Js.VBool true);
         ("strict_route", Js.VBool true);
         ("stack", Js.VStr "system");
         ("sniff", Js.VBool true);
         ("sniff_override_destination", Js.VBool false)]]);
    ("experimental", Js.VObj [
       ("cache_file", Js.VObj [
          ("enabled", Js.VBool true);
          ("path", Js.VStr "/var/lib/sing-box/cache.db");
          ("store_fakeip", Js.VBool true)]);
       ("clash_api", Js.VObj [
          ("external_controller", Js.VStr "0.0.0.0:9090");
          ("external_ui", Js.VStr "/usr/share/sing-box/ui")])])
  ].

(** ** Results and exceptions *)

(** A JavaScript completion: a value, or a thrown [Error] with its message. *)
Inductive Result (A : Type) : Type :=
| Ok (a : A)
| Throw (message : string).
Arguments Ok {A} a.
Arguments Throw {A} message.

(** ** The file system *)

Record file := File { data : string; mtime : Z }.

(** Regular files by absolute path, and the directories that exist. *)
Record FS := MkFS { files : gmap string file; dirs : list string }.

Module Path.

(** [path.join(dir, name)] for a normalised [dir] and a plain [name]. *)
Definition join (dir name : string) : string := dir +:+ "/" +:+ name.

Fixpoint has_slash (s : string) : bool :=
  match s with
  | EmptyString => false
  | String c r => Ascii.eqb c "/" || has_slash r
  end.

(** [path.dirname(p)] for a normalised absolute [p]: everything before the
    last slash, and the root for a file of the root. *)
Fixpoint dirname_aux (s : string) : string :=
  match s with
  | EmptyString => EmptyString
  | String c r => if has_slash r then String c (dirname_aux r) else EmptyString
  end.
Definition dirname (p : string) : string :=
  match dirname_aux p with
  | EmptyString => if Js.startsWith p "/" then "/" else "."
  | d => d
  end.

(** The entry name of [p] in directory [dir], when [p] lies directly in it. *)
Fixpoint strip_prefix (pre s : string) : option string :=
  match pre, s with
  | EmptyString, _ => Some s
  | String a pre', String b s' => if Ascii.eqb a b then strip_prefix pre' s' else None
  | String _ _, EmptyString => None
  end.
Definition entry_of (dir p : string) : option string :=
  match strip_prefix (dir +:+ "/") p with
  | Some n => if has_slash n || String.eqb n "" then None else Some n
  | None => None
  end.

End Path.

(** ** The outside world *)

(** A call into [fs]. *)
Inductive fs_op : Type :=
| OpExists (p : string)
| OpMkdir (p : string)
| OpWrite (p content : string)
| OpRename (src dst : string)
| OpUnlink (p : string)
| OpRead (p : string)
| OpReaddir (p : string)
| OpStat (p : string).

(** How [execSync] ended: exit status 0, killed at the timeout ([e.code] is
    [ETIMEDOUT]), or any other failure, with the captured [e.stderr] when there
    is one and [e.message]. *)
Inductive exec_outcome : Type :=
| ExecOk
| ExecTimeout
| ExecFail (stderr : option string) (message : string).

(** What the process did, most recent first.  A file-system event records the
    call, whether it returned, and the file system it left: these are the
    states another process can observe. *)
Inductive event : Type :=
| EvLog (line : string)
| EvFs (op : fs_op) (ok : bool) (after : FS)
| EvExec (cmd : string) (out : exec_outcome)
| EvSleep (ms : Z).

Definition is_fs (e : event) : bool :=
  match e with EvFs _ _ _ => true | _ => false end.

Definition is_exec_of (cmd : string) (e : event) : bool :=
  match e with EvExec c _ => String.eqb c cmd | _ => false end.

(** Number of file-system calls made so far. *)
Definition nfs (tr : list event) : nat := length (List.filter is_fs tr).

(** Number of times [cmd] was run so far. *)
Definition nexec (cmd : string) (tr : list event) : nat :=
  length (List.filter (is_exec_of cmd) tr).

Arguments nfs : simpl never.
Arguments nexec : simpl never.

(** The environment decides what the program does not: the two libraries the
    handler calls on the payload, the decoding of the bytes read from a file,
    the modification times of directories, which file-system calls fail and
    what a failed write leaves behind, and how each command ends.  File-system
    faults are indexed by the number of earlier file-system calls, command
    outcomes by the number of earlier runs of the same command. *)
Record Env := {
  (** [CryptoJS.AES.decrypt(content, secret).toString(CryptoJS.enc.Utf8)] *)
  AES_decrypt_utf8 : Js.value -> string -> Result string;
  (** [JSON.parse(text)] *)
  JSON_parse : string -> Result Js.value;
  (** [JSON.stringify(v, null, 2)] *)
  JSON_stringify : Js.value -> string;
  (** [buffer.toString('utf8')]: the text of the bytes of a file.  Text is
      modelled by its UTF-8 encoding, so that decoding returns well-formed
      bytes as they are and puts U+FFFD where they are ill-formed. *)
  utf8_decode : string -> string;
  (** [fs.statSync(p).mtime.getTime()] for a directory [p].  The server asks
      this of the sub-directories of the backup directory only, and makes or
      removes no entry in them. *)
  dir_mtime : string -> Z;
  (** [Some message]: the call throws. *)
  fs_fault : nat -> fs_op -> option string;
  (** What a failed [writeFileSync] leaves at its path, if anything. *)
  fs_torn : nat -> option string;
  exec_out : nat -> string -> exec_outcome
}.

(** The state of the process and of the machine it runs on. *)
Record World := MkWorld {
  fs : FS;
  isDeploying : bool;   (* the global deployment lock *)
  now : Z;              (* the wall clock, in milliseconds *)
  trace : list event
}.

Definition set_fs (f : FS) (w : World) : World :=
  MkWorld f (isDeploying w) (now w) (trace w).
Definition set_isDeploying (b : bool) (w : World) : World :=
  MkWorld (fs w) b (now w) (trace w).
Definition set_now (t : Z) (w : World) : World :=
  MkWorld (fs w) (isDeploying w) t (trace w).
Definition emit (e : event) (w : World) : World :=
  MkWorld (fs w) (isDeploying w) (now w) (e :: trace w).

(** The world after the file-system call [op], which returned or not ([ok])
    and left the file system [f]. *)
Definition after_fs (op : fs_op) (ok : bool) (f : FS) (w : World) : World :=
  emit (EvFs op ok f) (set_fs f w).

(** ** Synchronous code: state and exceptions *)

Definition Sync (A : Type) : Type := World -> Result A * World.

Definition retS {A} (a : A) : Sync A := fun w => (Ok a, w).
Definition throwS {A} (message : string) : Sync A := fun w => (Throw message, w).
Definition bindS {A B} (m : Sync A) (f : A -> Sync B) : Sync B :=
  fun w =>
    match m w with
    | (Ok a, w') => f a w'
    | (Throw e, w') => (Throw e, w')
    end.

(** [try { m } catch (e) { h e }] *)
Definition try_catch {A} (m : Sync A) (h : string -> Sync A) : Sync A :=
  fun w =>
    match m w with
    | (Ok a, w') => (Ok a, w')
    | (Throw e, w') => h e w'
    end.

Definition of_result {A} (r : Result A) : Sync A := fun w => (r, w).

Declare Scope sync_scope.
Delimit Scope sync_scope with sync.
Notation "x <- m ;; k" := (bindS m (fun x => k))
  (at level 100, m at next level, right associativity) : sync_scope.
Notation "m ;; k" := (bindS m (fun _ => k))
  (at level 100, right associativity) : sync_scope.

(** [xs.forEach(f)] and [xs.map(f)] for callbacks with effects. *)
Fixpoint forEach {A} (xs : list A) (f : A -> Sync unit) : Sync unit :=
  match xs with
  | [] => retS tt
  | x :: r => (f x ;; forEach r f)%sync
  end.

Fixpoint mapS {A B} (f : A -> Sync B) (xs : list A) : Sync (list B) :=
  match xs with
  | [] => retS []
  | x :: r => (y <- f x ;; ys <- mapS f r ;; retS (y :: ys))%sync
  end.

(** ** Asynchronous code: suspension at [await]

    An [async] function runs until it completes or reaches an [await] on a
    timer; the event loop resumes it later, in the world as it is then.  [L] is
    the type of the function's mutable local variables: a thrown exception
    leaves them as they are, so a [catch] block reads what the [try] block
    assigned. *)

Inductive Async (L A : Type) : Type :=
| Done (r : Result A) (l : L) (w : World)
| Suspend (ms : Z) (w : World) (k : World -> Async L A).
Arguments Done {L A} r l w.
Arguments Suspend {L A} ms w k.

Definition Task (L A : Type) : Type := L -> World -> Async L A.

Definition retT {L A} (a : A) : Task L A := fun l w => Done (Ok a) l w.
Definition throwT {L A} (message : string) : Task L A :=
  fun l w => Done (Throw message) l w.

Fixpoint bindA {L A B} (x : Async L A) (f : A -> Task L B) : Async L B :=
  match x with
  | Done (Ok a) l w => f a l w
  | Done (Throw e) l w => Done (Throw e) l w
  | Suspend ms w k => Suspend ms w (fun w' => bindA (k w') f)
  end.
Definition bindT {L A B} (m : Task L A) (f : A -> Task L B) : Task L B :=
  fun l w => bindA (m l w) f.

(** [try { m } catch (e) { h e }] *)
Fixpoint catchA {L A} (x : Async L A) (h : string -> Task L A) : Async L A :=
  match x with
  | Done (Ok a) l w => Done (Ok a) l w
  | Done (Throw e) l w => h e l w
  | Suspend ms w k => Suspend ms w (fun w' => catchA (k w') h)
  end.
Definition tryCatch {L A} (m : Task L A) (h : string -> Task L A) : Task L A :=
  fun l w => catchA (m l w) h.

(** [try { m } finally { f }], for a [finally] block that cannot throw. *)
Fixpoint finallyA {L A} (x : Async L A) (f : World -> World) : Async L A :=
  match x with
  | Done r l w => Done r l (f w)
  | Suspend ms w k => Suspend ms w (fun w' => finallyA (k w') f)
  end.
Definition tryFinally {L A} (m : Task L A) (f : World -> World) : Task L A :=
  fun l w => finallyA (m l w) f.

(** Synchronous code inside an [async] function. *)
Definition lift {L A} (m : Sync A) : Task L A :=
  fun l w => let (r, w') := m w in Done r l w'.

(** Reading and assigning the local variables. *)
Definition get_local {L} : Task L L := fun l w => Done (Ok l) l w.
Definition set_local {L} (l' : L) : Task L unit := fun _ w => Done (Ok tt) l' w.

(** [await new Promise(r => setTimeout(r, ms))] *)
Definition sleep {L} (ms : Z) : Task L unit :=
  fun l w => Suspend ms (emit (EvSleep ms) w) (fun w' => Done (Ok tt) l w').

Declare Scope task_scope.
Delimit Scope task_scope with task.
Notation "x <- m ;; k" := (bindT m (fun x => k))
  (at level 100, m at next level, right associativity) : task_scope.
Notation "m ;; k" := (bindT m (fun _ => k))
  (at level 100, right associativity) : task_scope.

(** Running one [async] call to completion with nothing else on the event
    loop: each timer fires exactly when due.  The result is the completion,
    the final value of the local variables and the final world. *)
Fixpoint run {L A} (x : Async L A) : Result A * L * World :=
  match x with
  | Done r l w => (r, l, w)
  | Suspend ms w k => run (k (set_now (now w + ms) w))
  end.

(** [files.sort((a, b) => b.time - a.time)]: the sort is stable, so its result
    is the one of a stable insertion sort, newest first. *)
Fixpoint insert_desc (x : string * Z) (l : list (string * Z)) : list (string * Z) :=
  match l with
  | [] => [x]
  | y :: r => if y.2 <=? x.2 then x :: y :: r else y :: insert_desc x r
  end.
Fixpoint sort_desc (l : list (string * Z)) : list (string * Z) :=
  match l with
  | [] => []
  | x :: r => insert_desc x (sort_desc r)
  end.

Definition is_ok {A} (r : Result A) : bool :=
  match r with Ok _ => true | Throw _ => false end.

(** ** The server *)

Section Receiver.

Context (cfg : Config) (env : Env).

(** *** Primitives *)

(** A call into [fs]: the environment may make it fail; otherwise it acts on
    the file system.  Either way the call is recorded with the file system
    it leaves. *)
Definition fs_prim {A} (op : fs_op)
    (faulted : string -> World -> Result A * FS)
    (normal : World -> Result A * FS) : Sync A :=
  fun w =>
    let '(r, f') :=
      match fs_fault env (nfs (trace w)) op with
      | Some message => faulted message w
      | None => normal w
      end in
    (r, after_fs op (is_ok r) f' w).

Definition unchanged {A} (message : string) (w : World) : Result A * FS :=
  (Throw message, fs w).

Definition enoent (syscall p : string) : string :=
  "ENOENT: no such file or directory, " +:+ syscall +:+ " '" +:+ p +:+ "'".

Definition eisdir (syscall : string) : string :=
  "EISDIR: illegal operation on a directory, " +:+ syscall.


(** [fs.existsSync(p)]: never throws, answers [false] on any error. *)
Definition existsSync (p : string) : Sync bool :=
  fs_prim (OpExists p)
    (fun _ w => (Ok false, fs w))
    (fun w => (Ok (bool_decide (is_Some (files (fs w) !! p))
                   || bool_decide (p ∈ dirs (fs w))), fs w)).

(** [fs.mkdirSync(p, { recursive: true })] *)
Definition mkdirSync (p : string) : Sync unit :=
  fs_prim (OpMkdir p) unchanged
    (fun w => (Ok tt, MkFS (files (fs w)) (p :: dirs (fs w)))).

(** What a failed write to [p] leaves: the file system as it was, or a file
    with other content at [p]. *)
Definition torn_fs (p : string) (w : World) : FS :=
  match fs_torn env (nfs (trace w)) with
  | Some part => MkFS (<[p := File part (now w)]> (files (fs w))) (dirs (fs w))
  | None => fs w
  end.

(** [fs.writeFileSync(p, content)]: not atomic. *)
Definition writeFileSync (p content : string) : Sync unit :=
  fs_prim (OpWrite p content)
    (fun message w => (Throw message, torn_fs p w))
    (fun w => (Ok tt, MkFS (<[p := File content (now w)]> (files (fs w))) (dirs (fs w)))).

(** [fs.renameSync(src, dst)]: atomic. *)
Definition renameSync (src dst : string) : Sync unit :=
  fs_prim (OpRename src dst) unchanged
    (fun w =>
       match files (fs w) !! src with
       | Some f => (Ok tt, MkFS (<[dst := f]> (delete src (files (fs w)))) (dirs (fs w)))
       | None => (Throw (enoent "rename" src +:+ " -> '" +:+ dst +:+ "'"), fs w)
       end).

(** [fs.unlinkSync(p)]: removes a file, and fails on a directory. *)
Definition unlinkSync (p : string) : Sync unit :=
  fs_prim (OpUnlink p) unchanged
    (fun w =>
       match files (fs w) !! p with
       | Some _ => (Ok tt, MkFS (delete p (files (fs w))) (dirs (fs w)))
       | None =>
           if bool_decide (p ∈ dirs (fs w))
           then (Throw (eisdir ("unlink '" +:+ p +:+ "'")), fs w)
           else (Throw (enoent "unlink" p), fs w)
       end).

(** [fs.readFileSync(p, 'utf8')]: the bytes of the file, decoded. *)
Definition readFileSync (p : string) : Sync string :=
  fs_prim (OpRead p) unchanged
    (fun w =>
       match files (fs w) !! p with
       | Some f => (Ok (utf8_decode env (data f)), fs w)
       | None =>
           if bool_decide (p ∈ dirs (fs w)) then (Throw (eisdir "read"), fs w)
           else (Throw (enoent "open" p), fs w)
       end).

(** The names of the files of [dir], in the enumeration order of the map,
    and of its sub-directories; a path that holds a file is not listed as a
    directory, and a directory is listed once. *)
Definition file_entries (dir : string) (f : FS) : list string :=
  omap (Path.entry_of dir) (map_to_list (files f)).*1.
Definition dir_entries (dir : string) (f : FS) : list string :=
  remove_dups
    (omap (Path.entry_of dir)
       (List.filter (fun p => negb (bool_decide (is_Some (files f !! p)))) (dirs f))).

(** [fs.readdirSync(dir)]: the names of all the entries of [dir], files and
    sub-directories alike. *)
Definition readdirSync (dir : string) : Sync (list string) :=
  fs_prim (OpReaddir dir) unchanged
    (fun w => (Ok (file_entries dir (fs w) ++ dir_entries dir (fs w)), fs w)).

(** [fs.statSync(p).mtime.getTime()], of a file or of a directory. *)
Definition stat_mtime (p : string) : Sync Z :=
  fs_prim (OpStat p) unchanged
    (fun w =>
       match files (fs w) !! p with
       | Some f => (Ok (mtime f), fs w)
       | None =>
           if bool_decide (p ∈ dirs (fs w)) then (Ok (dir_mtime env p), fs w)
           else (Throw (enoent "stat" p), fs w)
       end).

(** [execSync(cmd, ...)] *)
Definition execSync (cmd : string) : Sync exec_outcome :=
  fun w =>
    let out := exec_out env (nexec cmd (trace w)) cmd in
    (Ok out, emit (EvExec cmd out) w).

(** [Date.now()] and [new Date()] *)
Definition Date_now : Sync Z := fun w => (Ok (now w), w).

Definition console_log (line : string) : Sync unit :=
  fun w => (Ok tt, emit (EvLog line) w).

(** *** The helpers of server.js *)

Definition log_line (t : Z) (msg level : string) : string :=
  "[" +:+ Js.substring 11 19 (Js.toISOString t) +:+ "] [" +:+ level +:+ "] " +:+ msg.

Definition log (msg level : string) : Sync unit :=
  (t <- Date_now ;; console_log (log_line t msg level))%sync.

Definition runCmd (command : string) : Sync unit :=
  (out <- execSync command ;;
   match out with
   | ExecOk => retS tt
   | ExecTimeout =>
       throwS ("命令执行超时 (" +:+ Js.string_of_Z (EXEC_TIMEOUT cfg) +:+ "ms): " +:+ command)
   | ExecFail stderr message =>
       throwS ("命令执行失败: " +:+ match stderr with Some s => s | None => message end)
   end)%sync.

Definition atomicWrite (filePath content : string) : Sync unit :=
  (t <- Date_now ;;
   let tempPath := filePath +:+ ".tmp." +:+ Js.string_of_Z t in
   try_catch
     (writeFileSync tempPath content ;;
      renameSync tempPath filePath)
     (fun e =>
        present <- existsSync tempPath ;;
        (if present then try_catch (unlinkSync tempPath) (fun _ => retS tt)
         else retS tt) ;;
        throwS e))%sync.

Definition cache_file_path : string :=
  match Js.get_prop "experimental"
          match DEFAULT_SYSTEM_CONFIG with Js.VObj ps => ps | _ => [] end with
  | Js.VObj ex =>
      match Js.get_prop "cache_file" ex with
      | Js.VObj cf =>
          match Js.get_prop "path" cf with Js.VStr s => s | _ => "" end
      | _ => ""
      end
  | _ => ""
  end.

Definition ensureSystemConfig : Sync unit :=
  (let sysPath := Path.join (BASE_DIR cfg) (SYSTEM_FILE cfg) in
   base <- existsSync (BASE_DIR cfg) ;;
   (if negb base then mkdirSync (BASE_DIR cfg) else retS tt) ;;
   sys <- existsSync sysPath ;;
   if negb sys then
     log "[INIT] 检测到系统配置缺失，正在生成默认 TUN 模板..." "WARN" ;;
     try_catch
       (let cacheDir := Path.dirname cache_file_path in
        cache <- existsSync cacheDir ;;
        (if negb cache then mkdirSync cacheDir else retS tt) ;;
        atomicWrite sysPath (JSON_stringify env DEFAULT_SYSTEM_CONFIG) ;;
        log ("[INIT] ✅ 默认系统配置已生成至: " +:+ sysPath) "INFO")
       (fun e => throwS ("无法生成系统配置: " +:+ e))
   else retS tt)%sync.

(** The name a backup taken at time [t] gets: [proxy_YYYYMMDDHHMMSS.json]. *)
Definition backupName (t : Z) : string :=
  let timestamp :=
    Js.slice0 14 (Js.remove_chars ["-"; ":"; "T"]%char (Js.toISOString t)) in
  "proxy_" +:+ timestamp +:+ ".json".

Definition is_backup_name (f : string) : bool :=
  Js.startsWith f "proxy_" && Js.endsWith f ".json".

(** The pruning of [rotateBackups]: the body of its [try] block. *)
Definition prune : Sync unit :=
  (names <- readdirSync (BACKUP_DIR cfg) ;;
   stats <- mapS (fun f => time <- stat_mtime (Path.join (BACKUP_DIR cfg) f) ;;
                           retS (f, time))
                 (List.filter is_backup_name names) ;;
   let files := sort_desc stats in
   if (MAX_BACKUPS cfg <? length files)%nat then
     let toDelete := drop (MAX_BACKUPS cfg) files in
     forEach toDelete (fun f =>
       unlinkSync (Path.join (BACKUP_DIR cfg) f.1) ;;
       log ("🗑️ 清理旧备份: " +:+ f.1) "INFO")
   else retS tt)%sync.

Definition rotateBackups (currentContent : string) : Sync unit :=
  (present <- existsSync (BACKUP_DIR cfg) ;;
   (if negb present then mkdirSync (BACKUP_DIR cfg) else retS tt) ;;
   t <- Date_now ;;
   let backupPath := Path.join (BACKUP_DIR cfg) (backupName t) in
   writeFileSync backupPath currentContent ;;
   log ("📦 已归档旧配置: " +:+ backupName t) "INFO" ;;
   try_catch prune
     (fun e => log ("备份清理失败 (非致命): " +:+ e) "WARN"))%sync.

Definition checkServiceHealth : Sync bool :=
  (out <- execSync (STATUS (CMD cfg)) ;;
   match out with
   | ExecOk => retS true
   | _ => retS false
   end)%sync.

End Receiver.

(** *** The request handlers *)

Record Request := {
  authorization : option string;   (* [req.headers.authorization] *)
  req_body : Js.value              (* [req.body]; [undefined] when no parser set it *)
}.

Record Response := { status : nat; body : Js.value }.

(** [res.status(code).json(body)] *)
Definition json (code : nat) (props : list (string * Js.value)) : Response :=
  {| status := code; body := Js.VObj props |}.

(** The mutable local variable of the [/deploy] handler; [None] is [null]. *)
Record Locals := { rollbackContent : option string }.

Definition truthy_text (s : option string) : bool :=
  match s with
  | Some t => negb (String.eqb t "")
  | None => false
  end.

(** [v.k] for the property names the handler reads, none of which a prototype
    defines: reading a property of [null] or [undefined] throws a
    [TypeError], and only an object has such a property. *)
Definition member (v : Js.value) (k : string) : Result Js.value :=
  match v with
  | Js.VUndefined =>
      Throw ("Cannot read properties of undefined (reading '" +:+ k +:+ "')")
  | Js.VNull =>
      Throw ("Cannot read properties of null (reading '" +:+ k +:+ "')")
  | Js.VObj props => Ok (Js.get_prop k props)
  | _ => Ok Js.VUndefined
  end.

(** [const { k } = v], where [source] is the text of the expression [v]: the
    property, or a [TypeError] when [v] is [undefined] or [null]. *)
Definition destructure (source : string) (v : Js.value) (k : string)
  : Result Js.value :=
  match v with
  | Js.VUndefined =>
      Throw ("Cannot destructure property '" +:+ k +:+ "' of '" +:+ source
             +:+ "' as it is undefined.")
  | Js.VNull =>
      Throw ("Cannot destructure property '" +:+ k +:+ "' of '" +:+ source
             +:+ "' as it is null.")
  | Js.VObj props => Ok (Js.get_prop k props)
  | _ => Ok Js.VUndefined
  end.

(** STEP 2 of the handler: the business sections of the pushed document, and
    nothing else. *)
Definition cleanConfig (rawConfig : Js.value) : Result (list (string * Js.value)) :=
  match member rawConfig "dns", member rawConfig "outbounds",
        member rawConfig "route", member rawConfig "ntp" with
  | Ok dns, Ok outbounds, Ok route, Ok ntp =>
      let cleanConfig := [
        ("dns", Js.or_else dns (Js.VObj []));
        ("outbounds", Js.or_else outbounds (Js.VArr []));
        ("route", Js.or_else route (Js.VObj []));
        ("ntp", ntp)
      ] in
      Ok (fold_left
            (fun o k => if Js.nullish (Js.get_prop k o) then Js.delete_prop k o else o)
            (Js.keys cleanConfig) cleanConfig)
  | Throw e, _, _, _ | _, Throw e, _, _ | _, _, Throw e, _ | _, _, _, Throw e => Throw e
  end.

Section Handlers.

Context (cfg : Config) (env : Env).

Definition crash_loop_message (i : nat) : string :=
  "服务在启动后第 " +:+ Js.string_of_Z (Z.of_nat i) +:+ " 次轮询时发现已停止 (CrashLoop)".

(** The probes of STEP 6, from the [i]-th on; [remaining] is
    [CHECK_COUNT + 1 - i]. *)
Fixpoint monitor_loop {L} (remaining i : nat) : Task L unit :=
  match remaining with
  | O => retT tt
  | S remaining' =>
      (healthy <- lift (checkServiceHealth cfg env) ;;
       if negb healthy then throwT (crash_loop_message i)
       else
         (if (i <? CHECK_COUNT (HEALTH cfg))%nat
          then sleep (INTERVAL (HEALTH cfg)) else retT tt) ;;
         monitor_loop remaining' (S i))%task
  end.

(** STEP 6: the initial wait, then the probes. *)
Definition healthMonitor {L} : Task L unit :=
  (sleep (INITIAL_DELAY (HEALTH cfg)) ;;
   monitor_loop (CHECK_COUNT (HEALTH cfg)) 1)%task.

(** STEP 1: take the payload out of the body, decrypt and parse. *)
Definition decryptAndParse (body : Js.value) : Sync Js.value :=
  (content <- of_result (destructure "req.body" body "content") ;;
   if negb (Js.truthy content) then throwS "Payload empty"
   else
     try_catch
       (decrypted <- of_result (AES_decrypt_utf8 env content (SECRET cfg)) ;;
        if String.eqb decrypted "" then throwS "Decryption failed / Secret mismatch"
        else of_result (JSON_parse env decrypted))
       (fun e => throwS ("数据解析失败: " +:+ e)))%sync.

Definition targetPath : string := Path.join (BASE_DIR cfg) (PROXY_FILE cfg).

(** The [try] block of the handler. *)
Definition deploy_try (req : Request) : Task Locals Response :=
  (lift (log ">>> 开始部署流程..." "INFO") ;;
   (* STEP 0 *)
   lift (ensureSystemConfig cfg env) ;;
   (* STEP 1 *)
   rawConfig <- lift (decryptAndParse (req_body req)) ;;
   (* STEP 2 *)
   clean <- lift (of_result (cleanConfig rawConfig)) ;;
   (* STEP 3 *)
   present <- lift (existsSync env targetPath) ;;
   (if present then
      tryCatch
        (old <- lift (readFileSync env targetPath) ;;
         set_local {| rollbackContent := Some old |} ;;
         lift (rotateBackups cfg env old))
        (fun e => lift (log ("⚠️ 备份归档异常: " +:+ e) "WARN"))
    else retT tt) ;;
   (* STEP 4 *)
   lift (atomicWrite env targetPath (JSON_stringify env (Js.VObj clean))) ;;
   lift (log "新配置已原子写入磁盘" "INFO") ;;
   (* STEP 5 *)
   lift (log "执行语法预检..." "INFO") ;;
   lift (runCmd cfg env (CHECK (CMD cfg))) ;;
   lift (log "执行服务重启..." "INFO") ;;
   lift (runCmd cfg env (RESTART (CMD cfg))) ;;
   (* STEP 6 *)
   lift (log ("进入健康监测期 (" +:+ Js.string_of_Z (Z.of_nat (CHECK_COUNT (HEALTH cfg)))
              +:+ "秒)...") "INFO") ;;
   healthMonitor ;;
   lift (log "🎉 部署成功：服务运行稳定" "INFO") ;;
   retT (json 200 [("status", Js.VStr "success");
                   ("message", Js.VStr "Deployed and verified successfully")]))%task.

(** The [catch] block of the handler. *)
Definition deploy_catch (error : string) : Task Locals Response :=
  (lift (log ("❌ 部署中断: " +:+ error) "ERROR") ;;
   tryCatch
     (l <- get_local ;;
      if truthy_text (rollbackContent l) then
        lift (log "正在回滚至上一版本..." "WARN") ;;
        lift (atomicWrite env targetPath (default "" (rollbackContent l))) ;;
        lift (runCmd cfg env (RESTART (CMD cfg))) ;;
        sleep 2000 ;;
        healthy <- lift (checkServiceHealth cfg env) ;;
        if healthy then lift (log "✅ 回滚成功，服务已恢复" "INFO")
        else lift (log "💀 致命：回滚后服务仍无法启动，请人工介入" "ERROR")
      else
        present <- lift (existsSync env targetPath) ;;
        if present && negb (truthy_text (rollbackContent l)) then
          lift (try_catch (unlinkSync env targetPath) (fun _ => retS tt)) ;;
          lift (log "清理无效的首次部署文件" "WARN")
        else retT tt)
     (fun rbErr => lift (log ("回滚过程异常: " +:+ rbErr) "ERROR")) ;;
   retT (json 500 [("status", Js.VStr "error"); ("message", Js.VStr error)]))%task.

Definition bad_credential (auth : option string) : bool :=
  negb (truthy_text auth)
  || negb (bool_decide (auth = Some ("Bearer " +:+ TOKEN cfg))).

(** [app.post('/deploy', async (req, res) => ...)] *)
Definition deploy (req : Request) : Task Locals Response :=
  fun l w =>
    if bad_credential (authorization req) then
      (lift (log "非法访问尝试" "WARN") ;;
       retT (json 401 [("error", Js.VStr "Unauthorized")]))%task l w
    else if isDeploying w then
      retT (json 429 [("error", Js.VStr "Deployment locked, please wait")]) l w
    else
      tryFinally
        (tryCatch (deploy_try req) deploy_catch)
        (set_isDeploying false)
        l (set_isDeploying true w).

(** A call of the handler starts with [rollbackContent = null]. *)
Definition handle_deploy (req : Request) (w : World) : Async Locals Response :=
  deploy req {| rollbackContent := None |} w.

(** [app.get('/health', ...)] *)
Definition health : Sync Response :=
  (up <- checkServiceHealth cfg env ;;
   if up then retS (json 200 [("status", Js.VStr "UP")])
   else retS (json 503 [("status", Js.VStr "DOWN")]))%sync.

End Handlers.

(** ** The event loop

    Node runs one callback at a time.  A [/deploy] call runs until it answers
    or awaits a timer; while it waits, other requests are served.  The state of
    the server between two callbacks is the world and the suspended
    deployments, each with the time its timer is due. *)

Record Server := {
  world : World;
  timers : list (Z * (World -> Async Locals Response))
}.

Inductive input : Type :=
| PostDeploy (req : Request)   (* a request reaches [/deploy] *)
| GetHealth                    (* a request reaches [/health] *)
| Fire (j : nat).              (* the timer of the [j]-th suspended call fires *)

Section EventLoop.

Context (cfg : Config) (env : Env).

(** A callback ran up to [x]: the call answered, or waits again. *)
Definition settle (x : Async Locals Response)
    (others : list (Z * (World -> Async Locals Response)))
    : Server * option (Result Response) :=
  match x with
  | Done r _ w => ({| world := w; timers := others |}, Some r)
  | Suspend ms w k => ({| world := w; timers := others ++ [(now w + ms, k)] |}, None)
  end.

Definition step (i : input) (s : Server) : Server * option (Result Response) :=
  match i with
  | PostDeploy req => settle (handle_deploy cfg env req (world s)) (timers s)
  | GetHealth =>
      let (r, w) := health cfg env (world s) in
      ({| world := w; timers := timers s |}, Some r)
  | Fire j =>
      match timers s !! j with
      | Some (due, k) =>
          settle (k (set_now (Z.max (now (world s)) due) (world s)))
                 (delete j (timers s))
      | None => (s, None)
      end
  end.

(** The server after a sequence of inputs, with the answers given. *)
Fixpoint steps (ins : list input) (s : Server)
    : Server * list (Result Response) :=
  match ins with
  | [] => (s, [])
  | i :: r =>
      let (s', o) := step i s in
      let (s'', os) := steps r s' in
      (s'', match o with Some a => a :: os | None => os end)
  end.

End EventLoop.

(** The number of deployments in flight: admitted, and not yet answered. *)
Definition deploying (s : Server) : nat := length (timers s).

(** ** Vocabulary of the statements *)

(** The own property [k] of a parsed document; [undefined] when the document
    is not an object or has no such property. *)
Definition own (raw : Js.value) (k : string) : Js.value :=
  match raw with
  | Js.VObj props => Js.get_prop k props
  | _ => Js.VUndefined
  end.

(** The payload of a request: [req.body.content] when the body is an
    object. *)
Definition content (req : Request) : Js.value := own (req_body req) "content".

(** The names of the business sections and of the protected ones. *)
Definition business_keys : list string := ["dns"; "outbounds"; "route"; "ntp"].
Definition protected_keys : list string := ["log"; "inbounds"; "experimental"].

(** The events of [new] that [old] does not have, oldest first, when [new]
    extends [old]. *)
Definition since (old new : list event) : list event :=
  rev (take (length new - length old) new).

(** [x] between any two consecutive elements of a list. *)
Fixpoint intersperse {A} (x : A) (l : list A) : list A :=
  match l with
  | [] => []
  | a :: r => match r with [] => [a] | _ :: _ => a :: x :: intersperse x r end
  end.

(** The file systems a trace left behind, one per file-system call. *)
Definition observed (tr : list event) : list FS :=
  omap (fun e => match e with EvFs _ _ after => Some after | _ => None end) tr.

(** The text of the file at [p], if there is one. *)
Definition text_at (p : string) (f : FS) : option string := data <$> files f !! p.

(** The text [readFileSync] gives for the file at [p], if there is one. *)
Definition read_text (env : Env) (p : string) (f : FS) : option string :=
  utf8_decode env <$> text_at p f.

(** ** What synchronous code leaves alone

    No synchronous helper of the server assigns the lock or moves the clock:
    [stable].  The helpers that only use the file system and the console run
    no command, and touch few paths: [quiet p] says so for the path [p]. *)

Definition stable {A} (m : Sync A) : Prop :=
  forall w, isDeploying (m w).2 = isDeploying w /\ now (m w).2 = now w.

Definition quiet (p : string) {A} (m : Sync A) : Prop :=
  forall w,
    isDeploying (m w).2 = isDeploying w
    /\ now (m w).2 = now w
    /\ (forall cmd, nexec cmd (trace (m w).2) = nexec cmd (trace w))
    /\ files (fs (m w).2) !! p = files (fs w) !! p.

(** The environment makes no file-system call fail, or at most one. *)
Definition no_faults (env : Env) : Prop :=
  forall n op, fs_fault env n op = None.

Definition at_most_one_fault (env : Env) : Prop :=
  forall n op e n' op' e',
    fs_fault env n op = Some e -> fs_fault env n' op' = Some e' -> n = n'.

(** ** An example installation

    A concrete environment, used to run the handler on concrete requests: the
    payload travels in clear, the parser knows two documents, no file-system
    call fails, and the outcome of a command is looked up in a table of
    failures. *)

Module Example.

Definition parse (text : string) : Result Js.value :=
  if String.eqb text "{}" then Ok (Js.VObj [])
  else if String.eqb text "{'log':{},'route':{'final':'direct'}}" then
    Ok (Js.VObj [("log", Js.VObj []);
                 ("route", Js.VObj [("final", Js.VStr "direct")])])
  else Throw "Unexpected token".

Fixpoint stringify (v : Js.value) : string :=
  match v with
  | Js.VObj props =>
      "{" +:+ String.concat ","
                (map (fun kv => "'" +:+ kv.1 +:+ "':" +:+ stringify kv.2) props) +:+ "}"
  | Js.VArr items => "[" +:+ String.concat "," (map stringify items) +:+ "]"
  | Js.VStr s => "'" +:+ s +:+ "'"
  | Js.VBool true => "true"
  | Js.VBool false => "false"
  | Js.VNull => "null"
  | _ => "0"
  end.

(** The UTF-8 decoder of the Encoding Standard, on text given by its UTF-8
    encoding: a well-formed sequence is kept, and U+FFFD (the bytes EF BF BD)
    is put for every ill-formed part. *)
Definition replacement : string :=
  String (ascii_of_nat 239) (String (ascii_of_nat 191) (String (ascii_of_nat 189) "")).

Inductive lead : Type :=
| Single
| Lead (needed : nat) (lower upper : Z)
| Invalid.

Definition classify (b : Z) : lead :=
  if b <=? 127 then Single
  else if (194 <=? b) && (b <=? 223) then Lead 1 128 191
  else if (224 <=? b) && (b <=? 239) then
    Lead 2 (if b =? 224 then 160 else 128) (if b =? 237 then 159 else 191)
  else if (240 <=? b) && (b <=? 244) then
    Lead 3 (if b =? 240 then 144 else 128) (if b =? 244 then 143 else 191)
  else Invalid.

Fixpoint decode (needed : nat) (lower upper : Z) (seen bytes : string) : string :=
  match bytes with
  | EmptyString => match needed with O => "" | S _ => replacement end
  | String c rest =>
      let b := Z.of_nat (nat_of_ascii c) in
      let start :=
        match classify b with
        | Single => String c (decode 0 128 191 "" rest)
        | Lead n lo hi => decode n lo hi (String c "") rest
        | Invalid => replacement +:+ decode 0 128 191 "" rest
        end in
      match needed with
      | O => start
      | S n =>
          if (lower <=? b) && (b <=? upper) then
            match n with
            | O => seen +:+ String c (decode 0 128 191 "" rest)
            | S _ => decode n 128 191 (seen +:+ String c "") rest
            end
          else replacement +:+ start
      end
  end.

Definition decode_utf8 (bytes : string) : string := decode 0 128 191 "" bytes.

(** The modification times of the directories of the example host: they were
    made after the files, and one of them in the second the clock of the
    host shows. *)
Definition dir_time (p : string) : Z :=
  if String.eqb p "/etc/sing-box/backups/proxy_c.json" then 1793663160500
  else 1793700000000.

(** [broken] lists the ranks of the file-system calls that fail, each leaving
    a truncated file behind when it is a write; [failures] lists the runs
    that fail: the command and its rank. *)
Definition env_with (broken : list nat) (failures : list (string * nat)) : Env := {|
  AES_decrypt_utf8 := fun v _ =>
    match v with Js.VStr s => Ok s | _ => Throw "Malformed UTF-8 data" end;
  JSON_parse := parse;
  JSON_stringify := stringify;
  utf8_decode := decode_utf8;
  dir_mtime := dir_time;
  fs_fault := fun n _ =>
    if existsb (Nat.eqb n) broken then Some "EIO: i/o error" else None;
  fs_torn := fun _ => Some "{";
  exec_out := fun n cmd =>
    if existsb (fun f => String.eqb f.1 cmd && Nat.eqb f.2 n) failures
    then ExecFail None "Command failed" else ExecOk
|}.

Definition env (failures : list (string * nat)) : Env := env_with [] failures.

Definition proxy : string := "/etc/sing-box/conf.d/10-proxy.json".
Definition system : string := "/etc/sing-box/conf.d/00-system.json".

(** A provisioned host: both configuration files exist. *)
Definition installed : World := {|
  fs := MkFS (<[proxy := File "{'route':{}}" 1793000000000]>
              (<[system := File "{'log':{}}" 1792000000000]> ∅))
             ["/etc/sing-box/conf.d"; "/etc/sing-box/backups"];
  isDeploying := false;
  now := 1793663160123;
  trace := []
|}.

Definition request (payload : Js.value) : Request :=
  {| authorization := Some "Bearer my_token_123";
     req_body := Js.VObj [("content", payload)] |}.

(** A host whose backup directory holds four backups, one more than the
    retention count, as after an archival whose pruning failed. *)
Definition crowded : World := {|
  fs := MkFS (<["/etc/sing-box/backups/proxy_20261101000004.json" := File "4" 1793491204000]>
              (<["/etc/sing-box/backups/proxy_20261101000003.json" := File "3" 1793491203000]>
               (<["/etc/sing-box/backups/proxy_20261101000002.json" := File "2" 1793491202000]>
                (<["/etc/sing-box/backups/proxy_20261101000001.json" := File "1" 1793491201000]>
                 (files (fs installed))))))
             (dirs (fs installed));
  isDeploying := false;
  now := 1793663160123;
  trace := []
|}.

(** The same host, with a directory called like a backup among them. *)
Definition crowded_dir : World := {|
  fs := MkFS (files (fs crowded))
             ("/etc/sing-box/backups/proxy_dir.json" :: dirs (fs crowded));
  isDeploying := false;
  now := 1793663160123;
  trace := []
|}.

(** A host whose backup directory holds three directories called like
    backups, and no file. *)
Definition three_dirs : World := {|
  fs := MkFS (files (fs installed))
             ("/etc/sing-box/backups/proxy_a.json"
              :: "/etc/sing-box/backups/proxy_b.json"
              :: "/etc/sing-box/backups/proxy_c.json" :: dirs (fs installed));
  isDeploying := false;
  now := 1793663160123;
  trace := []
|}.

(** The provisioned host with a business file that is no UTF-8: the bytes
    7b ff 7d. *)
Definition garbled : World := {|
  fs := MkFS (<[proxy := File (String "{" (String (ascii_of_nat 255) "}")) 1793000000000]>
              (files (fs installed)))
             (dirs (fs installed));
  isDeploying := false;
  now := 1793663160123;
  trace := []
|}.

(** Four archivals, one second apart. *)
Definition four_pushes : list (Z * string) :=
  [(1793663160123, "a"); (1793663161123, "b"); (1793663162123, "c");
   (1793663163123, "d")].

End Example.

(** ** The lock along an asynchronous call *)

(** The call never assigns the lock: it is [b] at every suspension and at
    completion, provided it is [b] again whenever the call is resumed. *)
Inductive keeps {L A} (b : bool) : Async L A -> Prop :=
| keeps_done r l w :
    isDeploying w = b -> keeps b (Done r l w)
| keeps_suspend ms w k :
    isDeploying w = b ->
    (forall w', isDeploying w' = b -> keeps b (k w')) ->
    keeps b (Suspend ms w k).

Definition task_keeps {L A} (m : Task L A) : Prop :=
  forall b l w, isDeploying w = b -> keeps b (m l w).

(** The call holds the lock while it is suspended and has released it when it
    completes, provided the lock is still held whenever the call is
    resumed. *)
Inductive releases {L A} : Async L A -> Prop :=
| releases_done r l w :
    isDeploying w = false -> releases (Done r l w)
| releases_suspend ms w k :
    isDeploying w = true ->
    (forall w', isDeploying w' = true -> releases (k w')) ->
    releases (Suspend ms w k).

(** The state of the server between two callbacks: idle, with the lock free
    and no deployment suspended; or deploying, with the lock held by the one
    suspended deployment, which will release it. *)
Definition Idle (s : Server) : Prop :=
  isDeploying (world s) = false /\ timers s = [].

Definition Deploying (s : Server) : Prop :=
  isDeploying (world s) = true
  /\ exists due k,
       timers s = [(due, k)]
       /\ forall w', isDeploying w' = true -> releases (k w').

(** The answer to a request that finds the lock taken. *)
Definition busy : Response :=
  json 429 [("error", Js.VStr "Deployment locked, please wait")].

(** Every completion of the call satisfies [P], however it is resumed. *)
Inductive always {L A} (P : Result A -> Prop) : Async L A -> Prop :=
| always_done r l w : P r -> always P (Done r l w)
| always_suspend ms w k : (forall w', always P (k w')) -> always P (Suspend ms w k).

(** The two answers of an admitted deployment. *)
Definition deployed : Response :=
  json 200 [("status", Js.VStr "success");
            ("message", Js.VStr "Deployed and verified successfully")].

Definition failed (error : string) : Response :=
  json 500 [("status", Js.VStr "error"); ("message", Js.VStr error)].

(** ** The backup directory *)

Section Backups.

Context (cfg : Config).

(** The names [rotateBackups] prunes among: the files of the backup directory
    called [proxy_*.json], as [readdirSync] and the filter list them. *)
Definition backup_names (m : gmap string file) : list string :=
  List.filter is_backup_name
    (omap (Path.entry_of (BACKUP_DIR cfg)) (map_to_list m).*1).

(** The list that is sorted: each name with its modification time. *)
Definition backups (m : gmap string file) : list (string * Z) :=
  map (fun n => (n, default 0 (mtime <$> m !! Path.join (BACKUP_DIR cfg) n)))
      (backup_names m).

(** The backups with their contents. *)
Definition backup_files (m : gmap string file) : list (string * file) :=
  omap (fun n => pair n <$> m !! Path.join (BACKUP_DIR cfg) n) (backup_names m).

(** The sub-directories of the backup directory called [proxy_*.json], among
    the directories [ds]. *)
Definition backup_dirs (ds : list string) : list string :=
  List.filter is_backup_name (omap (Path.entry_of (BACKUP_DIR cfg)) ds).

(** Those [readdirSync] lists and the filter keeps: they take places among
    the entries [rotateBackups] sorts. *)
Definition dir_names (f : FS) : list string :=
  List.filter is_backup_name (dir_entries (BACKUP_DIR cfg) f).

(** The modification time [statSync] gives for an entry. *)
Definition entry_time (env : Env) (f : FS) (p : string) : Z :=
  match files f !! p with
  | Some e => mtime e
  | None => dir_mtime env p
  end.

(** The entries that are sorted, files and sub-directories, each with its
    modification time. *)
Definition backup_entries (env : Env) (f : FS) : list (string * Z) :=
  map (fun n => (n, entry_time env f (Path.join (BACKUP_DIR cfg) n)))
      (backup_names (files f) ++ dir_names f).

(** The entry [e] of the backup directory is a file. *)
Definition is_file_entry (m : gmap string file) (e : string * Z) : bool :=
  bool_decide (is_Some (m !! Path.join (BACKUP_DIR cfg) e.1)).

(** The backup taken at time [t] of the text [c]: its name and the file. *)
Definition backup_of (item : Z * string) : string * file :=
  (backupName item.1, File item.2 item.1).

(** [archive_all items w]: one archival per item, each at its time and of its
    text. *)
Definition archive_all (env : Env) (items : list (Z * string)) (w : World) : World :=
  fold_left (fun w item => (rotateBackups cfg env item.2 (set_now item.1 w)).2)
            items w.

End Backups.

(** The paths unlinked, in the order of the events. *)
Definition unlinked (evs : list event) : list string :=
  omap (fun e => match e with EvFs (OpUnlink p) true _ => Some p | _ => None end) evs.

(** The longest prefix of a list whose elements satisfy [P]. *)
Fixpoint take_while {A} (P : A -> bool) (l : list A) : list A :=
  match l with
  | [] => []
  | x :: r => if P x then x :: take_while P r else []
  end.

(** The last [n] elements of a list. *)
Definition lastn {A} (n : nat) (l : list A) : list A := drop (length l - n) l.

Definition valid_name (n : string) : Prop :=
  is_backup_name n = true /\ Path.has_slash n = false /\ n <> "".

(** The name and the modification time of the backup taken at time [t]. *)
Definition name_time (item : Z * string) : string * Z := (backupName item.1, item.1).

(** ** The calendar *)

(** The fields [civil_of_day] computes from the day of the era. *)
Definition yoe_of (doe : Z) : Z :=
  (doe - doe / 1460 + doe / 36524 - doe / 146096) / 365.
Definition doy_from (doe yoe : Z) : Z :=
  doe - (365 * yoe + yoe / 4 - yoe / 100).
Definition month_from (doy : Z) : Z :=
  let mp := (5 * doy + 2) / 153 in
  if mp <? 10 then mp + 3 else mp - 9.
Definition dom_from (doy : Z) : Z :=
  doy - (153 * ((5 * doy + 2) / 153) + 2) / 5 + 1.
Definition month_of (doe : Z) : Z := month_from (doy_from doe (yoe_of doe)).
Definition dom_of (doe : Z) : Z := dom_from (doy_from doe (yoe_of doe)).

(** The day of the era of a date given by its year of the era, month and day
    of the month. *)
Definition doe_of (yoe m d : Z) : Z :=
  let mp := if 2 <? m then m - 3 else m + 9 in
  yoe * 365 + yoe / 4 - yoe / 100 + ((153 * mp + 2) / 5 + d - 1).

(** The day number of a date: the inverse of [Js.civil_of_day]. *)
Definition day_of_civil (c : Js.civil) : Z :=
  let y := Js.c_year c - (if Js.c_month c <=? 2 then 1 else 0) in
  (y / 400) * 146097 + doe_of (y mod 400) (Js.c_month c) (Js.c_day c) - 719468.

(** What has to hold of every day of an era for the date to be well formed,
    for [day_of_civil] to be the inverse, and for the year to change after
    the day 146036 of the era, a 31st of December. *)
Definition era_ok (doe : Z) : bool :=
  let yoe := yoe_of doe in
  let doy := doy_from doe yoe in
  let m := month_from doy in
  let d := dom_from doy in
  (0 <=? yoe) && (yoe <=? 399)
  && (1 <=? m) && (m <=? 12)
  && (1 <=? d) && (d <=? 31)
  && (doe_of yoe m d =? doe)
  && Bool.eqb (doe <=? 146036) (yoe + (if m <=? 2 then 1 else 0) <=? 399).

Fixpoint all_from (P : Z -> bool) (n : nat) (z : Z) : bool :=
  match n with
  | O => true
  | S n' => P z && all_from P n' (z + 1)
  end.

(** The integer a decimal numeral denotes, if it is one. *)
Definition decimal (s : string) : option Z :=
  Z.of_int <$> NilZero.int_of_string s.

(** The value of a string of decimal digits. *)
Fixpoint digits_value (acc : Z) (s : string) : Z :=
  match s with
  | EmptyString => acc
  | String c r => digits_value (10 * acc + (Z.of_nat (nat_of_ascii c) - 48)) r
  end.

(** The times whose ISO year has four digits: the years 0 to 9999. *)
Definition four_digit_year (t : Z) : Prop :=
  -62167219200000 <= t <= 253402300799999.

(** The date and time of an ISO string, without the separators. *)
Definition stamp (t : Z) : string :=
  let c := Js.civil_of_day (Js.Day t) in
  Js.remove_chars ["-"; ":"; "T"]%char (Js.iso_year (Js.c_year c))
  +:+ Js.pad 2 (Js.c_month c) +:+ Js.pad 2 (Js.c_day c)
  +:+ Js.pad 2 (Js.HourFromTime t) +:+ Js.pad 2 (Js.MinFromTime t)
  +:+ Js.pad 2 (Js.SecFromTime t).

(** [pad w n] has [w] digits and reads back as [n]. *)
Definition pad_ok (w : nat) (n : Z) : bool :=
  Nat.eqb (String.length (Js.pad w n)) w && (digits_value 0 (Js.pad w n) =? n).

(** The synchronous code [m] never throws. *)
Definition safe {A} (m : Sync A) : Prop := forall w, exists a, (m w).1 = Ok a.

(** [w1] differs from [w] by file-system calls and log lines that do not
    touch the file at [p]: same lock, same clock, same commands run, same
    file at [p]. *)
Definition framed (p : string) (w w1 : World) : Prop :=
  isDeploying w1 = isDeploying w
  /\ now w1 = now w
  /\ (forall cmd, nexec cmd (trace w1) = nexec cmd (trace w))
  /\ files (fs w1) !! p = files (fs w) !! p.

(** The line the rollback logs after its probe, and its level. *)
Definition rollback_verdict (out : exec_outcome) : string * string :=
  match out with
  | ExecOk => ("✅ 回滚成功，服务已恢复", "INFO")
  | _ => ("💀 致命：回滚后服务仍无法启动，请人工介入", "ERROR")
  end.

(** The failures of the payload and their messages: the payload is empty,
    cannot be decrypted, decrypts to nothing, or is not JSON. *)
Inductive PayloadError (env : Env) (c : Js.value) : string -> Prop :=
| payload_empty :
    Js.truthy c = false ->
    PayloadError env c "Payload empty"
| payload_undecryptable m :
    Js.truthy c = true ->
    AES_decrypt_utf8 env c (SECRET CONFIG) = Throw m ->
    PayloadError env c ("数据解析失败: " +:+ m)
| payload_secret_mismatch :
    Js.truthy c = true ->
    AES_decrypt_utf8 env c (SECRET CONFIG) = Ok "" ->
    PayloadError env c ("数据解析失败: " +:+ "Decryption failed / Secret mismatch")
| payload_unparsable text m :
    Js.truthy c = true ->
    AES_decrypt_utf8 env c (SECRET CONFIG) = Ok text ->
    text <> "" ->
    JSON_parse env text = Throw m ->
    PayloadError env c ("数据解析失败: " +:+ m).

(** The failures of STEP 1: the request has no body to take the payload
    from, or its payload fails. *)
Inductive StepOneError (env : Env) (body : Js.value) : string -> Prop :=
| body_missing e :
    destructure "req.body" body "content" = Throw e ->
    StepOneError env body e
| payload_fails c e :
    destructure "req.body" body "content" = Ok c ->
    PayloadError env c e ->
    StepOneError env body e.

(** ** The client plug-in (Receiver-plugin-client-3.5.js)

    The plug-in runs in the GUI: it reads its settings, builds the URL of the
    receiver, encrypts the generated configuration, posts it and reads the
    answer. *)

Module Client.

Record Settings := { address : string; token : string; secret : string }.

Definition DEFAULT_CONFIG : Settings := {|
  address := "http://192.168.3.103:8080";
  token := "my_token_123";
  secret := "my_key_456"
|}.

(** The functions of the GUI's JavaScript engine and of CryptoJS the plug-in
    calls. *)
Record Env := {
  (* [JSON.stringify(v)] *)
  stringify : Js.value -> string;
  (* [JSON.parse(text)]; a [SyntaxError] carries its message *)
  parse : string -> Result Js.value;
  (* [CryptoJS.AES.encrypt(text, secret).toString()] *)
  AES_encrypt : string -> string -> string;
  (* [String(v)] for a value that is not a string *)
  ToString : Js.value -> string
}.

(** [Plugin.X || DEFAULT_CONFIG.x]; [None] is a setting that was never
    set. *)
Definition or_default (setting : option string) (preset : string) : string :=
  match setting with
  | Some s => if String.eqb s "" then preset else s
  | None => preset
  end.

(** Step 2 of [Deploy]: the settings, or the thrown string. *)
Definition read_settings (ServerAddress Token Secret : option string)
  : Result Settings :=
  let address := or_default ServerAddress (address DEFAULT_CONFIG) in
  let token := or_default Token (token DEFAULT_CONFIG) in
  let secret := or_default Secret (secret DEFAULT_CONFIG) in
  if String.eqb address "" || String.eqb token "" || String.eqb secret ""
  then Throw "请先在插件设置中配置：服务器地址、Token 和加密密钥"
  else Ok {| address := address; token := token; secret := secret |}.

Fixpoint all_slashes (s : string) : bool :=
  match s with
  | EmptyString => true
  | String c r => Ascii.eqb c "/" && all_slashes r
  end.

(** [s.replace(/\/+$/, '')]: the match starts at the first position from
    which only slashes follow, and is removed. *)
Fixpoint strip_trailing_slashes (s : string) : string :=
  match s with
  | EmptyString => EmptyString
  | String c r =>
      if Ascii.eqb c "/" && all_slashes r then EmptyString
      else String c (strip_trailing_slashes r)
  end.

Definition targetUrl (address : string) : string :=
  let cleanAddr := strip_trailing_slashes address in
  if Js.startsWith cleanAddr "http" then cleanAddr +:+ "/deploy"
  else "http://" +:+ cleanAddr +:+ "/deploy".

(** The value of a header field as the receiver gets it: HTTP leaves out the
    blanks, spaces and tabs, before and after the value. *)
Definition blank (c : ascii) : bool :=
  Ascii.eqb c " " || Ascii.eqb c "009".

Fixpoint all_blank (s : string) : bool :=
  match s with
  | EmptyString => true
  | String c r => blank c && all_blank r
  end.

Fixpoint drop_leading_blanks (s : string) : string :=
  match s with
  | EmptyString => EmptyString
  | String c r => if blank c then drop_leading_blanks r else s
  end.

Fixpoint drop_trailing_blanks (s : string) : string :=
  match s with
  | EmptyString => EmptyString
  | String c r =>
      if all_blank s then EmptyString else String c (drop_trailing_blanks r)
  end.

Definition field_value (s : string) : string :=
  drop_trailing_blanks (drop_leading_blanks s).

(** Steps 4 and 5: the request posted for the generated configuration
    [config], as it reaches the handler: the header field without the blanks
    around its value, the body parsed from the JSON text sent. *)
Definition request (env : Env) (s : Settings) (config : Js.value) : Request := {|
  authorization := Some (field_value ("Bearer " +:+ token s));
  req_body :=
    Js.VObj [("content",
              Js.VStr (AES_encrypt env (stringify env config) (secret s)))]
|}.

(** What [throw] can raise in the plug-in: a value, or an [Error] object
    with its name and message. *)
Inductive thrown : Type :=
| Value (v : Js.value)
| Error (name message : string).

(** ['' + err] *)
Definition render (env : Env) (err : thrown) : string :=
  match err with
  | Value (Js.VStr s) => s
  | Value v => ToString env v
  | Error name message => name +:+ ": " +:+ message
  end.

(** Step 6, on the status and the body [Plugins.HttpPost] returned. *)
Definition read_answer (env : Env) (status : nat) (body : Js.value)
  : thrown + unit :=
  let result :=
    match body with
    | Js.VStr text =>
        match parse env text with
        | Ok v => inr v
        | Throw message => inl (Error "SyntaxError" message)
        end
    | _ => inr body
    end in
  match result with
  | inl e => inl e
  | inr result =>
      if negb (Nat.eqb status 200) then
        match member result "message" with
        | Ok message => inl (Value (Js.or_else message (Js.VStr "服务器拒绝了请求")))
        | Throw message => inl (Error "TypeError" message)
        end
      else inr tt
  end.

(** The notification [Deploy] ends with. *)
Inductive notice : Type :=
| success (text : string)
| error (text : string).

Definition report (env : Env) (profile_name : string) (status : nat) (body : Js.value)
  : notice :=
  match read_answer env status body with
  | inr _ => success ("[" +:+ profile_name +:+ "] 部署并预检通过！")
  | inl err => error ("部署失败: " +:+ render env err)
  end.

(** The polling of [loadDependence]: the callback of [setInterval] runs every
    100 ms; [present n] tells whether [window.CryptoJS] is defined at run
    [n].  The result is the run that cleared the interval and how the promise
    was settled; [fuel] bounds the number of runs looked at. *)
Fixpoint poll (present : nat -> bool) (fuel counter : nat) : option (nat * Result unit) :=
  match fuel with
  | O => None
  | S fuel' =>
      if present counter then Some (counter, Ok tt)
      else if (20 <? counter)%nat then Some (counter, Throw "脚本解析超时")
      else poll present fuel' (S counter)
  end.

End Client.

(** ** Waiting and footprint of an asynchronous call *)


(** The synchronous code [m] leaves the file at [p] as it is. *)
Definition untouched (p : string) {A} (m : Sync A) : Prop :=
  forall w, files (fs (m w).2) !! p = files (fs w) !! p.

(** The file at [p] is [v] at every suspension of the call and when it
    completes, provided it still is whenever the call is resumed. *)
Inductive maintains {L A} (p : string) (v : option file) : Async L A -> Prop :=
| maintains_done r l w :
    files (fs w) !! p = v -> maintains p v (Done r l w)
| maintains_suspend ms w k :
    files (fs w) !! p = v ->
    (forall w', files (fs w') !! p = v -> maintains p v (k w')) ->
    maintains p v (Suspend ms w k).

(** The message of the error [runCmd] throws for a command that did not
    succeed. *)
Definition command_error (cfg : Config) (command : string) (out : exec_outcome)
  : string :=
  match out with
  | ExecOk => ""
  | ExecTimeout =>
      "命令执行超时 (" +:+ Js.string_of_Z (EXEC_TIMEOUT cfg) +:+ "ms): " +:+ command
  | ExecFail stderr message =>
      "命令执行失败: " +:+ match stderr with Some s => s | None => message end
  end.

(** What the rollback does after it wrote the previous text back at time
    [t], most recent first: the restart, and when it succeeded the wait, the
    probe and the verdict; otherwise the line that reports its failure. *)
Definition rollback_events (cfg : Config) (t : Z) (again reprobe : exec_outcome)
  : list event :=
  match again with
  | ExecOk =>
      [EvLog (log_line (t + 2000)
                (rollback_verdict reprobe).1 (rollback_verdict reprobe).2);
       EvExec (STATUS (CMD cfg)) reprobe;
       EvSleep 2000;
       EvExec (RESTART (CMD cfg)) ExecOk]
  | _ =>
      [EvLog (log_line t
                ("回滚过程异常: " +:+ command_error cfg (RESTART (CMD cfg)) again)
                "ERROR");
       EvExec (RESTART (CMD cfg)) again]
  end.

(** * Properties *)

(** ** The sanitizer *)

Lemma truthy_not_nullish v : Js.truthy v = true -> Js.nullish v = false.
Proof. by destruct v. Qed.

Lemma or_else_not_nullish a b :
  Js.nullish b = false -> Js.nullish (Js.or_else a b) = false.
Proof.
  unfold Js.or_else. destruct (Js.truthy a) eqn:E; auto using truthy_not_nullish.
Qed.

Lemma member_own raw k :
  raw <> Js.VUndefined -> raw <> Js.VNull -> member raw k = Ok (own raw k).
Proof. by destruct raw. Qed.

(** The sanitizer fails exactly on [null] and [undefined]. *)
Lemma cleanConfig_throws raw e :
  cleanConfig raw = Throw e -> raw = Js.VUndefined \/ raw = Js.VNull.
Proof. destruct raw; cbn; intros H; auto; discriminate. Qed.

(** What the sanitizer computes, in closed form. *)
Lemma cleanConfig_shape raw :
  raw <> Js.VUndefined -> raw <> Js.VNull ->
  cleanConfig raw =
    Ok (app [("dns", Js.or_else (own raw "dns") (Js.VObj []));
             ("outbounds", Js.or_else (own raw "outbounds") (Js.VArr []));
             ("route", Js.or_else (own raw "route") (Js.VObj []))]
            (if Js.nullish (own raw "ntp") then [] else [("ntp", own raw "ntp")])).
Proof.
  intros Hu Hn. unfold cleanConfig. rewrite !member_own by done. f_equal.
  cbn. rewrite !or_else_not_nullish by done.
  cbn. rewrite !or_else_not_nullish by done.
  cbn. rewrite !or_else_not_nullish by done.
  cbn. by destruct (Js.nullish (own raw "ntp")).
Qed.

(** C2.  Whatever the pushed document is, the document the sanitizer produces
    has no key outside [dns], [outbounds], [route], [ntp]; in particular none
    of [log], [inbounds], [experimental] is a key of it.  The sanitizer
    produces a document for every input but [null] and [undefined], for which
    reading a property throws. *)
Theorem cleanConfig_only_business_keys (raw : Js.value) :
  match cleanConfig raw with
  | Ok clean =>
      (forall k, In k (Js.keys clean) -> In k business_keys)
      /\ (forall k, In k protected_keys -> ~ In k (Js.keys clean))
  | Throw _ => raw = Js.VUndefined \/ raw = Js.VNull
  end.
Proof.
  destruct (cleanConfig raw) as [clean|e] eqn:H;
    [|by eapply cleanConfig_throws].
  assert (Hk : forall k, In k (Js.keys clean) -> In k business_keys).
  { assert (raw <> Js.VUndefined /\ raw <> Js.VNull) as [Hu Hn]
      by (destruct raw; try discriminate H; split; congruence).
    rewrite cleanConfig_shape in H by done. injection H as <-.
    intros k. cbn. destruct (Js.nullish (own raw "ntp")); cbn; tauto. }
  split; [exact Hk|].
  intros k Hp Hin. apply Hk in Hin. cbn in Hp, Hin.
  intuition (subst; discriminate).
Qed.

Lemma cleanConfig_only_business_keys_witness :
  ~ In "log" (Js.keys [("dns", Js.VObj []); ("outbounds", Js.VArr []);
                       ("route", Js.VObj [])]).
Proof.
  apply (cleanConfig_only_business_keys
           (Js.VObj [("log", Js.VObj [("output", Js.VStr "/dev/sda")]);
                     ("inbounds", Js.VArr []);
                     ("route", Js.VObj [])])).
  simpl. tauto.
Defined.

(** C3, as the code has it.  For every document but [null] and [undefined] the
    sanitizer answers, and in its answer: [dns], [outbounds] and [route] are
    always present, each with the pushed value when that value is truthy and
    with the empty mapping, sequence and mapping otherwise (absent, [null],
    [false], [0], the empty string); [ntp] is copied as it is when present
    and not [null], and is missing when absent or [null]; no section of the
    answer is [null] or [undefined]. *)
Theorem cleanConfig_sections (raw : Js.value) :
  raw <> Js.VUndefined -> raw <> Js.VNull ->
  exists clean,
    cleanConfig raw = Ok clean
    /\ Js.get_prop "dns" clean
       = (if Js.truthy (own raw "dns") then own raw "dns" else Js.VObj [])
    /\ Js.get_prop "outbounds" clean
       = (if Js.truthy (own raw "outbounds") then own raw "outbounds" else Js.VArr [])
    /\ Js.get_prop "route" clean
       = (if Js.truthy (own raw "route") then own raw "route" else Js.VObj [])
    /\ (In "dns" (Js.keys clean) /\ In "outbounds" (Js.keys clean)
        /\ In "route" (Js.keys clean))
    /\ (if Js.nullish (own raw "ntp") then ~ In "ntp" (Js.keys clean)
        else In ("ntp", own raw "ntp") clean)
    /\ (forall k v, In (k, v) clean -> Js.nullish v = false).
Proof.
  intros Hu Hn. eexists. split; [by apply cleanConfig_shape|].
  cbn. repeat split; try tauto.
  - destruct (Js.nullish (own raw "ntp")); cbn; [|tauto].
    intuition discriminate.
  - intros k v. destruct (Js.nullish (own raw "ntp")) eqn:E; cbn;
      intuition (simplify_eq; auto using or_else_not_nullish).
Qed.

Lemma cleanConfig_sections_witness :
  exists clean,
    cleanConfig (Js.VObj [("dns", Js.VNull); ("ntp", Js.VBool false)]) = Ok clean
    /\ Js.get_prop "dns" clean = Js.VObj []
    /\ Js.get_prop "ntp" clean = Js.VBool false.
Proof.
  destruct (cleanConfig_sections
              (Js.VObj [("dns", Js.VNull); ("ntp", Js.VBool false)]))
    as (clean & H & Hdns & _ & _ & _ & Hntp & _); [discriminate..|].
  exists clean. split; [exact H|]. split; [exact Hdns|].
  injection H as <-. reflexivity.
Defined.

(** C3, as stated, fails: an absent [ntp] is not defaulted to an empty
    mapping, it is left out; and a [null] [dns] is not dropped, it is
    replaced by the empty mapping. *)
Lemma cleanConfig_ntp_not_defaulted :
  cleanConfig (Js.VObj [("dns", Js.VNull)])
  = Ok [("dns", Js.VObj []); ("outbounds", Js.VArr []); ("route", Js.VObj [])]
  /\ ~ (forall raw clean k,
          cleanConfig raw = Ok clean -> In k business_keys ->
          (own raw k = Js.VUndefined ->
           Js.get_prop k clean = Js.VObj [] \/ Js.get_prop k clean = Js.VArr [])
          /\ (Js.nullish (own raw k) = true -> ~ In k (Js.keys clean))).
Proof.
  split; [reflexivity|].
  intros H.
  destruct (H (Js.VObj [("dns", Js.VNull)]) _ "ntp" eq_refl) as [Hd _];
    [cbn; tauto|].
  destruct (Hd eq_refl); discriminate.
Qed.

(** ** Frames *)

Lemma quiet_stable {A} p (m : Sync A) : quiet p m -> stable m.
Proof. intros H w. destruct (H w) as (? & ? & _). done. Qed.

Section Frames.

Context (cfg : Config) (env : Env).

Lemma stable_ret {A} (a : A) : stable (retS a).
Proof. done. Qed.

Lemma stable_throw {A} e : stable (@throwS A e).
Proof. done. Qed.

Lemma stable_of_result {A} (r : Result A) : stable (of_result r).
Proof. done. Qed.

Lemma stable_bind {A B} (m : Sync A) (f : A -> Sync B) :
  stable m -> (forall a, stable (f a)) -> stable (bindS m f).
Proof.
  intros Hm Hf w. unfold bindS. specialize (Hm w).
  destruct (m w) as [[a|e] w1]; cbn in *; [|done].
  specialize (Hf a w1). intuition congruence.
Qed.

Lemma stable_try_catch {A} (m : Sync A) h :
  stable m -> (forall e, stable (h e)) -> stable (try_catch m h).
Proof.
  intros Hm Hh w. unfold try_catch. specialize (Hm w).
  destruct (m w) as [[a|e] w1]; cbn in *; [done|].
  specialize (Hh e w1). intuition congruence.
Qed.

Lemma stable_fs_prim {A} op faulted (normal : World -> Result A * FS) :
  stable (fs_prim env op faulted normal).
Proof.
  intros w. unfold fs_prim.
  destruct (fs_fault env (nfs (trace w)) op);
    [destruct (faulted _ w)|destruct (normal w)]; done.
Qed.

Lemma stable_execSync cmd : stable (execSync env cmd).
Proof. done. Qed.

Lemma stable_log msg level : stable (log msg level).
Proof. done. Qed.

Lemma stable_forEach {A} (xs : list A) f :
  (forall x, stable (f x)) -> stable (forEach xs f).
Proof.
  intros Hf. induction xs as [|x r IH]; cbn; [apply stable_ret|].
  apply stable_bind; auto.
Qed.

Lemma stable_mapS {A B} (f : A -> Sync B) xs :
  (forall x, stable (f x)) -> stable (mapS f xs).
Proof.
  intros Hf. induction xs as [|x r IH]; cbn; [apply stable_ret|].
  apply stable_bind; [auto|]. intros y.
  apply stable_bind; [auto|]. intros ys. apply stable_ret.
Qed.

Lemma quiet_ret {A} p (a : A) : quiet p (retS a).
Proof. done. Qed.

Lemma quiet_throw {A} p e : quiet p (@throwS A e).
Proof. done. Qed.

Lemma quiet_bind {A B} p (m : Sync A) (f : A -> Sync B) :
  quiet p m -> (forall a, quiet p (f a)) -> quiet p (bindS m f).
Proof.
  intros Hm Hf w. unfold bindS. specialize (Hm w).
  destruct (m w) as [[a|e] w1]; cbn in *; [|done].
  specialize (Hf a w1). destruct Hm as (? & ? & Hc & ?), Hf as (? & ? & Hc' & ?).
  repeat split; try congruence; intros cmd; by rewrite Hc', Hc.
Qed.

Lemma quiet_try_catch {A} p (m : Sync A) h :
  quiet p m -> (forall e, quiet p (h e)) -> quiet p (try_catch m h).
Proof.
  intros Hm Hh w. unfold try_catch. specialize (Hm w).
  destruct (m w) as [[a|e] w1]; cbn in *; [done|].
  specialize (Hh e w1). destruct Hm as (? & ? & Hc & ?), Hh as (? & ? & Hc' & ?).
  repeat split; try congruence; intros cmd; by rewrite Hc', Hc.
Qed.

Lemma quiet_log p msg level : quiet p (log msg level).
Proof. done. Qed.

Lemma quiet_forEach {A} p (xs : list A) f :
  (forall x, quiet p (f x)) -> quiet p (forEach xs f).
Proof.
  intros Hf. induction xs as [|x r IH]; cbn; [apply quiet_ret|].
  apply quiet_bind; auto.
Qed.

Lemma quiet_mapS {A B} p (f : A -> Sync B) xs :
  (forall x, quiet p (f x)) -> quiet p (mapS f xs).
Proof.
  intros Hf. induction xs as [|x r IH]; cbn; [apply quiet_ret|].
  apply quiet_bind; [auto|]. intros y.
  apply quiet_bind; [auto|]. intros ys. apply quiet_ret.
Qed.

(** A file-system call is quiet about [p] when neither of its outcomes
    changes the file at [p]. *)
Lemma quiet_fs_prim {A} p op faulted (normal : World -> Result A * FS) :
  (forall e w, files (faulted e w).2 !! p = files (fs w) !! p) ->
  (forall w, files (normal w).2 !! p = files (fs w) !! p) ->
  quiet p (fs_prim env op faulted normal).
Proof.
  intros Hf Hn w. unfold fs_prim.
  destruct (fs_fault env (nfs (trace w)) op) as [e|].
  - specialize (Hf e w). by destruct (faulted e w).
  - specialize (Hn w). by destruct (normal w).
Qed.

Lemma quiet_existsSync p q : quiet p (existsSync env q).
Proof. by apply quiet_fs_prim. Qed.

Lemma quiet_mkdirSync p q : quiet p (mkdirSync env q).
Proof. by apply quiet_fs_prim. Qed.

Lemma quiet_readFileSync p q : quiet p (readFileSync env q).
Proof.
  apply quiet_fs_prim; [done|]. intros w.
  destruct (files (fs w) !! q); [done|]. by case_bool_decide.
Qed.

Lemma quiet_readdirSync p q : quiet p (readdirSync env q).
Proof. by apply quiet_fs_prim. Qed.

Lemma quiet_stat_mtime p q : quiet p (stat_mtime env q).
Proof.
  apply quiet_fs_prim; [done|]. intros w.
  destruct (files (fs w) !! q); [done|]. by case_bool_decide.
Qed.

Lemma quiet_writeFileSync p q c : q <> p -> quiet p (writeFileSync env q c).
Proof.
  intros Hq. apply quiet_fs_prim.
  - intros e w. cbn. unfold torn_fs. destruct (fs_torn env _); cbn; [|done].
    by rewrite lookup_insert_ne.
  - intros w. cbn. by rewrite lookup_insert_ne.
Qed.

Lemma quiet_unlinkSync p q : q <> p -> quiet p (unlinkSync env q).
Proof.
  intros Hq. apply quiet_fs_prim; [done|].
  intros w. destruct (files (fs w) !! q); cbn; [|by case_bool_decide].
  by rewrite lookup_delete_ne.
Qed.

Lemma quiet_renameSync p src dst :
  src <> p -> dst <> p -> quiet p (renameSync env src dst).
Proof.
  intros Hs Hd. apply quiet_fs_prim; [done|].
  intros w. destruct (files (fs w) !! src); cbn; [|done].
  by rewrite lookup_insert_ne, lookup_delete_ne.
Qed.

End Frames.

(** ** The file-system calls, outcome by outcome *)

Section Prims.

Context (env : Env).

Lemma fs_prim_fault {A} op faulted (normal : World -> Result A * FS) w e :
  fs_fault env (nfs (trace w)) op = Some e ->
  fs_prim env op faulted normal w
  = ((faulted e w).1, after_fs op (is_ok (faulted e w).1) (faulted e w).2 w).
Proof. intros H. unfold fs_prim. rewrite H. by destruct (faulted e w). Qed.

Lemma fs_prim_normal {A} op faulted (normal : World -> Result A * FS) w :
  fs_fault env (nfs (trace w)) op = None ->
  fs_prim env op faulted normal w
  = ((normal w).1, after_fs op (is_ok (normal w).1) (normal w).2 w).
Proof. intros H. unfold fs_prim. rewrite H. by destruct (normal w). Qed.

Lemma writeFileSync_fault p c w e :
  fs_fault env (nfs (trace w)) (OpWrite p c) = Some e ->
  writeFileSync env p c w
  = (Throw e, after_fs (OpWrite p c) false (torn_fs env p w) w).
Proof. intros H. unfold writeFileSync. by rewrite (fs_prim_fault _ _ _ _ _ H). Qed.

Lemma writeFileSync_ok p c w :
  fs_fault env (nfs (trace w)) (OpWrite p c) = None ->
  writeFileSync env p c w
  = (Ok tt, after_fs (OpWrite p c) true
              (MkFS (<[p := File c (now w)]> (files (fs w))) (dirs (fs w))) w).
Proof. intros H. unfold writeFileSync. by rewrite (fs_prim_normal _ _ _ _ H). Qed.

Lemma renameSync_fault src dst w e :
  fs_fault env (nfs (trace w)) (OpRename src dst) = Some e ->
  renameSync env src dst w = (Throw e, after_fs (OpRename src dst) false (fs w) w).
Proof. intros H. unfold renameSync. by rewrite (fs_prim_fault _ _ _ _ _ H). Qed.

Lemma renameSync_ok src dst w f :
  fs_fault env (nfs (trace w)) (OpRename src dst) = None ->
  files (fs w) !! src = Some f ->
  renameSync env src dst w
  = (Ok tt, after_fs (OpRename src dst) true
              (MkFS (<[dst := f]> (delete src (files (fs w)))) (dirs (fs w))) w).
Proof.
  intros H Hf. unfold renameSync. rewrite (fs_prim_normal _ _ _ _ H).
  by rewrite Hf.
Qed.

Lemma unlinkSync_fault p w e :
  fs_fault env (nfs (trace w)) (OpUnlink p) = Some e ->
  unlinkSync env p w = (Throw e, after_fs (OpUnlink p) false (fs w) w).
Proof. intros H. unfold unlinkSync. by rewrite (fs_prim_fault _ _ _ _ _ H). Qed.

Lemma unlinkSync_ok p w f :
  fs_fault env (nfs (trace w)) (OpUnlink p) = None ->
  files (fs w) !! p = Some f ->
  unlinkSync env p w
  = (Ok tt, after_fs (OpUnlink p) true
              (MkFS (delete p (files (fs w))) (dirs (fs w))) w).
Proof.
  intros H Hf. unfold unlinkSync. rewrite (fs_prim_normal _ _ _ _ H).
  by rewrite Hf.
Qed.

Lemma unlinkSync_missing p w :
  fs_fault env (nfs (trace w)) (OpUnlink p) = None ->
  files (fs w) !! p = None ->
  exists e,
    unlinkSync env p w = (Throw e, after_fs (OpUnlink p) false (fs w) w).
Proof.
  intros H Hf. unfold unlinkSync. rewrite (fs_prim_normal _ _ _ _ H).
  rewrite Hf. case_bool_decide; by eexists.
Qed.

Lemma existsSync_fault p w e :
  fs_fault env (nfs (trace w)) (OpExists p) = Some e ->
  existsSync env p w = (Ok false, after_fs (OpExists p) true (fs w) w).
Proof. intros H. unfold existsSync. by rewrite (fs_prim_fault _ _ _ _ _ H). Qed.

Lemma existsSync_ok p w :
  fs_fault env (nfs (trace w)) (OpExists p) = None ->
  existsSync env p w
  = (Ok (bool_decide (is_Some (files (fs w) !! p)) || bool_decide (p ∈ dirs (fs w))),
     after_fs (OpExists p) true (fs w) w).
Proof. intros H. unfold existsSync. by rewrite (fs_prim_normal _ _ _ _ H). Qed.

End Prims.


(** ** Authentication *)

Lemma bad_credential_spec cfg auth :
  bad_credential cfg auth = false <-> auth = Some ("Bearer " +:+ TOKEN cfg).
Proof.
  unfold bad_credential. split.
  - intros H. apply orb_false_elim in H as [_ H].
    apply negb_false_iff, bool_decide_eq_true in H. exact H.
  - intros ->. rewrite bool_decide_eq_true_2 by done. reflexivity.
Qed.

(** C8.  A request whose [Authorization] header is not exactly
    [Bearer <token>] (or is missing) is answered 401 at once: the call
    completes without suspending, the lock, the file system and the clock are
    as before, and the only thing the process did is print one warning, so no
    file was read or written and no command ran. *)
Theorem deploy_unauthorized (cfg : Config) (env : Env) (req : Request)
    (l : Locals) (w : World) :
  authorization req <> Some ("Bearer " +:+ TOKEN cfg) ->
  exists w',
    deploy cfg env req l w
    = Done (Ok (json 401 [("error", Js.VStr "Unauthorized")])) l w'
    /\ isDeploying w' = isDeploying w
    /\ fs w' = fs w
    /\ now w' = now w
    /\ trace w' = EvLog (log_line (now w) "非法访问尝试" "WARN") :: trace w.
Proof.
  intros H. unfold deploy.
  destruct (bad_credential cfg (authorization req)) eqn:E.
  - eexists. split; [reflexivity|]. done.
  - apply bad_credential_spec in E. contradiction.
Qed.

Lemma deploy_unauthorized_witness :
  exists w',
    deploy CONFIG (Example.env [])
      {| authorization := Some "bearer my_token_123";
         req_body := Js.VObj [("content", Js.VStr "{}")] |}
      {| rollbackContent := None |} Example.installed
    = Done (Ok (json 401 [("error", Js.VStr "Unauthorized")]))
        {| rollbackContent := None |} w'
    /\ fs w' = fs Example.installed.
Proof.
  destruct (deploy_unauthorized CONFIG (Example.env [])
              {| authorization := Some "bearer my_token_123";
                 req_body := Js.VObj [("content", Js.VStr "{}")] |}
              {| rollbackContent := None |} Example.installed)
    as (w' & H & _ & Hfs & _); [discriminate|].
  exists w'. split; [exact H|exact Hfs].
Defined.

(** ** The atomic writer *)

Lemma append_neq_self (s t : string) : t <> "" -> s +:+ t <> s.
Proof.
  intros Ht H. induction s as [|c s IH]; cbn in H; [done|].
  injection H as H. auto.
Qed.

Lemma tempPath_neq filePath t :
  filePath +:+ ".tmp." +:+ Js.string_of_Z t <> filePath.
Proof. by apply append_neq_self. Qed.

Lemma ext_nil (tr : list event) : tr = [] ++ tr.
Proof. reflexivity. Qed.

Lemma ext_cons (e : event) l evs tr : l = evs ++ tr -> e :: l = (e :: evs) ++ tr.
Proof. by intros ->. Qed.

Ltac trace_ext := repeat apply ext_cons; apply ext_nil.

Lemma torn_fs_other env p q w :
  p <> q -> files (torn_fs env p w) !! q = files (fs w) !! q.
Proof.
  intros H. unfold torn_fs. destruct (fs_torn env _); cbn; [|done].
  by rewrite lookup_insert_ne.
Qed.

Ltac obs_step Hs :=
  first
    [ left; cbn; rewrite ?lookup_delete_ne, ?lookup_insert_ne by done;
      solve [auto | exact Hs]
    | right; unfold text_at; cbn; by rewrite lookup_insert_eq ].

Ltac obs Hs :=
  eexists; split; [trace_ext|];
  cbn; repeat (constructor; [obs_step Hs|]); constructor.

(** C4.  [atomicWrite filePath content] never lets [filePath] be seen in an
    intermediate state: in every file system the call leaves behind, one per
    file-system call it makes, the file at [filePath] is the one from before
    the call or holds [content].  When the call returns, [filePath] holds
    [content].  When it throws, [filePath] is as before the call, the error
    is the one of the write or of the rename that failed, and the temporary
    file is gone unless the clean-up itself failed. *)
Theorem atomicWrite_atomic (env : Env) (filePath content : string) (w : World) :
  let tempPath := filePath +:+ ".tmp." +:+ Js.string_of_Z (now w) in
  let r := (atomicWrite env filePath content w).1 in
  let w' := (atomicWrite env filePath content w).2 in
  (exists evs,
      trace w' = evs ++ trace w
      /\ Forall (fun f => files f !! filePath = files (fs w) !! filePath
                          \/ text_at filePath f = Some content)
                (observed evs))
  /\ match r with
     | Ok _ => text_at filePath (fs w') = Some content
     | Throw e =>
         files (fs w') !! filePath = files (fs w) !! filePath
         /\ (fs_fault env (nfs (trace w)) (OpWrite tempPath content) = Some e
             \/ fs_fault env (S (nfs (trace w))) (OpRename tempPath filePath) = Some e)
         /\ (at_most_one_fault env -> files (fs w') !! tempPath = None)
     end.
Proof.
  intros tempPath r w'. subst r w'.
  pose proof (tempPath_neq filePath (now w)) as Hne. fold tempPath in Hne.
  pose proof (torn_fs_other env tempPath filePath w Hne) as Htorn.
  unfold atomicWrite, bindS, try_catch, Date_now. fold tempPath.
  destruct (fs_fault env (nfs (trace w)) (OpWrite tempPath content)) as [e|] eqn:F1.
  - (* the write fails *)
    rewrite (writeFileSync_fault _ _ _ _ _ F1).
    set (w1 := after_fs _ _ _ w).
    destruct (fs_fault env (nfs (trace w1)) (OpExists tempPath)) as [e2|] eqn:F2.
    + rewrite (existsSync_fault _ _ _ _ F2). cbn. split; [obs Htorn|].
      split; [done|]. split; [auto|]. intros H1.
      specialize (H1 _ _ _ _ _ _ F1 F2). unfold nfs in H1; cbn in H1; lia.
    + rewrite (existsSync_ok _ _ _ F2).
      set (w2 := after_fs _ _ _ w1).
      destruct (files (fs w1) !! tempPath) as [ft|] eqn:T.
      * rewrite bool_decide_eq_true_2 by eauto. cbn [orb].
        destruct (fs_fault env (nfs (trace w2)) (OpUnlink tempPath)) as [e3|] eqn:F3.
        -- rewrite (unlinkSync_fault _ _ _ _ F3). cbn. split; [obs Htorn|].
           split; [done|]. split; [auto|]. intros H1.
           specialize (H1 _ _ _ _ _ _ F1 F3). unfold nfs in H1; cbn in H1; lia.
        -- rewrite (unlinkSync_ok _ _ _ ft F3 T). cbn. split; [obs Htorn|].
           rewrite lookup_delete_ne by done. split; [done|]. split; [auto|].
           intros _. by rewrite lookup_delete_eq.
      * destruct (bool_decide (tempPath ∈ dirs (fs w1))) eqn:D.
        -- rewrite bool_decide_eq_false_2 by (by intros [? ?]). cbn [orb].
           destruct (fs_fault env (nfs (trace w2)) (OpUnlink tempPath)) as [e3|] eqn:F3.
           ++ rewrite (unlinkSync_fault _ _ _ _ F3). cbn. split; [obs Htorn|].
              split; [done|]. split; [auto|]. intros _. exact T.
           ++ destruct (unlinkSync_missing env _ _ F3 T) as [e3 ->].
              cbn. split; [obs Htorn|].
              split; [done|]. split; [auto|]. intros _. exact T.
        -- rewrite bool_decide_eq_false_2 by (by intros [? ?]). cbn.
           split; [obs Htorn|]. split; [done|]. split; [auto|]. intros _. exact T.
  - (* the write succeeds *)
    rewrite (writeFileSync_ok _ _ _ _ F1).
    set (w1 := after_fs _ _ _ w).
    assert (T : files (fs w1) !! tempPath = Some (File content (now w)))
      by (cbn; by rewrite lookup_insert_eq).
    assert (Hw1 : files (fs w1) !! filePath = files (fs w) !! filePath)
      by (cbn; by rewrite lookup_insert_ne).
    destruct (fs_fault env (nfs (trace w1)) (OpRename tempPath filePath)) as [e|] eqn:F2.
    + (* the rename fails *)
      rewrite (renameSync_fault _ _ _ _ _ F2).
      set (w2 := after_fs _ _ _ w1).
      destruct (fs_fault env (nfs (trace w2)) (OpExists tempPath)) as [e2|] eqn:F3.
      * rewrite (existsSync_fault _ _ _ _ F3). cbn. split; [obs Hw1|].
        rewrite lookup_insert_ne by done. split; [done|]. split; [auto|].
        intros H1. specialize (H1 _ _ _ _ _ _ F2 F3). unfold nfs in H1; cbn in H1; lia.
      * rewrite (existsSync_ok _ _ _ F3).
        set (w3 := after_fs _ _ _ w2).
        change (fs w2) with (fs w1). rewrite bool_decide_eq_true_2 by eauto.
        cbn [orb].
        destruct (fs_fault env (nfs (trace w3)) (OpUnlink tempPath)) as [e3|] eqn:F4.
        -- rewrite (unlinkSync_fault _ _ _ _ F4). cbn. split; [obs Hw1|].
           rewrite lookup_insert_ne by done. split; [done|]. split; [auto|].
           intros H1. specialize (H1 _ _ _ _ _ _ F2 F4). unfold nfs in H1; cbn in H1; lia.
        -- rewrite (unlinkSync_ok _ _ _ _ F4 T). cbn. split; [obs Hw1|].
           rewrite lookup_delete_ne, lookup_insert_ne by done.
           split; [done|]. split; [auto|]. intros _. by rewrite lookup_delete_eq.
    + (* the rename succeeds *)
      rewrite (renameSync_ok _ _ _ _ _ F2 T). cbn. split; [obs Hw1|].
      unfold text_at. cbn. by rewrite lookup_insert_eq.
Qed.

Lemma one_fault_example : at_most_one_fault (Example.env_with [1%nat] []).
Proof.
  intros n op e n' op' e'. cbn.
  destruct (Nat.eqb_spec n 1), (Nat.eqb_spec n' 1); cbn; congruence.
Qed.

Lemma atomicWrite_atomic_witness :
  let E := Example.env_with [1%nat] [] in
  let w' := (atomicWrite E Example.proxy "{}" Example.installed).2 in
  (atomicWrite E Example.proxy "{}" Example.installed).1 = Throw "EIO: i/o error"
  /\ files (fs w') !! Example.proxy = files (fs Example.installed) !! Example.proxy
  /\ files (fs w') !! (Example.proxy +:+ ".tmp.1793663160123") = None.
Proof.
  intros E w'.
  assert (R : (atomicWrite E Example.proxy "{}" Example.installed).1
              = Throw "EIO: i/o error") by (vm_compute; reflexivity).
  pose proof (atomicWrite_atomic E Example.proxy "{}" Example.installed) as [_ H].
  cbv zeta in H. rewrite R in H. destruct H as (H1 & _ & H3).
  split; [exact R|]. split; [exact H1|].
  exact (H3 one_fault_example).
Defined.

(** ** Running asynchronous code *)

Lemma run_bind {L A B} (x : Async L A) (f : A -> Task L B) :
  run (bindA x f)
  = match run x with
    | (Ok a, l, w) => run (f a l w)
    | (Throw e, l, w) => (Throw e, l, w)
    end.
Proof.
  induction x as [[a|e] l w|ms w k IH]; cbn; [done..|]. apply IH.
Qed.

Lemma run_catch {L A} (x : Async L A) (h : string -> Task L A) :
  run (catchA x h)
  = match run x with
    | (Ok a, l, w) => (Ok a, l, w)
    | (Throw e, l, w) => run (h e l w)
    end.
Proof.
  induction x as [[a|e] l w|ms w k IH]; cbn; [done..|]. apply IH.
Qed.

Lemma run_finally {L A} (x : Async L A) (f : World -> World) :
  run (finallyA x f) = let '(r, l, w) := run x in (r, l, f w).
Proof.
  induction x as [r l w|ms w k IH]; cbn; [done|]. apply IH.
Qed.

Lemma run_lift {L A} (m : Sync A) (l : L) w :
  run (lift m l w) = ((m w).1, l, (m w).2).
Proof. unfold lift. by destruct (m w). Qed.

Lemma run_sleep {L} ms (l : L) w :
  run (sleep ms l w) = (Ok tt, l, set_now (now w + ms) (emit (EvSleep ms) w)).
Proof. reflexivity. Qed.

(** ** The health monitor *)

Lemma intersperse_shift {A} (x : A) (f g : nat -> A) m tr :
  (forall j, g j = f (S j)) ->
  rev (intersperse x (map f (seq 0 (S (S m))))) ++ tr
  = rev (intersperse x (map g (seq 0 (S m)))) ++ x :: f 0%nat :: tr.
Proof.
  intros Hg.
  replace (map g (seq 0 (S m))) with (map f (seq 1 (S m)))
    by (rewrite <- seq_shift, map_map; by apply map_ext).
  cbn [seq map].
  change (intersperse x (f 0%nat :: f 1%nat :: ?r))
    with (f 0%nat :: x :: intersperse x (f 1%nat :: r)).
  cbn [rev]. by rewrite <- !app_assoc.
Qed.

Section Monitor.

Context (cfg : Config) (env : Env).

Local Abbreviation status := (STATUS (CMD cfg)).
Local Abbreviation count := (CHECK_COUNT (HEALTH cfg)).
Local Abbreviation interval := (INTERVAL (HEALTH cfg)).

Lemma nexec_self cmd out tr : nexec cmd (EvExec cmd out :: tr) = S (nexec cmd tr).
Proof. unfold nexec. cbn. by rewrite String.eqb_refl. Qed.

Lemma checkServiceHealth_eq w :
  checkServiceHealth cfg env w
  = (Ok (match exec_out env (nexec status (trace w)) status with
         | ExecOk => true | _ => false end),
     emit (EvExec status (exec_out env (nexec status (trace w)) status)) w).
Proof.
  unfold checkServiceHealth, bindS, execSync.
  by destruct (exec_out env _ status).
Qed.

Lemma monitor_loop_run {L} (l : L) remaining : forall i w k,
  (i + remaining = S count)%nat ->
  (k <= remaining)%nat ->
  (forall j, (j < k)%nat -> exec_out env (nexec status (trace w) + j) status = ExecOk) ->
  ((k < remaining)%nat -> exec_out env (nexec status (trace w) + k) status <> ExecOk) ->
  let probes := if (k <? remaining)%nat then S k else remaining in
  exists w',
    run (monitor_loop cfg env remaining i l w)
    = (if (k <? remaining)%nat then Throw (crash_loop_message (i + k)) else Ok tt, l, w')
    /\ trace w'
       = rev (intersperse (EvSleep interval)
                (map (fun j => EvExec status (exec_out env (nexec status (trace w) + j) status))
                     (seq 0 probes)))
         ++ trace w
    /\ fs w' = fs w
    /\ isDeploying w' = isDeploying w
    /\ now w' = now w + interval * Z.of_nat (pred probes).
Proof.
  induction remaining as [|rem IH]; intros i w k Hi Hk Hok Hbad probes.
  - assert (k = 0)%nat as -> by lia. subst probes. cbn.
    eexists. split; [reflexivity|]. cbn. repeat split; lia.
  - cbn [monitor_loop]. unfold bindT. rewrite run_bind, run_lift.
    rewrite checkServiceHealth_eq. cbn [fst snd].
    destruct k as [|k].
    + (* the first probe fails *)
      specialize (Hbad ltac:(lia)). rewrite Nat.add_0_r in Hbad.
      subst probes. cbn [Nat.ltb Nat.leb].
      destruct (exec_out env (nexec status (trace w)) status) eqn:E; [done|..];
        cbn; rewrite !Nat.add_0_r, E;
        (eexists; split; [reflexivity|]; cbn; repeat split; lia).
    + pose proof (Hok 0%nat ltac:(lia)) as H0. rewrite Nat.add_0_r in H0.
      rewrite H0. cbn [negb].
      set (w1 := emit _ w).
      assert (Hn1 : nexec status (trace w1) = S (nexec status (trace w)))
        by apply nexec_self.
      rewrite run_bind.
      destruct rem as [|rem].
      * (* it was the last probe *)
        assert (k = 0)%nat as -> by lia.
        assert (i = count) as -> by lia.
        rewrite Nat.ltb_irrefl. cbn.
        subst probes. cbn. rewrite !Nat.add_0_r, H0.
        eexists. split; [reflexivity|]. cbn. repeat split; lia.
      * assert ((i <? count)%nat = true) as -> by (apply Nat.ltb_lt; lia).
        rewrite run_sleep.
        set (w2 := set_now _ _).
        destruct (IH (S i) w2 k) as (w' & Hrun & Htr & Hfs & Hlock & Hnow);
          [lia|lia|..].
        { intros j Hj. change (trace w2) with (EvSleep interval :: trace w1).
          replace (nexec status (EvSleep interval :: trace w1) + j)%nat
            with (nexec status (trace w) + S j)%nat
            by (change (nexec status (EvSleep interval :: trace w1))
                  with (nexec status (trace w1)); lia).
          apply Hok. lia. }
        { intros Hlt. change (trace w2) with (EvSleep interval :: trace w1).
          replace (nexec status (EvSleep interval :: trace w1) + k)%nat
            with (nexec status (trace w) + S k)%nat
            by (change (nexec status (EvSleep interval :: trace w1))
                  with (nexec status (trace w1)); lia).
          apply Hbad. lia. }
        exists w'. rewrite Hrun.
        replace (S i + k)%nat with (i + S k)%nat by lia.
        change (S k <? S (S rem))%nat with (k <? S rem)%nat.
        split; [done|]. rewrite Htr, Hfs, Hlock, Hnow.
        subst probes.
        change (S k <? S (S rem))%nat with (k <? S rem)%nat.
        assert (Hm : exists m, (if (k <? S rem)%nat then S k else S rem) = S m)
          by (destruct (k <? S rem)%nat; eauto).
        destruct Hm as [m Hm].
        replace (if (k <? S rem)%nat then S (S k) else S (S rem))
          with (S (if (k <? S rem)%nat then S k else S rem))
          by (by destruct (k <? S rem)%nat).
        rewrite Hm.
        rewrite (intersperse_shift _ _
                   (fun j => EvExec status
                               (exec_out env (nexec status (trace w2) + j) status))).
        2:{ intros j. do 2 f_equal.
            change (nexec status (trace w2)) with (nexec status (trace w1)). lia. }
        rewrite Nat.add_0_r, H0.
        repeat split; try done. cbn [pred]. subst w2 w1. cbn. lia.
Qed.

(** [String(n)] is the decimal numeral of [n]. *)
Lemma decimal_string_of_Z z : decimal (Js.string_of_Z z) = Some z.
Proof.
  unfold decimal, Js.string_of_Z.
  assert (Hnil : forall d, Z.to_int z = d -> Z.of_int d = 0 -> z = 0)
    by (intros d <-; by rewrite DecimalZ.of_to).
  rewrite NilZero.isi.
  - cbn. by rewrite DecimalZ.of_to.
  - intros E. specialize (Hnil _ E eq_refl). by subst z.
  - intros E. specialize (Hnil _ E eq_refl). by subst z.
Qed.

(** C6.  The monitor first suspends for the initial delay.  Let [k] be the
    number of probes that find the daemon running before the first one that
    does not, counted up to [CHECK_COUNT].  If [k] is below [CHECK_COUNT], the
    monitor throws at probe [k + 1] and has run exactly [k + 1] probes; its
    message names that probe: it is [服务在启动后第 n 次轮询时发现已停止
    (CrashLoop)] where [n] is the decimal numeral of [k + 1].  Otherwise the
    monitor returns after exactly [CHECK_COUNT] probes.  Either way the
    process did this and nothing else: the initial wait, then the probes
    with one wait of [INTERVAL] between two consecutive ones. *)
Theorem healthMonitor_schedule {L} (l : L) (w : World) (k : nat) :
  let outcome j := exec_out env (nexec status (trace w) + j) status in
  let probes := if (k <? count)%nat then S k else count in
  let ordinal := Js.string_of_Z (Z.of_nat (S k)) in
  (k <= count)%nat ->
  (forall j, (j < k)%nat -> outcome j = ExecOk) ->
  ((k < count)%nat -> outcome k <> ExecOk) ->
  (exists resume,
      healthMonitor cfg env l w
      = Suspend (INITIAL_DELAY (HEALTH cfg))
          (emit (EvSleep (INITIAL_DELAY (HEALTH cfg))) w) resume)
  /\ decimal ordinal = Some (Z.of_nat (S k))
  /\ exists w',
      run (healthMonitor cfg env l w)
      = (if (k <? count)%nat
         then Throw ("服务在启动后第 " +:+ ordinal +:+ " 次轮询时发现已停止 (CrashLoop)")
         else Ok tt, l, w')
      /\ trace w'
         = rev (EvSleep (INITIAL_DELAY (HEALTH cfg))
                :: intersperse (EvSleep interval)
                     (map (fun j => EvExec status (outcome j)) (seq 0 probes)))
           ++ trace w
      /\ fs w' = fs w
      /\ isDeploying w' = isDeploying w
      /\ now w' = now w + INITIAL_DELAY (HEALTH cfg) + interval * Z.of_nat (pred probes).
Proof.
  intros outcome probes ordinal Hk Hok Hbad. split; [by eexists|].
  split; [apply decimal_string_of_Z|].
  unfold healthMonitor, bindT. rewrite run_bind, run_sleep.
  set (w1 := set_now _ _).
  destruct (monitor_loop_run l count 1 w1 k) as (w' & Hrun & Htr & Hfs & Hlock & Hnow);
    [lia|lia|exact Hok|exact Hbad|].
  exists w'. rewrite Hrun. split; [done|].
  rewrite Htr, Hfs, Hlock, Hnow. cbn [rev]. rewrite <- app_assoc.
  repeat split; try done; subst w1; cbn; lia.
Qed.

End Monitor.

Lemma healthMonitor_schedule_witness :
  let E := Example.env [("rc-service sing-box status", 1%nat)] in
  exists w',
    run (healthMonitor CONFIG E tt Example.installed)
    = (Throw "服务在启动后第 2 次轮询时发现已停止 (CrashLoop)", tt, w')
    /\ now w' = now Example.installed + 1500 + 1000 * 1.
Proof.
  intros E.
  destruct (healthMonitor_schedule CONFIG E tt Example.installed 1)
    as (_ & _ & w' & H & _ & _ & _ & Hn).
  - cbn. lia.
  - intros j Hj. assert (j = 0)%nat as -> by lia. vm_compute. reflexivity.
  - intros _. vm_compute. discriminate.
  - exists w'. split; [exact H|exact Hn].
Defined.

(** ** The lock *)

Section Lock.

Context (cfg : Config) (env : Env).

Lemma stable_Date_now : stable Date_now.
Proof. done. Qed.

Ltac stable_step :=
  first
    [ apply stable_bind | apply stable_try_catch | apply stable_fs_prim
    | apply stable_ret | apply stable_throw | apply stable_log
    | apply stable_execSync | apply stable_of_result | apply stable_Date_now
    | apply stable_forEach | apply stable_mapS
    | match goal with
      | |- forall _, _ => intro
      | |- stable (if ?b then _ else _) => destruct b
      | |- stable (match ?x with _ => _ end) => destruct x
      end ].

Lemma stable_atomicWrite p c : stable (atomicWrite env p c).
Proof.
  unfold atomicWrite, writeFileSync, renameSync, existsSync, unlinkSync.
  repeat stable_step.
Qed.

Lemma stable_runCmd cmd : stable (runCmd cfg env cmd).
Proof. unfold runCmd. repeat stable_step. Qed.

Lemma stable_checkServiceHealth : stable (checkServiceHealth cfg env).
Proof. unfold checkServiceHealth. repeat stable_step. Qed.

Lemma stable_ensureSystemConfig : stable (ensureSystemConfig cfg env).
Proof.
  unfold ensureSystemConfig, existsSync, mkdirSync.
  repeat first [apply stable_atomicWrite | stable_step].
Qed.

Lemma stable_rotateBackups c : stable (rotateBackups cfg env c).
Proof.
  unfold rotateBackups, prune, existsSync, mkdirSync, writeFileSync,
    readdirSync, stat_mtime, unlinkSync.
  repeat stable_step.
Qed.

Lemma stable_decryptAndParse v : stable (decryptAndParse cfg env v).
Proof. unfold decryptAndParse. repeat stable_step. Qed.

Lemma keeps_bind {L A B} b (x : Async L A) (f : A -> Task L B) :
  keeps b x -> (forall a, task_keeps (f a)) -> keeps b (bindA x f).
Proof.
  intros Hx Hf. induction Hx as [[a|e] l w Hw|ms w k Hw Hk IH]; cbn.
  - by apply Hf.
  - by constructor.
  - constructor; auto.
Qed.

Lemma keeps_catch {L A} b (x : Async L A) (h : string -> Task L A) :
  keeps b x -> (forall e, task_keeps (h e)) -> keeps b (catchA x h).
Proof.
  intros Hx Hh. induction Hx as [[a|e] l w Hw|ms w k Hw Hk IH]; cbn.
  - by constructor.
  - by apply Hh.
  - constructor; auto.
Qed.

Lemma task_keeps_bind {L A B} (m : Task L A) (f : A -> Task L B) :
  task_keeps m -> (forall a, task_keeps (f a)) -> task_keeps (bindT m f).
Proof. intros Hm Hf b l w Hw. apply keeps_bind; auto. Qed.

Lemma task_keeps_tryCatch {L A} (m : Task L A) h :
  task_keeps m -> (forall e, task_keeps (h e)) -> task_keeps (tryCatch m h).
Proof. intros Hm Hh b l w Hw. apply keeps_catch; auto. Qed.

Lemma task_keeps_lift {L A} (m : Sync A) : stable m -> task_keeps (@lift L A m).
Proof.
  intros Hm b l w Hw. unfold lift. specialize (Hm w).
  destruct (m w) as [r w1]. constructor. cbn in Hm. intuition congruence.
Qed.

Lemma task_keeps_ret {L A} (a : A) : task_keeps (@retT L A a).
Proof. intros b l w Hw. by constructor. Qed.

Lemma task_keeps_throw {L A} e : task_keeps (@throwT L A e).
Proof. intros b l w Hw. by constructor. Qed.

Lemma task_keeps_get_local {L} : task_keeps (@get_local L).
Proof. intros b l w Hw. by constructor. Qed.

Lemma task_keeps_set_local {L} (l' : L) : task_keeps (set_local l').
Proof. intros b l w Hw. by constructor. Qed.

Lemma task_keeps_sleep {L} ms : task_keeps (@sleep L ms).
Proof.
  intros b l w Hw. constructor; [done|]. intros w' Hw'. by constructor.
Qed.

Ltac keeps_step :=
  first
    [ apply task_keeps_bind | apply task_keeps_tryCatch | apply task_keeps_ret
    | apply task_keeps_throw | apply task_keeps_get_local
    | apply task_keeps_set_local | apply task_keeps_sleep
    | apply task_keeps_lift
    | apply stable_log | apply stable_atomicWrite | apply stable_runCmd
    | apply stable_checkServiceHealth | apply stable_ensureSystemConfig
    | apply stable_rotateBackups | apply stable_decryptAndParse
    | apply stable_of_result | apply stable_try_catch | apply stable_fs_prim
    | apply stable_ret
    | match goal with
      | |- forall _, _ => intro
      | |- task_keeps (if ?b then _ else _) => destruct b
      | |- stable (if ?b then _ else _) => destruct b
      end ].

Lemma task_keeps_monitor_loop {L} remaining :
  forall i, task_keeps (@monitor_loop cfg env L remaining i).
Proof.
  induction remaining as [|rem IH]; intros i; cbn [monitor_loop].
  - apply task_keeps_ret.
  - apply task_keeps_bind; [repeat keeps_step|]. intros healthy.
    destruct (negb healthy); [apply task_keeps_throw|].
    apply task_keeps_bind; [repeat keeps_step|]. intros _. apply IH.
Qed.

Lemma task_keeps_deploy_try req : task_keeps (deploy_try cfg env req).
Proof.
  unfold deploy_try, healthMonitor, existsSync, readFileSync.
  repeat first [apply task_keeps_monitor_loop | keeps_step].
Qed.

Lemma task_keeps_deploy_catch e : task_keeps (deploy_catch cfg env e).
Proof.
  unfold deploy_catch, existsSync, unlinkSync.
  repeat keeps_step.
Qed.

Lemma finally_releases {L A} (x : Async L A) :
  keeps true x -> releases (finallyA x (set_isDeploying false)).
Proof.
  intros Hx. induction Hx as [r l w Hw|ms w k Hw Hk IH]; cbn.
  - by constructor.
  - constructor; auto.
Qed.

(** An admitted call holds the lock until it completes. *)
Lemma deploy_admitted_releases req l w :
  bad_credential cfg (authorization req) = false ->
  isDeploying w = false ->
  releases (deploy cfg env req l w).
Proof.
  intros Ha Hw. unfold deploy. rewrite Ha, Hw.
  apply finally_releases. apply keeps_catch.
  - by apply task_keeps_deploy_try.
  - apply task_keeps_deploy_catch.
Qed.


Lemma always_any {L A} (x : Async L A) : always (fun _ => True) x.
Proof. induction x; by constructor. Qed.

Lemma always_mono {L A} (P Q : Result A -> Prop) (x : Async L A) :
  (forall r, P r -> Q r) -> always P x -> always Q x.
Proof. intros H Hx. induction Hx; constructor; auto. Qed.

Lemma always_bind {L A B} (P : Result A -> Prop) (Q : Result B -> Prop)
    (x : Async L A) (f : A -> Task L B) :
  always P x ->
  (forall a, P (Ok a) -> forall l w, always Q (f a l w)) ->
  (forall e, P (Throw e) -> Q (Throw e)) ->
  always Q (bindA x f).
Proof.
  intros Hx Hf He. induction Hx as [[a|e] l w Hr|ms w k Hk IH]; cbn.
  - by apply Hf.
  - constructor. by apply He.
  - constructor. auto.
Qed.

Lemma always_catch {L A} (P Q : Result A -> Prop) (x : Async L A) h :
  always P x ->
  (forall a, P (Ok a) -> Q (Ok a)) ->
  (forall e l w, always Q (h e l w)) ->
  always Q (catchA x h).
Proof.
  intros Hx Hok Hh. induction Hx as [[a|e] l w Hr|ms w k Hk IH]; cbn.
  - constructor. by apply Hok.
  - apply Hh.
  - constructor. auto.
Qed.

Lemma always_finally {L A} (P : Result A -> Prop) (x : Async L A) f :
  always P x -> always P (finallyA x f).
Proof. intros Hx. induction Hx; cbn; constructor; auto. Qed.

Lemma always_log {L} msg level (l : L) w :
  always (fun r => r = Ok tt) (lift (log msg level) l w).
Proof. by constructor. Qed.

(** The [try] block answers 200 or throws. *)
Lemma deploy_try_answers req l w :
  always (fun r => r = Ok deployed \/ exists e, r = Throw e)
    (deploy_try cfg env req l w).
Proof.
  unfold deploy_try.
  repeat (eapply always_bind; [apply always_any| |by eauto]; intros; clear).
  constructor. by left.
Qed.

(** The [catch] block answers 500 with the message of the error it caught. *)
Lemma deploy_catch_answers e l w :
  always (fun r => r = Ok (failed e)) (deploy_catch cfg env e l w).
Proof.
  unfold deploy_catch, bindT.
  eapply always_bind; [apply always_log| |intros ? [=]]. intros _ _ l1 w1.
  eapply always_bind with (P := fun r => r = Ok tt); [| |intros ? [=]].
  - eapply always_catch with (P := fun _ => True).
    + apply always_any.
    + by intros [].
    + intros. apply always_log.
  - intros. by constructor.
Qed.

(** An admitted call answers 200, or 500 with the error that stopped it; it
    never throws and never answers that the server is busy. *)
Lemma deploy_admitted_answers req l w :
  bad_credential cfg (authorization req) = false ->
  isDeploying w = false ->
  always (fun r => r = Ok deployed \/ exists e, r = Ok (failed e))
    (deploy cfg env req l w).
Proof.
  intros Ha Hw. unfold deploy. rewrite Ha, Hw.
  apply always_finally.
  eapply always_catch; [apply deploy_try_answers| |].
  - intros a [H|[e H]]; [by left|discriminate].
  - intros e l1 w1. eapply always_mono; [|apply deploy_catch_answers].
    intros r ->. eauto.
Qed.

End Lock.

(** ** Single flight *)

Section SingleFlight.

Context (cfg : Config) (env : Env).

Lemma settle_releases (x : Async Locals Response) :
  releases x ->
  match settle x [] with
  | (s, Some _) => Idle s
  | (s, None) => Deploying s
  end.
Proof.
  intros [r l w Hw|ms w k Hw Hk]; cbn.
  - done.
  - split; [done|]. eauto.
Qed.

Lemma stable_health : stable (health cfg env).
Proof.
  unfold health. apply stable_bind; [apply stable_checkServiceHealth|].
  intros []; apply stable_ret.
Qed.

(** A request that finds the lock taken is answered at once and changes
    nothing at all. *)
Lemma step_busy (s : Server) req :
  isDeploying (world s) = true ->
  authorization req = Some ("Bearer " +:+ TOKEN cfg) ->
  step cfg env (PostDeploy req) s = (s, Some (Ok busy)).
Proof.
  intros Hl Ha. apply (bad_credential_spec cfg) in Ha.
  unfold step, handle_deploy, deploy. rewrite Ha, Hl. cbn. by destruct s.
Qed.

(** Each callback takes the server from one of its two states to one of its
    two states; the callback in which the deployment in flight answers
    leaves it idle. *)
Lemma step_states (i : input) (s : Server) :
  Idle s \/ Deploying s ->
  (Idle (step cfg env i s).1 \/ Deploying (step cfg env i s).1)
  /\ (forall j, i = Fire j -> is_Some (step cfg env i s).2 -> Idle (step cfg env i s).1).
Proof.
  intros Hs. destruct i as [req| |j].
  - (* a request to /deploy *)
    split; [|discriminate]. cbn [step]. unfold handle_deploy.
    destruct (bad_credential cfg (authorization req)) eqn:Ha.
    + (* unauthorized *)
      unfold deploy. rewrite Ha. cbn.
      destruct Hs as [[Hl Ht]|[Hl Ht]]; [left|right]; by split.
    + destruct (isDeploying (world s)) eqn:Hl.
      * (* busy *)
        unfold deploy. rewrite Ha, Hl. cbn.
        destruct Hs as [[Hl' Ht]|[Hl' Ht]]; [congruence|]. right. by split.
      * (* admitted *)
        destruct Hs as [[_ Ht]|[Hl' _]]; [|congruence]. rewrite Ht.
        pose proof (deploy_admitted_releases cfg env req
                      {| rollbackContent := None |} (world s) Ha Hl) as Hr.
        apply settle_releases in Hr.
        destruct (settle _ []) as [s' [r|]]; auto.
  - (* a request to /health *)
    split; [|discriminate]. cbn [step].
    pose proof (stable_health (world s)) as [Hl _].
    destruct (health cfg env (world s)) as [r w']. cbn in *.
    destruct Hs as [[Hl' Ht]|[Hl' Ht]]; [left|right]; (split; cbn; [congruence|done]).
  - (* a timer fires *)
    cbn [step]. destruct Hs as [[Hl Ht]|[Hl (due & k & Ht & Hk)]].
    + rewrite Ht. cbn. split; [left; by split|]. by intros ? _ [? [=]].
    + rewrite Ht. destruct j as [|j]; cbn.
      * assert (Hr : releases (k (set_now (Z.max (now (world s)) due) (world s))))
          by (by apply Hk).
        apply settle_releases in Hr.
        destruct (settle _ []) as [s' [r|]]; cbn; [auto|].
        split; [auto|]. by intros ? _ [? [=]].
      * split; [right; split; eauto|]. by intros ? _ [? [=]].
Qed.

Lemma steps_states (ins : list input) : forall s,
  Idle s \/ Deploying s ->
  Idle (steps cfg env ins s).1 \/ Deploying (steps cfg env ins s).1.
Proof.
  induction ins as [|i r IH]; intros s Hs; cbn; [done|].
  pose proof (step_states i s Hs) as [H _].
  destruct (step cfg env i s) as [s' o]. specialize (IH s' H).
  by destruct (steps cfg env r s').
Qed.

(** C7.  From an idle server and through any sequence of requests and timer
    callbacks: at most one deployment is in flight, and the lock is taken
    exactly when there is one; an authenticated request that arrives while
    one is in flight is answered busy at once and changes neither the file
    system nor the lock nor anything else; the callback in which the
    deployment in flight answers, whatever the answer, leaves the server
    idle; and an idle server does not answer busy, it admits the request
    and answers 200 or 500 if the call completes at once. *)
Theorem single_flight (ins : list input) (s0 : Server) :
  Idle s0 ->
  let s := (steps cfg env ins s0).1 in
  (deploying s <= 1)%nat
  /\ (isDeploying (world s) = true <-> deploying s = 1%nat)
  /\ (forall req,
        deploying s = 1%nat ->
        authorization req = Some ("Bearer " +:+ TOKEN cfg) ->
        step cfg env (PostDeploy req) s = (s, Some (Ok busy)))
  /\ (forall j r,
        (step cfg env (Fire j) s).2 = Some r ->
        Idle (step cfg env (Fire j) s).1)
  /\ (forall req,
        deploying s = 0%nat ->
        authorization req = Some ("Bearer " +:+ TOKEN cfg) ->
        match step cfg env (PostDeploy req) s with
        | (s', Some r) => Idle s' /\ (r = Ok deployed \/ exists e, r = Ok (failed e))
        | (s', None) => Deploying s'
        end).
Proof.
  intros H0 s.
  assert (Hs : Idle s \/ Deploying s) by (apply steps_states; auto).
  assert (Hd : (deploying s <= 1)%nat
               /\ (isDeploying (world s) = true <-> deploying s = 1%nat)).
  { unfold deploying.
    destruct Hs as [[Hl Ht]|[Hl (due & k & Ht & _)]]; rewrite Hl, Ht; cbn;
      split; try lia; split; congruence. }
  destruct Hd as [Hd1 Hd2]. split; [done|]. split; [done|].
  split; [|split].
  - intros req Hone Ha. apply step_busy; [by apply Hd2|done].
  - intros j r Hr. by apply (step_states (Fire j) s Hs) with j.
  - intros req Hzero Ha.
    destruct Hs as [[Hl Ht]|[Hl _]]; [|apply Hd2 in Hl; lia].
    apply (bad_credential_spec cfg) in Ha.
    cbn [step]. rewrite Ht.
    pose proof (deploy_admitted_releases cfg env req
                  {| rollbackContent := None |} (world s) Ha Hl) as Hr.
    pose proof (deploy_admitted_answers cfg env req
                  {| rollbackContent := None |} (world s) Ha Hl) as Hans.
    unfold handle_deploy.
    destruct Hr as [r l w Hw|ms w k Hw Hk]; cbn.
    + split; [done|]. by inversion Hans.
    + split; [done|]. eauto.
Qed.

End SingleFlight.

Lemma single_flight_witness :
  let E := Example.env [] in
  let req := Example.request (Js.VStr "{}") in
  let s0 := {| world := Example.installed; timers := [] |} in
  let s := (steps CONFIG E [PostDeploy req] s0).1 in
  Idle s0
  /\ deploying s = 1%nat
  /\ step CONFIG E (PostDeploy req) s = (s, Some (Ok busy)).
Proof.
  intros E req s0 s.
  assert (H0 : Idle s0) by done.
  assert (H1 : deploying s = 1%nat) by (vm_compute; reflexivity).
  destruct (single_flight CONFIG E [PostDeploy req] s0 H0) as (_ & _ & H & _).
  split; [exact H0|]. split; [exact H1|].
  apply H; [exact H1|reflexivity].
Defined.

(** ** Paths *)

Lemma append_cons c a b : String c a +:+ b = String c (a +:+ b).
Proof. reflexivity. Qed.

Lemma append_nil_l s : "" +:+ s = s.
Proof. reflexivity. Qed.

Lemma strip_prefix_spec pre s r :
  Path.strip_prefix pre s = Some r <-> s = pre +:+ r.
Proof.
  revert s. induction pre as [|a pre IH]; intros s; cbn.
  - rewrite append_nil_l. split; [by intros [= ->]|by intros ->].
  - rewrite append_cons. destruct s as [|b s]; [split; discriminate|].
    destruct (Ascii.eqb_spec a b) as [->|Hne].
    + rewrite IH. split; [by intros ->|by intros [= ->]].
    + split; [discriminate|]. intros [= ? ?]. done.
Qed.

Lemma append_assoc (a b c : string) : (a +:+ b) +:+ c = a +:+ (b +:+ c).
Proof. induction a as [|x a IH]; [done|]. rewrite !append_cons. by f_equal. Qed.

Lemma append_inj_l (a b c : string) : a +:+ b = a +:+ c -> b = c.
Proof. apply (inj (String.append a)). Qed.

Lemma join_inj dir n n' : Path.join dir n = Path.join dir n' -> n = n'.
Proof.
  unfold Path.join. intros H. apply append_inj_l in H. by apply append_inj_l in H.
Qed.

Lemma entry_of_spec dir p n :
  Path.entry_of dir p = Some n
  <-> p = Path.join dir n /\ Path.has_slash n = false /\ n <> "".
Proof.
  unfold Path.entry_of, Path.join.
  destruct (Path.strip_prefix (dir +:+ "/") p) as [r|] eqn:E.
  - apply strip_prefix_spec in E. rewrite append_assoc in E. subst p.
    destruct (Path.has_slash r) eqn:Hs; cbn.
    + split; [discriminate|]. intros (H & Hn & _).
      do 2 apply append_inj_l in H. congruence.
    + destruct (String.eqb_spec r "") as [->|Hr].
      * split; [discriminate|]. intros (H & _ & Hn).
        do 2 apply append_inj_l in H. congruence.
      * split.
        -- intros [= <-]. done.
        -- intros (H & _). do 2 apply append_inj_l in H. by subst.
  - split; [discriminate|]. intros (-> & _).
    assert (H : Path.strip_prefix (dir +:+ "/") (dir +:+ "/" +:+ n) = Some n).
    { apply strip_prefix_spec. by rewrite append_assoc. }
    congruence.
Qed.

Section BackupLemmas.

Context (cfg : Config).

Local Abbreviation dir := (BACKUP_DIR cfg).

Lemma elem_of_backup_names m n :
  n ∈ backup_names cfg m
  <-> valid_name n /\ is_Some (m !! Path.join dir n).
Proof.
  unfold backup_names, valid_name.
  rewrite list_elem_of_In, filter_In, <- list_elem_of_In, list_elem_of_omap.
  split.
  - intros [(p & Hp & He) Hb]. apply entry_of_spec in He as (-> & Hs & Hn).
    apply list_elem_of_fmap in Hp as ([p fl] & Hp & Hin). cbn in Hp. subst p.
    apply elem_of_map_to_list in Hin. eauto.
  - intros [(Hb & Hs & Hn) [fl Hfl]]. split; [|done].
    exists (Path.join dir n). split; [|by apply entry_of_spec].
    apply list_elem_of_fmap. exists (Path.join dir n, fl). split; [done|].
    by apply elem_of_map_to_list.
Qed.

Lemma NoDup_omap_inj {A B} (f : A -> option B) (l : list A) :
  (forall x y z, f x = Some z -> f y = Some z -> x = y) ->
  NoDup l -> NoDup (omap f l).
Proof.
  intros Hf. induction 1 as [|x l Hx Hl IH]; cbn; [constructor|].
  destruct (f x) as [z|] eqn:E; [|done]. constructor; [|done].
  rewrite list_elem_of_omap. intros (y & Hy & Hfy).
  assert (x = y) by eauto. by subst.
Qed.

Lemma NoDup_List_filter {A} (P : A -> bool) (l : list A) :
  NoDup l -> NoDup (List.filter P l).
Proof.
  induction 1 as [|x l Hx Hl IH]; cbn; [constructor|].
  destruct (P x); [|done]. constructor; [|done].
  rewrite list_elem_of_In, filter_In, <- list_elem_of_In. tauto.
Qed.

Lemma NoDup_backup_names m : NoDup (backup_names cfg m).
Proof.
  unfold backup_names. apply NoDup_List_filter, NoDup_omap_inj.
  - intros p q n Hp Hq. apply entry_of_spec in Hp as [-> _].
    by apply entry_of_spec in Hq as [-> _].
  - apply NoDup_fst_map_to_list.
Qed.


Lemma backups_names m : (backups cfg m).*1 = backup_names cfg m.
Proof.
  unfold backups. induction (backup_names cfg m) as [|n l IH]; cbn; [done|].
  by f_equal.
Qed.

Lemma backups_of_files m :
  backups cfg m = map (fun nf => (nf.1, mtime nf.2)) (backup_files cfg m).
Proof.
  unfold backups, backup_files.
  assert (H : forall n, n ∈ backup_names cfg m -> is_Some (m !! Path.join dir n))
    by (intros n Hn; by apply elem_of_backup_names in Hn as [_ ?]).
  induction (backup_names cfg m) as [|n l IH]; cbn; [done|].
  destruct (H n) as [fl Hfl]; [by left|]. rewrite Hfl. cbn. f_equal.
  apply IH. intros n' Hn'. apply H. by right.
Qed.

Lemma elem_of_backup_files m n fl :
  (n, fl) ∈ backup_files cfg m
  <-> valid_name n /\ m !! Path.join dir n = Some fl.
Proof.
  unfold backup_files. rewrite list_elem_of_omap. split.
  - intros (n' & Hn' & H). destruct (m !! Path.join dir n') eqn:E; [|done].
    cbn in H. injection H as <- <-.
    apply elem_of_backup_names in Hn' as [? _]. done.
  - intros [Hv Hfl]. exists n. rewrite Hfl. split; [|done].
    apply elem_of_backup_names. eauto.
Qed.

Lemma NoDup_backup_files m : NoDup (backup_files cfg m).
Proof.
  unfold backup_files. apply NoDup_omap_inj; [|apply NoDup_backup_names].
  intros n n' [x fl] H H'.
  destruct (m !! Path.join dir n); [|done].
  destruct (m !! Path.join dir n'); [|done].
  cbn in *. congruence.
Qed.

End BackupLemmas.

(** ** The sort *)

Lemma insert_desc_Permutation x l : insert_desc x l ≡ₚ x :: l.
Proof.
  induction l as [|y r IH]; cbn; [done|].
  destruct (y.2 <=? x.2); [done|]. rewrite IH. apply Permutation_swap.
Qed.

Lemma sort_desc_Permutation l : sort_desc l ≡ₚ l.
Proof.
  induction l as [|x r IH]; cbn; [done|].
  by rewrite insert_desc_Permutation, IH.
Qed.

Lemma insert_desc_sorted x l :
  StronglySorted (fun a b : string * Z => b.2 <= a.2) l ->
  StronglySorted (fun a b : string * Z => b.2 <= a.2) (insert_desc x l).
Proof.
  induction 1 as [|y r Hr IH Hy]; cbn.
  - repeat constructor.
  - destruct (Z.leb_spec y.2 x.2) as [Hle|Hlt].
    + constructor; [by constructor|]. constructor; [done|].
      eapply Forall_impl; [exact Hy|]. cbn. intros z Hz. lia.
    + constructor; [done|].
      rewrite insert_desc_Permutation. constructor; [lia|done].
Qed.

Lemma sort_desc_sorted l :
  StronglySorted (fun a b : string * Z => b.2 <= a.2) (sort_desc l).
Proof.
  induction l as [|x r IH]; cbn; [constructor|]. by apply insert_desc_sorted.
Qed.

(** A list is its own sort, newest first reversed, when its times increase
    strictly: the sort of any permutation of it is its reversal. *)
Lemma sort_desc_unique (l k : list (string * Z)) :
  l ≡ₚ k ->
  StronglySorted (fun a b : string * Z => a.2 < b.2) k ->
  sort_desc l = rev k.
Proof.
  intros Hp Hk.
  assert (Hrev : StronglySorted (fun a b : string * Z => b.2 < a.2) (rev k)).
  { clear Hp. induction Hk as [|x r Hr IH Hx]; cbn; [constructor|].
    apply StronglySorted_app_2; [|done|repeat constructor].
    intros a b Ha Hb. apply list_elem_of_singleton in Hb as ->.
    rewrite Forall_forall in Hx. apply Hx.
    by rewrite list_elem_of_In, in_rev, <- list_elem_of_In. }
  apply (StronglySorted_unique_strong (fun a b : string * Z => b.2 <= a.2)).
  - intros a b Ha Hb H1 H2.
    assert (Heq : a.2 = b.2) by lia.
    rewrite sort_desc_Permutation, Hp in Ha.
    apply list_elem_of_In, in_rev, list_elem_of_In in Ha.
    clear -Hrev Ha Hb Heq.
    induction Hrev as [|x r Hr IH Hx]; [by apply elem_of_nil in Ha|].
    rewrite Forall_forall in Hx.
    apply elem_of_cons in Ha as [->|Ha], Hb as [->|Hb]; auto.
    + specialize (Hx _ Hb). lia.
    + specialize (Hx _ Ha). lia.
  - apply sort_desc_sorted.
  - clear -Hrev. induction Hrev as [|x r Hr IH Hx]; constructor; [done|].
    eapply Forall_impl; [exact Hx|]. cbn. intros; lia.
  - rewrite sort_desc_Permutation, Hp. by rewrite <- Permutation_rev.
Qed.

Lemma length_append (a b : string) :
  String.length (a +:+ b) = (String.length a + String.length b)%nat.
Proof. induction a as [|c a IH]; [done|]. rewrite append_cons. cbn. by rewrite IH. Qed.

(** ** Archival when no file-system call fails *)

Section NoFaults.

Context (cfg : Config) (env : Env) (Hnf : no_faults env).

Local Abbreviation dir := (BACKUP_DIR cfg).

Lemma existsSync_nf p w :
  existsSync env p w
  = (Ok (bool_decide (is_Some (files (fs w) !! p)) || bool_decide (p ∈ dirs (fs w))),
     after_fs (OpExists p) true (fs w) w).
Proof. by apply existsSync_ok. Qed.

Lemma mkdirSync_nf p w :
  mkdirSync env p w
  = (Ok tt, after_fs (OpMkdir p) true (MkFS (files (fs w)) (p :: dirs (fs w))) w).
Proof. unfold mkdirSync. by rewrite fs_prim_normal. Qed.

Lemma writeFileSync_nf p c w :
  writeFileSync env p c w
  = (Ok tt, after_fs (OpWrite p c) true
              (MkFS (<[p := File c (now w)]> (files (fs w))) (dirs (fs w))) w).
Proof. by apply writeFileSync_ok. Qed.

Lemma readdirSync_nf d w :
  readdirSync env d w
  = (Ok (file_entries d (fs w) ++ dir_entries d (fs w)),
     after_fs (OpReaddir d) true (fs w) w).
Proof. unfold readdirSync. by rewrite fs_prim_normal. Qed.

Lemma stat_mtime_nf p w :
  is_Some (files (fs w) !! p) \/ p ∈ dirs (fs w) ->
  stat_mtime env p w
  = (Ok (entry_time env (fs w) p), after_fs (OpStat p) true (fs w) w).
Proof.
  intros H. unfold stat_mtime, entry_time. rewrite fs_prim_normal by done.
  destruct (files (fs w) !! p) as [fl|] eqn:E; [done|].
  destruct H as [[? H]|H]; [done|]. by rewrite bool_decide_eq_true_2.
Qed.

Lemma unlinkSync_nf p w fl :
  files (fs w) !! p = Some fl ->
  unlinkSync env p w
  = (Ok tt, after_fs (OpUnlink p) true
              (MkFS (delete p (files (fs w))) (dirs (fs w))) w).
Proof. intros H. by eapply unlinkSync_ok. Qed.

(** A directory is not unlinked. *)
Lemma unlinkSync_dir p w :
  files (fs w) !! p = None ->
  p ∈ dirs (fs w) ->
  unlinkSync env p w
  = (Throw (eisdir ("unlink '" +:+ p +:+ "'")),
     after_fs (OpUnlink p) false (fs w) w).
Proof.
  intros Hf Hd. unfold unlinkSync. rewrite fs_prim_normal by done.
  by rewrite Hf, bool_decide_eq_true_2.
Qed.

Lemma bindS_ok {A B} (m : Sync A) (f : A -> Sync B) w a w1 :
  m w = (Ok a, w1) -> bindS m f w = f a w1.
Proof. intros H. unfold bindS. by rewrite H. Qed.

Lemma bindS_throw {A B} (m : Sync A) (f : A -> Sync B) w e w1 :
  m w = (Throw e, w1) -> bindS m f w = (Throw e, w1).
Proof. intros H. unfold bindS. by rewrite H. Qed.

Lemma unlinked_app evs evs' : unlinked (evs ++ evs') = unlinked evs ++ unlinked evs'.
Proof. apply omap_app. Qed.

(** The sub-directories the filter keeps. *)
Lemma elem_of_dir_names f n :
  n ∈ dir_names cfg f
  <-> valid_name n /\ files f !! Path.join dir n = None /\ Path.join dir n ∈ dirs f.
Proof.
  unfold dir_names, dir_entries, valid_name.
  rewrite list_elem_of_In, filter_In, <- list_elem_of_In, elem_of_remove_dups,
    list_elem_of_omap.
  split.
  - intros [(p & Hp & He) Hb]. apply entry_of_spec in He as (-> & Hs & Hn).
    apply list_elem_of_In, filter_In in Hp as [Hp Hfile].
    apply list_elem_of_In in Hp. apply negb_true_iff, bool_decide_eq_false in Hfile.
    split; [done|]. split; [|done].
    destruct (files f !! Path.join dir n) eqn:E; [|done]. destruct Hfile. eauto.
  - intros [(Hb & Hs & Hn) [Hf Hd]]. split; [|done].
    exists (Path.join dir n). split; [|by apply entry_of_spec].
    apply list_elem_of_In, filter_In. split; [by apply list_elem_of_In|].
    apply negb_true_iff, bool_decide_eq_false. rewrite Hf. by intros [? ?].
Qed.

Lemma NoDup_dir_names f : NoDup (dir_names cfg f).
Proof. apply NoDup_List_filter, NoDup_remove_dups. Qed.

Lemma dir_names_backup_dirs f n :
  n ∈ dir_names cfg f -> n ∈ backup_dirs cfg (dirs f).
Proof.
  intros H. apply elem_of_dir_names in H as ((Hb & Hs & Hn) & _ & Hd).
  unfold backup_dirs.
  rewrite list_elem_of_In, filter_In, <- list_elem_of_In, list_elem_of_omap.
  split; [|done]. exists (Path.join dir n). split; [done|]. by apply entry_of_spec.
Qed.

Lemma dir_names_nil f : backup_dirs cfg (dirs f) = [] -> dir_names cfg f = [].
Proof.
  intros H. apply elem_of_nil_inv. intros n Hn.
  apply dir_names_backup_dirs in Hn. rewrite H in Hn. by apply elem_of_nil in Hn.
Qed.

Lemma entry_of_self : Path.entry_of dir dir = None.
Proof.
  destruct (Path.entry_of dir dir) as [n|] eqn:E; [|done].
  apply entry_of_spec in E as [E _]. apply (f_equal String.length) in E.
  unfold Path.join in E. rewrite !length_append in E. cbn in E. lia.
Qed.

(** Creating the backup directory adds no entry to it. *)
Lemma backup_dirs_mkdir ds : backup_dirs cfg (dir :: ds) = backup_dirs cfg ds.
Proof. unfold backup_dirs. cbn [omap list_omap]. by rewrite entry_of_self. Qed.

Lemma dir_names_mkdir m ds : dir_names cfg (MkFS m (dir :: ds)) = dir_names cfg (MkFS m ds).
Proof.
  unfold dir_names, dir_entries. cbn [dirs files List.filter].
  destruct (negb _); [|done]. cbn [omap list_omap]. by rewrite entry_of_self.
Qed.

Lemma backup_entries_mkdir m ds :
  backup_entries cfg env (MkFS m (dir :: ds)) = backup_entries cfg env (MkFS m ds).
Proof. unfold backup_entries. by rewrite dir_names_mkdir. Qed.

Lemma backup_entries_names f :
  (backup_entries cfg env f).*1 = backup_names cfg (files f) ++ dir_names cfg f.
Proof.
  unfold backup_entries.
  induction (backup_names cfg (files f) ++ dir_names cfg f) as [|n l IH]; cbn; [done|].
  by f_equal.
Qed.

Lemma NoDup_backup_entries f : NoDup (backup_entries cfg env f).*1.
Proof.
  rewrite backup_entries_names. apply NoDup_app.
  split; [apply NoDup_backup_names|]. split; [|apply NoDup_dir_names].
  intros n Hn Hn'. apply elem_of_backup_names in Hn as [_ [fl Hfl]].
  apply elem_of_dir_names in Hn' as (_ & Hnone & _). congruence.
Qed.

(** An entry that is sorted exists, as a file or as a directory. *)
Lemma backup_entries_exist f e :
  e ∈ backup_entries cfg env f ->
  is_Some (files f !! Path.join dir e.1) \/ Path.join dir e.1 ∈ dirs f.
Proof.
  intros H. apply (list_elem_of_fmap_2 fst) in H. rewrite backup_entries_names in H.
  apply elem_of_app in H as [H|H].
  - left. by apply elem_of_backup_names in H as [_ ?].
  - right. by apply elem_of_dir_names in H as (_ & _ & ?).
Qed.

(** Without a sub-directory called [proxy_*.json], the entries are the backup
    files. *)
Lemma backup_entries_files f :
  backup_dirs cfg (dirs f) = [] -> backup_entries cfg env f = backups cfg (files f).
Proof.
  intros H. unfold backup_entries, backups. rewrite (dir_names_nil _ H), app_nil_r.
  apply map_ext_in. intros n Hn. apply list_elem_of_In, elem_of_backup_names in Hn.
  destruct Hn as [_ [fl Hfl]]. unfold entry_time. by rewrite Hfl.
Qed.

Lemma take_while_ext {A} (P Q : A -> bool) (l : list A) :
  (forall x, x ∈ l -> P x = Q x) -> take_while P l = take_while Q l.
Proof.
  induction l as [|x r IH]; intros H; [done|]. cbn.
  rewrite <- (H x) by left. destruct (P x); [|done]. f_equal.
  apply IH. intros y Hy. apply H. by right.
Qed.

Lemma take_while_all {A} (P : A -> bool) (l : list A) :
  (forall x, x ∈ l -> P x = true) -> take_while P l = l.
Proof.
  induction l as [|x r IH]; intros H; [done|]. cbn.
  rewrite (H x) by left. f_equal. apply IH. intros y Hy. apply H. by right.
Qed.

Lemma take_while_prefix {A} (P : A -> bool) (l : list A) :
  exists k, l = take_while P l ++ k.
Proof.
  induction l as [|x r [k IH]]; [by exists []|]. cbn.
  destruct (P x); [|by eexists]. exists k. cbn. by f_equal.
Qed.

Lemma elem_of_take_while {A} (P : A -> bool) (l : list A) x :
  x ∈ take_while P l -> x ∈ l.
Proof.
  intros H. destruct (take_while_prefix P l) as [k Hk]. rewrite Hk.
  apply elem_of_app. by left.
Qed.

(** Reading the modification times changes nothing. *)
Lemma stats_nf (ns : list string) : forall w,
  (forall n, n ∈ ns ->
     is_Some (files (fs w) !! Path.join dir n) \/ Path.join dir n ∈ dirs (fs w)) ->
  exists w',
    mapS (fun f => bindS (stat_mtime env (Path.join dir f)) (fun time => retS (f, time)))
         ns w
    = (Ok (map (fun n => (n, entry_time env (fs w) (Path.join dir n))) ns), w')
    /\ fs w' = fs w /\ now w' = now w /\ isDeploying w' = isDeploying w
    /\ exists evs, trace w' = evs ++ trace w /\ unlinked (rev evs) = [].
Proof.
  induction ns as [|n r IH]; intros w Hall; cbn [mapS map].
  - exists w. split; [done|]. repeat split. by exists [].
  - set (w1 := after_fs (OpStat (Path.join dir n)) true (fs w) w).
    destruct (IH w1) as (w' & Hrun & Hfs & Hnow & Hlock & evs & Htr & Hun).
    { intros n' Hn'. apply Hall. by right. }
    erewrite bindS_ok;
      [|erewrite bindS_ok; [reflexivity|apply stat_mtime_nf, Hall; by left]].
    fold w1. erewrite bindS_ok; [|exact Hrun].
    exists w'. cbn.
    split; [done|]. split; [done|]. split; [done|]. split; [done|].
    exists (evs ++ [EvFs (OpStat (Path.join dir n)) true (fs w)]).
    split; [by rewrite <- app_assoc|].
    by rewrite rev_app_distr, unlinked_app, Hun.
Qed.

(** Pruning deletes the doomed entries in the order of the list, as long as
    they are files: it stops with an error at the first directory. *)
Lemma prune_nf (ds : list (string * Z)) : forall w,
  NoDup ds.*1 ->
  (forall d, d ∈ ds ->
     is_Some (files (fs w) !! Path.join dir d.1) \/ Path.join dir d.1 ∈ dirs (fs w)) ->
  let removed := take_while (is_file_entry cfg (files (fs w))) ds in
  exists w',
    forEach ds
      (fun f => bindS (unlinkSync env (Path.join dir f.1))
                  (fun _ => log ("🗑️ 清理旧备份: " +:+ f.1) "INFO")) w
    = (match ds !! length removed with
       | Some d => Throw (eisdir ("unlink '" +:+ Path.join dir d.1 +:+ "'"))
       | None => Ok tt
       end, w')
    /\ files (fs w')
       = fold_left (fun m d => delete (Path.join dir d.1) m) removed (files (fs w))
    /\ dirs (fs w') = dirs (fs w)
    /\ now w' = now w /\ isDeploying w' = isDeploying w
    /\ exists evs,
         trace w' = evs ++ trace w
         /\ unlinked (rev evs) = map (fun d => Path.join dir d.1) removed.
Proof.
  induction ds as [|d r IH]; intros w Hnd Hall; cbn zeta.
  - exists w. split; [done|]. repeat split. by exists [].
  - cbn [take_while forEach].
    apply NoDup_cons in Hnd as [Hd Hnd].
    destruct (is_file_entry cfg (files (fs w)) d) eqn:Hfile.
    + apply bool_decide_eq_true in Hfile as [fl Hfl].
      set (w1 := after_fs (OpUnlink (Path.join dir d.1)) true
                   (MkFS (delete (Path.join dir d.1) (files (fs w))) (dirs (fs w))) w).
      set (w2 := emit (EvLog (log_line (now w1) ("🗑️ 清理旧备份: " +:+ d.1) "INFO")) w1).
      erewrite bindS_ok;
        [|erewrite bindS_ok; [reflexivity|by eapply unlinkSync_nf]].
      change (log ("🗑️ 清理旧备份: " +:+ d.1) "INFO" w1) with (Ok tt, w2).
      cbv beta iota.
      assert (Hne : forall d', d' ∈ r -> Path.join dir d'.1 <> Path.join dir d.1).
      { intros d' Hd' Heq. apply join_inj in Heq. apply Hd. rewrite <- Heq.
        by apply list_elem_of_fmap_2. }
      destruct (IH w2 Hnd) as (w' & Hrun & Hfs & Hds & Hnow & Hlock & evs & Htr & Hun).
      { intros d' Hd'. cbn. rewrite lookup_delete_ne by (by apply not_eq_sym, Hne).
        apply Hall. by right. }
      assert (Hsame : take_while (is_file_entry cfg (files (fs w2))) r
                      = take_while (is_file_entry cfg (files (fs w))) r).
      { apply take_while_ext. intros d' Hd'. unfold is_file_entry. cbn.
        by rewrite lookup_delete_ne by (by apply not_eq_sym, Hne). }
      rewrite Hsame in Hrun, Hfs, Hun. cbn [fold_left map].
      exists w'. split; [exact Hrun|]. split; [done|].
      split; [done|]. split; [done|]. split; [done|].
      eexists (evs ++ [_; _]). split; [by rewrite Htr, <- app_assoc|].
      rewrite rev_app_distr, unlinked_app, Hun. reflexivity.
    + apply bool_decide_eq_false in Hfile.
      assert (Hnone : files (fs w) !! Path.join dir d.1 = None).
      { destruct (files (fs w) !! Path.join dir d.1) eqn:E; [|done].
        destruct Hfile. eauto. }
      assert (Hdir : Path.join dir d.1 ∈ dirs (fs w)).
      { destruct (Hall d) as [[? H]|H]; [by left|congruence|done]. }
      erewrite bindS_throw;
        [|erewrite bindS_throw; [reflexivity|by apply unlinkSync_dir]].
      eexists. split; [reflexivity|]. cbn.
      split; [done|]. split; [done|]. split; [done|]. split; [done|].
      by eexists [_].
Qed.

Lemma try_catch_ok {A} (m : Sync A) h w a w1 :
  m w = (Ok a, w1) -> try_catch m h w = (Ok a, w1).
Proof. intros H. unfold try_catch. by rewrite H. Qed.

Lemma NoDup_drop {A} n (l : list A) : NoDup l -> NoDup (drop n l).
Proof.
  intros H. rewrite <- (take_drop n l) in H. by apply NoDup_app in H as (_ & _ & ?).
Qed.

Lemma elem_of_drop_in {A} n (l : list A) x : x ∈ drop n l -> x ∈ l.
Proof. intros H. rewrite <- (take_drop n l). apply elem_of_app. by right. Qed.

(** The error of unlinking the directory [name] of the backup directory. *)
Local Abbreviation unlink_error name :=
  (eisdir ("unlink '" +:+ Path.join dir name +:+ "'")).

(** What one archival does when no call fails, in any world: it writes the
    backup, sorts the entries called [proxy_*.json], files and directories,
    and unlinks those beyond the [MAX_BACKUPS] newest, the newest of them
    first, up to the first directory: there the pruning fails, which is
    logged, and the entries after it stay. *)
Lemma rotateBackups_run c w :
  let m1 := <[Path.join dir (backupName (now w)) := File c (now w)]> (files (fs w)) in
  let excess :=
    drop (MAX_BACKUPS cfg)
         (sort_desc (backup_entries cfg env (MkFS m1 (dirs (fs w))))) in
  let removed := take_while (is_file_entry cfg m1) excess in
  exists w',
    rotateBackups cfg env c w = (Ok tt, w')
    /\ files (fs w') = fold_left (fun m d => delete (Path.join dir d.1) m) removed m1
    /\ now w' = now w /\ isDeploying w' = isDeploying w
    /\ (exists evs,
          trace w' = evs ++ trace w
          /\ unlinked (rev evs) = map (fun d => Path.join dir d.1) removed)
    /\ (dirs (fs w') = dirs (fs w) \/ dirs (fs w') = dir :: dirs (fs w))
    /\ match excess !! length removed with
       | Some d =>
           exists tr,
             trace w'
             = EvLog (log_line (now w)
                        ("备份清理失败 (非致命): " +:+ unlink_error d.1) "WARN") :: tr
       | None => True
       end.
Proof.
  intros m1 excess removed. unfold rotateBackups.
  erewrite bindS_ok; [|apply existsSync_nf].
  set (w1 := after_fs (OpExists dir) true (fs w) w).
  set (present := _ || _).
  assert (Hmk : exists w2,
             (if negb present then mkdirSync env dir else retS tt) w1 = (Ok tt, w2)
             /\ files (fs w2) = files (fs w) /\ now w2 = now w
             /\ isDeploying w2 = isDeploying w
             /\ (dirs (fs w2) = dirs (fs w) \/ dirs (fs w2) = dir :: dirs (fs w))
             /\ exists evs, trace w2 = evs ++ trace w /\ unlinked (rev evs) = []).
  { destruct present; cbn [negb].
    - exists w1. split; [done|]. repeat split; [by left|]. by eexists [_].
    - rewrite mkdirSync_nf. eexists. split; [done|]. repeat split; [by right|].
      by eexists [_; _]. }
  destruct Hmk as (w2 & Hmk & Hf2 & Hn2 & Hl2 & Hd2 & evs2 & Ht2 & Hu2).
  erewrite bindS_ok; [|exact Hmk].
  erewrite bindS_ok; [|reflexivity]. rewrite Hn2.
  erewrite bindS_ok; [|apply writeFileSync_nf]. rewrite Hn2, Hf2. fold m1.
  set (w3 := after_fs _ true (MkFS m1 _) w2).
  erewrite bindS_ok; [|reflexivity].
  set (w4 := emit _ w3).
  assert (Hentries : backup_entries cfg env (fs w4)
                     = backup_entries cfg env (MkFS m1 (dirs (fs w)))).
  { cbn. destruct Hd2 as [->| ->]; [done|apply backup_entries_mkdir]. }
  (* the listing *)
  set (w5 := after_fs (OpReaddir dir) true (fs w4) w4).
  destruct (stats_nf (backup_names cfg m1 ++ dir_names cfg (fs w4)) w5)
    as (w6 & Hstat & Hf6 & Hn6 & Hl6 & evs6 & Ht6 & Hu6).
  { intros n Hn. apply elem_of_app in Hn as [Hn|Hn].
    - left. by apply elem_of_backup_names in Hn as [_ ?].
    - right. by apply elem_of_dir_names in Hn as (_ & _ & ?). }
  change (map _ (backup_names cfg m1 ++ dir_names cfg (fs w4)))
    with (backup_entries cfg env (fs w4)) in Hstat.
  rewrite Hentries in Hstat.
  set (sorted := sort_desc (backup_entries cfg env (MkFS m1 (dirs (fs w))))) in *.
  (* the pruning *)
  destruct (prune_nf excess w6)
    as (w7 & Hprune & Hf7 & Hd7 & Hn7 & Hl7 & evs7 & Ht7 & Hu7).
  { apply NoDup_fmap_fst.
    - intros n t t' Ht Ht'. apply elem_of_drop_in in Ht, Ht'.
      unfold sorted in Ht, Ht'. rewrite sort_desc_Permutation in Ht, Ht'.
      unfold backup_entries in Ht, Ht'.
      apply list_elem_of_fmap in Ht as (? & [= <- ->] & _).
      by apply list_elem_of_fmap in Ht' as (? & [= <- ->] & _).
    - apply NoDup_drop. unfold sorted. rewrite sort_desc_Permutation.
      unfold backup_entries. apply NoDup_fmap_2; [by intros ?? [=]|].
      rewrite <- backup_entries_names. apply NoDup_backup_entries. }
  { intros d Hd. apply elem_of_drop_in in Hd.
    unfold sorted in Hd. rewrite sort_desc_Permutation, <- Hentries in Hd.
    rewrite Hf6. exact (backup_entries_exist _ _ Hd). }
  rewrite Hf6 in Hprune, Hf7, Hu7. change (files (fs w5)) with m1 in Hprune, Hf7, Hu7.
  fold removed in Hprune, Hf7, Hu7.
  assert (Hlist : prune cfg env w4
                  = if (MAX_BACKUPS cfg <? length sorted)%nat
                    then (match excess !! length removed with
                          | Some d => Throw (unlink_error d.1)
                          | None => Ok tt
                          end, w7)
                    else (Ok tt, w6)).
  { unfold prune. erewrite bindS_ok; [|apply readdirSync_nf].
    rewrite List.filter_app.
    change (List.filter is_backup_name (file_entries dir (fs w4)))
      with (backup_names cfg m1).
    change (List.filter is_backup_name (dir_entries dir (fs w4)))
      with (dir_names cfg (fs w4)).
    fold w5. erewrite bindS_ok; [|exact Hstat]. fold sorted.
    destruct (MAX_BACKUPS cfg <? length sorted)%nat; [|done].
    exact Hprune. }
  unfold try_catch. rewrite Hlist.
  destruct (Nat.ltb_spec (MAX_BACKUPS cfg) (length sorted)) as [Hlt|Hge].
  - assert (Htrace : trace w7
                     = (evs7 ++ evs6 ++ [EvFs (OpReaddir dir) true (fs w4); EvLog (log_line (now w3) ("📦 已归档旧配置: " +:+ backupName (now w)) "INFO"); EvFs (OpWrite (Path.join dir (backupName (now w))) c) true (MkFS m1 (dirs (fs w2)))] ++ evs2) ++ trace w).
    { rewrite Ht7, Ht6. cbn. rewrite Ht2. by rewrite <- !app_assoc. }
    assert (Hunl : unlinked (rev (evs7 ++ evs6 ++ [EvFs (OpReaddir dir) true (fs w4); EvLog (log_line (now w3) ("📦 已归档旧配置: " +:+ backupName (now w)) "INFO"); EvFs (OpWrite (Path.join dir (backupName (now w))) c) true (MkFS m1 (dirs (fs w2)))] ++ evs2))
                   = map (fun d => Path.join dir d.1) removed).
    { rewrite !rev_app_distr, !unlinked_app, Hu7, Hu6, Hu2. cbn.
      by rewrite ?app_nil_r. }
    assert (Hdirs : dirs (fs w7) = dirs (fs w) \/ dirs (fs w7) = dir :: dirs (fs w)).
    { rewrite Hd7, Hf6. exact Hd2. }
    assert (Hnow : now w7 = now w) by (by rewrite Hn7, Hn6).
    assert (Hlock : isDeploying w7 = isDeploying w) by (by rewrite Hl7, Hl6).
    destruct (excess !! length removed) as [d|] eqn:Hstop.
    + eexists. split; [reflexivity|]. cbn.
      split; [done|]. split; [done|]. split; [done|].
      split; [|split; [done|]].
      * eexists (_ :: _). split; [cbn; by rewrite Htrace|].
        cbn [rev]. rewrite unlinked_app, Hunl. cbn. by rewrite app_nil_r.
      * rewrite Hnow. by eexists.
    + exists w7. split; [done|]. split; [done|]. split; [done|]. split; [done|].
      split; [eauto|]. done.
  - assert (Hnil : excess = []) by (by apply drop_ge).
    assert (Hrem : removed = []) by (unfold removed; by rewrite Hnil).
    rewrite Hnil, Hrem. cbn [fold_left map length lookup].
    exists w6. split; [done|]. rewrite Hf6, Hn6, Hl6.
    split; [done|]. split; [done|]. split; [done|].
    split; [|split; [exact Hd2|done]].
    exists (evs6 ++ [EvFs (OpReaddir dir) true (fs w4); EvLog (log_line (now w3) ("📦 已归档旧配置: " +:+ backupName (now w)) "INFO"); EvFs (OpWrite (Path.join dir (backupName (now w))) c) true (MkFS m1 (dirs (fs w2)))] ++ evs2).
    split.
    + rewrite Ht6. cbn. rewrite Ht2. by rewrite <- !app_assoc.
    + rewrite !rev_app_distr, !unlinked_app, Hu6, Hu2. done.
Qed.

(** In any world the archival returns, and moves neither the clock nor the
    lock. *)
Lemma rotateBackups_returns c w :
  exists w',
    rotateBackups cfg env c w = (Ok tt, w')
    /\ now w' = now w /\ isDeploying w' = isDeploying w.
Proof.
  destruct (rotateBackups_run c w) as (w' & H & _ & Hn & Hl & _). eauto.
Qed.

(** The archival adds no sub-directory to the backup directory. *)
Lemma rotateBackups_dirs c w :
  backup_dirs cfg (dirs (fs (rotateBackups cfg env c w).2))
  = backup_dirs cfg (dirs (fs w)).
Proof.
  destruct (rotateBackups_run c w) as (w' & H & _ & _ & _ & _ & [Hd|Hd] & _);
    rewrite H; cbn [snd]; rewrite Hd; [done|apply backup_dirs_mkdir].
Qed.

(** What one archival does when no call fails and the backup directory has
    no sub-directory called [proxy_*.json]: it writes the backup, and unlinks
    every backup beyond the [MAX_BACKUPS] newest, the newest of them
    first. *)
Lemma rotateBackups_nf c w :
  backup_dirs cfg (dirs (fs w)) = [] ->
  let m1 := <[Path.join dir (backupName (now w)) := File c (now w)]> (files (fs w)) in
  let doomed := drop (MAX_BACKUPS cfg) (sort_desc (backups cfg m1)) in
  exists w',
    rotateBackups cfg env c w = (Ok tt, w')
    /\ files (fs w') = fold_left (fun m d => delete (Path.join dir d.1) m) doomed m1
    /\ now w' = now w /\ isDeploying w' = isDeploying w
    /\ exists evs,
         trace w' = evs ++ trace w
         /\ unlinked (rev evs) = map (fun d => Path.join dir d.1) doomed.
Proof.
  intros Hplain m1 doomed.
  pose proof (rotateBackups_run c w) as Hrun. cbv zeta in Hrun. fold m1 in Hrun.
  rewrite (backup_entries_files (MkFS m1 (dirs (fs w))) Hplain) in Hrun.
  cbn [files] in Hrun. fold doomed in Hrun.
  destruct Hrun as (w' & H & Hf & Hn & Hl & Hev & _).
  assert (Hall : take_while (is_file_entry cfg m1) doomed = doomed).
  { apply take_while_all. intros d Hd. apply elem_of_drop_in in Hd.
    rewrite sort_desc_Permutation in Hd.
    apply (list_elem_of_fmap_2 fst) in Hd. rewrite backups_names in Hd.
    apply elem_of_backup_names in Hd as [_ Hd].
    unfold is_file_entry. by apply bool_decide_eq_true_2. }
  rewrite Hall in Hf, Hev. exists w'. done.
Qed.

End NoFaults.
(** ** Backup names *)

Lemma has_slash_append a b :
  Path.has_slash (a +:+ b) = Path.has_slash a || Path.has_slash b.
Proof.
  induction a as [|c a IH]; [done|].
  rewrite append_cons. cbn. rewrite IH. by rewrite orb_assoc.
Qed.

Lemma has_slash_substring n m s :
  Path.has_slash s = false -> Path.has_slash (String.substring n m s) = false.
Proof.
  revert n m. induction s as [|c s IH]; intros n m H; [by destruct n, m|].
  cbn in H. apply orb_false_elim in H as [Hc Hs].
  destruct n as [|n]; cbn.
  - destruct m as [|m]; cbn; [done|]. by rewrite Hc, IH.
  - by apply IH.
Qed.

Lemma has_slash_remove_chars cs s :
  Path.has_slash s = false -> Path.has_slash (Js.remove_chars cs s) = false.
Proof.
  induction s as [|c s IH]; intros H; [done|].
  cbn in H. apply orb_false_elim in H as [Hc Hs]. cbn.
  destruct (existsb _ cs); cbn; [auto|]. by rewrite Hc, IH.
Qed.

Lemma has_slash_string_of_uint d :
  Path.has_slash (NilEmpty.string_of_uint d) = false.
Proof. induction d; cbn; auto. Qed.

Lemma has_slash_string_of_Z z : Path.has_slash (Js.string_of_Z z) = false.
Proof.
  unfold Js.string_of_Z, NilZero.string_of_int, NilZero.string_of_uint.
  destruct (Z.to_int z) as [d|d]; destruct d; cbn;
    auto using has_slash_string_of_uint.
Qed.

Lemma has_slash_zeros k : Path.has_slash (String.concat "" (replicate k "0")) = false.
Proof.
  induction k as [|k IH]; [done|]. cbn [replicate String.concat].
  destruct (replicate k "0") eqn:E; [done|].
  rewrite append_cons, append_nil_l. cbn. exact IH.
Qed.

Lemma has_slash_pad w n : Path.has_slash (Js.pad w n) = false.
Proof.
  unfold Js.pad. by rewrite has_slash_append, has_slash_zeros, has_slash_string_of_Z.
Qed.

Lemma has_slash_toISOString t : Path.has_slash (Js.toISOString t) = false.
Proof.
  unfold Js.toISOString, Js.iso_year.
  repeat rewrite has_slash_append.
  rewrite !has_slash_pad.
  destruct (_ && _); [by rewrite has_slash_pad|].
  destruct (_ <? 0); by rewrite has_slash_append, has_slash_pad.
Qed.

Lemma substring_append_skip a b m :
  String.substring (String.length a) m (a +:+ b) = String.substring 0 m b.
Proof. induction a as [|c a IH]; [done|]. rewrite append_cons. cbn. exact IH. Qed.

Lemma substring_all s : String.substring 0 (String.length s) s = s.
Proof. induction s as [|c s IH]; [done|]. cbn. by rewrite IH. Qed.

Lemma endsWith_append a b : Js.endsWith (a +:+ b) b = true.
Proof.
  unfold Js.endsWith. rewrite length_append.
  replace (String.length a + String.length b - String.length b)%nat
    with (String.length a) by lia.
  rewrite substring_append_skip, substring_all, String.eqb_refl.
  rewrite andb_true_r. apply Nat.leb_le. lia.
Qed.

Lemma startsWith_append a b : Js.startsWith (a +:+ b) a = true.
Proof.
  unfold Js.startsWith. apply prefix_correct.
  induction a as [|c a IH]; [by destruct b|].
  rewrite append_cons. cbn. by rewrite IH.
Qed.

(** Every backup name is a file name the pruning recognises. *)
Lemma valid_backupName t : valid_name (backupName t).
Proof.
  unfold valid_name, backupName, is_backup_name. repeat split.
  - apply andb_true_intro. split; [apply startsWith_append|].
    rewrite <- append_assoc. apply endsWith_append.
  - rewrite !has_slash_append. unfold Js.slice0.
    by rewrite has_slash_substring
      by apply has_slash_remove_chars, has_slash_toISOString.
  - discriminate.
Qed.
(** ** Retention *)

Lemma lastn_app_last {A} n (l : list A) x :
  lastn n (lastn n l ++ [x]) = lastn n (l ++ [x]).
Proof.
  unfold lastn. rewrite !length_app, length_drop. cbn [length].
  destruct (decide (length l <= n)%nat) as [Hle|Hgt].
  - replace (length l - n)%nat with 0%nat by lia. cbn [drop].
    by replace (length l - 0)%nat with (length l) by lia.
  - destruct n as [|n].
    + rewrite !drop_ge; [done|rewrite length_app; cbn; lia|].
      rewrite length_app, length_drop. cbn. lia.
    + rewrite !drop_app_le by (rewrite ?length_drop; lia).
      rewrite drop_drop. do 2 f_equal. lia.
Qed.

Lemma elem_of_rev {A} (x : A) l : x ∈ rev l <-> x ∈ l.
Proof. rewrite !list_elem_of_In. symmetry. apply in_rev. Qed.

Lemma lastn_length {A} n (l : list A) : length (lastn n l) = min n (length l).
Proof. unfold lastn. rewrite length_drop. lia. Qed.

Section Retention.

Context (cfg : Config).

Local Abbreviation dir := (BACKUP_DIR cfg).
Local Abbreviation N := (MAX_BACKUPS cfg).

Lemma lookup_fold_delete (ds : list (string * Z)) : forall (m : gmap string file) n,
  fold_left (fun m d => delete (Path.join dir d.1) m) ds m !! Path.join dir n
  = if decide (n ∈ ds.*1) then None else m !! Path.join dir n.
Proof.
  induction ds as [|d r IH]; intros m n; cbn [fold_left fmap list_fmap].
  - destruct (decide _) as [H|_]; [by apply elem_of_nil in H|done].
  - rewrite IH. destruct (decide (n ∈ r.*1)) as [Hr|Hr].
    + rewrite decide_True; [done|]. by right.
    + destruct (decide (n = d.1)) as [->|Hne].
      * rewrite lookup_delete_eq. rewrite decide_True; [done|]. by left.
      * rewrite lookup_delete_ne by (intros H; by apply join_inj in H).
        rewrite decide_False; [done|]. intros H.
        apply elem_of_cons in H as [?|?]; done.
Qed.

Lemma backup_of_inv n fl item :
  (n, fl) = backup_of item -> n = backupName item.1 /\ fl = File item.2 item.1.
Proof.
  intros H. split; [exact (f_equal fst H)|exact (f_equal snd H)].
Qed.

Lemma backup_of_name_time K :
  map (fun nf : string * file => (nf.1, mtime nf.2)) (map backup_of K)
  = map name_time K.
Proof. rewrite map_map. by apply map_ext. Qed.

Lemma NoDup_backup_of (K : list (Z * string)) :
  NoDup (backupName <$> K.*1) -> NoDup (map backup_of K).
Proof.
  intros H. apply (NoDup_fmap_1 fst).
  rewrite <- list_fmap_compose. rewrite <- list_fmap_compose in H.
  exact H.
Qed.

Lemma sorted_name_time (K : list (Z * string)) :
  StronglySorted Z.lt K.*1 ->
  StronglySorted (fun a b : string * Z => a.2 < b.2) (map name_time K).
Proof.
  induction K as [|x K IH]; cbn; intros H; [constructor|].
  apply StronglySorted_inv in H as [HK Hx]. constructor; [auto|].
  rewrite Forall_forall in Hx. apply Forall_forall. intros y Hy.
  apply list_elem_of_fmap in Hy as (z & -> & Hz). cbn.
  apply Hx. by apply list_elem_of_fmap_2.
Qed.

(** One archival of a fresh, newest backup over a directory that holds the
    [N] newest of the earlier ones leaves the [N] newest of them all. *)
Lemma archive_step (m : gmap string file) (done : list (Z * string)) t c :
  backup_files cfg m ≡ₚ map backup_of (lastn N done) ->
  StronglySorted Z.lt (done ++ [(t, c)]).*1 ->
  NoDup (backupName <$> (done ++ [(t, c)]).*1) ->
  let m1 := <[Path.join dir (backupName t) := File c t]> m in
  let doomed := drop N (sort_desc (backups cfg m1)) in
  backup_files cfg (fold_left (fun m d => delete (Path.join dir d.1) m) doomed m1)
  ≡ₚ map backup_of (lastn N (done ++ [(t, c)])).
Proof.
  intros Hinv Hsorted Hnames m1 doomed.
  set (K := lastn N done ++ [(t, c)]).
  assert (HKsub : exists pre, done ++ [(t, c)] = pre ++ K).
  { exists (take (length done - N) done). unfold K, lastn.
    by rewrite app_assoc, take_drop. }
  destruct HKsub as [pre HK].
  assert (HKsorted : StronglySorted Z.lt K.*1).
  { rewrite HK, fmap_app in Hsorted. by apply StronglySorted_app_1_r in Hsorted. }
  assert (HKnames : NoDup (backupName <$> K.*1)).
  { rewrite HK, !fmap_app in Hnames. by apply NoDup_app in Hnames as (_ & _ & ?). }
  (* the directory after the write *)
  assert (H1 : backup_files cfg m1 ≡ₚ map backup_of K).
  { apply NoDup_Permutation; [apply NoDup_backup_files|by apply NoDup_backup_of|].
    intros [n fl]. rewrite elem_of_backup_files. unfold K.
    rewrite map_app, elem_of_app. cbn [map]. rewrite list_elem_of_singleton.
    rewrite <- Hinv, elem_of_backup_files. unfold m1.
    destruct (decide (n = backupName t)) as [->|Hne].
    - rewrite lookup_insert_eq. split.
      + intros [_ [= <-]]. by right.
      + intros [[Hv Hm]|Heq];
          [|apply (backup_of_inv _ _ (t, c)) in Heq as [_ ->];
            split; [apply valid_backupName|done]].
        exfalso.
        assert (Hin : (backupName t, fl) ∈ map backup_of (lastn N done))
          by (rewrite <- Hinv; by apply elem_of_backup_files).
        apply list_elem_of_fmap in Hin as (item & Heq & Hin).
        apply backup_of_inv in Heq as [Ht _].
        unfold K in HKnames. rewrite !fmap_app in HKnames.
        apply NoDup_app in HKnames as (_ & Hdis & _).
        apply (Hdis (backupName t)); [|by left].
        rewrite Ht. apply list_elem_of_fmap. exists item.1. split; [done|].
        by apply list_elem_of_fmap_2.
    - rewrite lookup_insert_ne by (intros H; by apply join_inj in H).
      split; [by left|]. intros [?|Heq]; [done|].
      by apply (backup_of_inv _ _ (t, c)) in Heq as [? _]. }
  (* the sort *)
  assert (Hsort : sort_desc (backups cfg m1) = rev (map name_time K)).
  { apply sort_desc_unique; [|by apply sorted_name_time].
    rewrite backups_of_files, <- backup_of_name_time.
    by apply Permutation_map. }
  (* the pruning *)
  set (old := take (length K - N) K). set (kept := lastn N K).
  assert (Hsplit : K = old ++ kept) by (unfold old, kept, lastn; by rewrite take_drop).
  assert (HKn : NoDup ((backupName <$> old.*1) ++ (backupName <$> kept.*1)))
    by (rewrite <- !fmap_app, <- Hsplit; exact HKnames).
  apply NoDup_app in HKn as (_ & Hdis & Hkept).
  rewrite <- lastn_app_last. fold K. fold kept.
  apply NoDup_Permutation; [apply NoDup_backup_files|by apply NoDup_backup_of|].
  intros [n fl]. rewrite elem_of_backup_files, lookup_fold_delete.
  subst doomed. rewrite Hsort, skipn_rev, length_map.
  assert (Hdoomed : forall n, n ∈ (rev (firstn (length K - N) (map name_time K))).*1
                              <-> n ∈ backupName <$> old.*1).
  { intros n'. rewrite firstn_map. fold old.
    rewrite <- map_rev, <- !list_fmap_compose, !list_elem_of_fmap.
    by setoid_rewrite elem_of_rev. }
  assert (Hname : forall (l : list (Z * string)),
             (n, fl) ∈ map backup_of l -> n ∈ backupName <$> l.*1).
  { intros l Hin. apply list_elem_of_fmap in Hin as (item & Heq & Hin).
    apply backup_of_inv in Heq as [-> _].
    apply list_elem_of_fmap. exists item.1. split; [done|].
    by apply list_elem_of_fmap_2. }
  destruct (decide _) as [Hd|Hd].
  - split; [by intros [_ ?]|]. intros Hin. exfalso.
    apply Hdoomed in Hd. apply (Hdis _ Hd). by apply Hname.
  - rewrite <- elem_of_backup_files, H1, Hsplit, map_app, elem_of_app.
    split; [|by right]. intros [Hin|?]; [|done]. exfalso.
    apply Hd, Hdoomed. by apply Hname.
Qed.

End Retention.

Section RetentionTheorem.

Context (cfg : Config) (env : Env).

Local Abbreviation dir := (BACKUP_DIR cfg).
Local Abbreviation N := (MAX_BACKUPS cfg).

Lemma archive_all_snoc items item w :
  archive_all cfg env (items ++ [item]) w
  = (rotateBackups cfg env item.2 (set_now item.1 (archive_all cfg env items w))).2.
Proof. unfold archive_all. by rewrite fold_left_app. Qed.

Lemma archive_all_dirs (Hnf : no_faults env) (items : list (Z * string)) w :
  backup_dirs cfg (dirs (fs (archive_all cfg env items w)))
  = backup_dirs cfg (dirs (fs w)).
Proof.
  induction items as [|item items IH] using rev_ind; [done|].
  rewrite archive_all_snoc, (rotateBackups_dirs cfg env Hnf). exact IH.
Qed.

(** After any number of archivals into a directory that held no backup and
    no sub-directory called like one, at strictly increasing times and under
    distinct names, the directory holds the [N] last ones. *)
Lemma archive_all_retention (Hnf : no_faults env) (items : list (Z * string)) w :
  backup_files cfg (files (fs w)) = [] ->
  backup_dirs cfg (dirs (fs w)) = [] ->
  StronglySorted Z.lt items.*1 ->
  NoDup (backupName <$> items.*1) ->
  backup_files cfg (files (fs (archive_all cfg env items w)))
  ≡ₚ map backup_of (lastn N items).
Proof.
  intros Hempty Hplain. induction items as [|item items IH] using rev_ind;
    intros Hsorted Hnames.
  - cbn. by rewrite Hempty.
  - rewrite archive_all_snoc.
    set (wl := archive_all cfg env items w) in *.
    destruct (rotateBackups_nf cfg env Hnf item.2 (set_now item.1 wl))
      as (w' & Hrun & Hfiles & _).
    { cbn [set_now fs]. unfold wl. by rewrite archive_all_dirs. }
    rewrite Hrun. cbn [snd]. rewrite Hfiles. cbn [now set_now fs].
    destruct item as [t c]. apply archive_step; [|done..].
    apply IH.
    + rewrite fmap_app in Hsorted. by apply StronglySorted_app_1_l in Hsorted.
    + rewrite !fmap_app in Hnames. by apply NoDup_app in Hnames as (? & _).
Qed.

Lemma existsSync_total p w :
  exists b, existsSync env p w = (Ok b, after_fs (OpExists p) true (fs w) w).
Proof.
  destruct (fs_fault env (nfs (trace w)) (OpExists p)) as [e|] eqn:F.
  - exists false. by eapply existsSync_fault.
  - eexists. by apply existsSync_ok.
Qed.

(** An archival in any environment.  It throws only when creating the
    directory or writing the backup fails.  Otherwise the backup is written
    and the pruning runs: when the pruning throws, whatever the call that
    failed, the error is logged as a warning and the archival returns. *)
Lemma rotateBackups_outcome c w :
  match rotateBackups cfg env c w with
  | (Throw e, _) =>
      exists n,
        fs_fault env n (OpMkdir dir) = Some e
        \/ fs_fault env n (OpWrite (Path.join dir (backupName (now w))) c) = Some e
  | (Ok _, w') =>
      exists w1,
        text_at (Path.join dir (backupName (now w))) (fs w1) = Some c
        /\ now w1 = now w
        /\ match prune cfg env w1 with
           | (Ok _, w2) => w' = w2
           | (Throw e, w2) =>
               w' = emit (EvLog (log_line (now w2)
                                   ("备份清理失败 (非致命): " +:+ e) "WARN")) w2
           end
  end.
Proof.
  unfold rotateBackups.
  destruct (existsSync_total dir w) as [present Hex].
  erewrite bindS_ok; [|exact Hex].
  set (w1 := after_fs _ _ _ w).
  assert (Hmk : (exists w2, (if negb present then mkdirSync env dir else retS tt) w1
                            = (Ok tt, w2) /\ now w2 = now w)
                \/ exists w2 e' n,
                     (if negb present then mkdirSync env dir else retS tt) w1
                     = (Throw e', w2)
                     /\ fs_fault env n (OpMkdir dir) = Some e').
  { destruct present; cbn [negb]; [left; by exists w1|].
    unfold mkdirSync.
    destruct (fs_fault env (nfs (trace w1)) (OpMkdir dir)) as [e'|] eqn:F.
    - right. rewrite (fs_prim_fault _ _ _ _ _ _ F). eauto.
    - left. rewrite (fs_prim_normal _ _ _ _ _ F). eauto. }
  destruct Hmk as [(w2 & Hmk & Hn2)|(w2 & e' & n & Hmk & F)].
  2:{ unfold bindS at 1. rewrite Hmk. cbn. eauto. }
  erewrite bindS_ok; [|exact Hmk].
  erewrite bindS_ok; [|reflexivity]. rewrite Hn2.
  destruct (fs_fault env (nfs (trace w2))
              (OpWrite (Path.join dir (backupName (now w))) c)) as [e'|] eqn:F.
  - unfold bindS at 1. rewrite (writeFileSync_fault _ _ _ _ _ F). cbn. eauto.
  - erewrite bindS_ok; [|by apply writeFileSync_ok].
    erewrite bindS_ok; [|reflexivity].
    set (w4 := emit _ _).
    assert (H4 : text_at (Path.join dir (backupName (now w))) (fs w4) = Some c
                 /\ now w4 = now w).
    { split; [|exact Hn2]. unfold text_at. cbn. by rewrite lookup_insert_eq. }
    unfold try_catch. destruct (prune cfg env w4) as [[[]|e'] w'] eqn:E.
    + exists w4. destruct H4. by rewrite E.
    + cbn. exists w4. destruct H4. by rewrite E.
Qed.

(** An archival throws only when creating the directory or writing the
    backup fails: nothing that goes wrong while pruning reaches the caller. *)
Lemma rotateBackups_throws c w e :
  (rotateBackups cfg env c w).1 = Throw e ->
  exists n,
    fs_fault env n (OpMkdir dir) = Some e
    \/ fs_fault env n (OpWrite (Path.join dir (backupName (now w))) c) = Some e.
Proof.
  pose proof (rotateBackups_outcome c w) as H.
  destruct (rotateBackups cfg env c w) as [[[]|e'] w']; [done|].
  by intros [= <-].
Qed.

Lemma take_while_stop {A} (P : A -> bool) (l : list A) x :
  l !! length (take_while P l) = Some x -> P x = false.
Proof.
  induction l as [|y r IH]; [done|]. cbn [take_while].
  destruct (P y) eqn:E; cbn; [exact IH|]. by intros [= <-].
Qed.

Lemma take_while_total {A} (P : A -> bool) (l : list A) :
  l !! length (take_while P l) = None -> take_while P l = l.
Proof.
  induction l as [|y r IH]; [done|]. cbn [take_while].
  destruct (P y) eqn:E; cbn; [|done]. intros H. f_equal. by apply IH.
Qed.

(** C5, as the code has it.  (1) Archival into a directory that holds no
    backup yet and no sub-directory called [proxy_*.json], when no
    file-system call fails, at strictly increasing clock times and under
    distinct names: after any number of archivals the backups that remain
    are the [MAX_BACKUPS] last ones, each with its content, so exactly
    [MAX_BACKUPS] remain once that many were taken.  (2) One archival in any
    state of the directory where the path of the new backup is not itself a
    directory, when no file-system call fails: the entries called
    [proxy_*.json], files and sub-directories alike, are sorted by
    modification time, newest first, and those beyond the first
    [MAX_BACKUPS] are unlinked in that order, the most recent of them first,
    as long as they are files; at the first sub-directory among them the
    unlinking fails, the failure is logged as a warning, and that entry and
    the ones after it stay, so that more than [MAX_BACKUPS] may remain;
    without such a sub-directory the entries are the backup files and all
    those beyond the first [MAX_BACKUPS] are unlinked.  (3) In every
    environment an archival throws only when the directory could not be
    created or the backup not written; once the backup is written, a failure
    of any call of the pruning is logged as a warning and goes no
    further. *)
Theorem rotateBackups_retention :
  (no_faults env ->
   forall (items : list (Z * string)) (w : World),
     backup_files cfg (files (fs w)) = [] ->
     backup_dirs cfg (dirs (fs w)) = [] ->
     StronglySorted Z.lt items.*1 ->
     NoDup (backupName <$> items.*1) ->
     let w' := archive_all cfg env items w in
     backup_files cfg (files (fs w')) ≡ₚ map backup_of (lastn N items)
     /\ length (backup_files cfg (files (fs w'))) = min N (length items))
  /\ (no_faults env ->
      forall (c : string) (w : World),
        let m1 := <[Path.join dir (backupName (now w)) := File c (now w)]>
                    (files (fs w)) in
        let entries := backup_entries cfg env (MkFS m1 (dirs (fs w))) in
        let sorted := sort_desc entries in
        let removed := take_while (is_file_entry cfg m1) (drop N sorted) in
        let w' := (rotateBackups cfg env c w).2 in
        Path.join dir (backupName (now w)) ∉ dirs (fs w) ->
        StronglySorted (fun a b : string * Z => b.2 <= a.2) sorted
        /\ sorted ≡ₚ entries
        /\ files (fs w')
           = fold_left (fun m d => delete (Path.join dir d.1) m) removed m1
        /\ (exists evs,
              trace w' = evs ++ trace w
              /\ unlinked (rev evs) = map (fun d => Path.join dir d.1) removed)
        /\ match drop N sorted !! length removed with
           | Some d =>
               m1 !! Path.join dir d.1 = None
               /\ Path.join dir d.1 ∈ dirs (fs w)
               /\ exists tr,
                    trace w'
                    = EvLog (log_line (now w)
                               ("备份清理失败 (非致命): "
                                +:+ eisdir ("unlink '" +:+ Path.join dir d.1 +:+ "'"))
                               "WARN") :: tr
           | None => removed = drop N sorted
           end
        /\ (backup_dirs cfg (dirs (fs w)) = [] ->
            entries = backups cfg m1 /\ removed = drop N sorted))
  /\ (forall (c : string) (w : World),
        match rotateBackups cfg env c w with
        | (Throw e, _) =>
            exists n,
              fs_fault env n (OpMkdir dir) = Some e
              \/ fs_fault env n (OpWrite (Path.join dir (backupName (now w))) c)
                 = Some e
        | (Ok _, w') =>
            exists w1,
              text_at (Path.join dir (backupName (now w))) (fs w1) = Some c
              /\ now w1 = now w
              /\ match prune cfg env w1 with
                 | (Ok _, w2) => w' = w2
                 | (Throw e, w2) =>
                     w' = emit (EvLog (log_line (now w2)
                                         ("备份清理失败 (非致命): " +:+ e) "WARN")) w2
                 end
        end).
Proof.
  split; [|split].
  - intros Hnf items w Hempty Hplain Hsorted Hnames w'.
    pose proof (archive_all_retention Hnf items w Hempty Hplain Hsorted Hnames) as H.
    split; [exact H|]. subst w'. by rewrite H, length_map, lastn_length.
  - intros Hnf c w m1 entries sorted removed w' _.
    pose proof (rotateBackups_run cfg env Hnf c w) as Hrun. cbv zeta in Hrun.
    fold m1 entries sorted removed in Hrun.
    destruct Hrun as (w1 & Hrun & Hfiles & _ & _ & Hev & _ & Hlog).
    subst w'. rewrite Hrun. cbn [snd].
    split; [apply sort_desc_sorted|]. split; [apply sort_desc_Permutation|].
    split; [exact Hfiles|]. split; [exact Hev|]. split.
    + destruct (drop N sorted !! length removed) as [d|] eqn:Hstop.
      * assert (Hd : d ∈ entries).
        { apply list_elem_of_lookup_2 in Hstop. apply elem_of_drop_in in Hstop.
          unfold sorted in Hstop. by rewrite sort_desc_Permutation in Hstop. }
        apply take_while_stop in Hstop as Hfile.
        apply bool_decide_eq_false in Hfile.
        assert (Hnone : m1 !! Path.join dir d.1 = None).
        { destruct (m1 !! Path.join dir d.1) eqn:E; [|done]. destruct Hfile. eauto. }
        split; [done|]. split; [|done].
        destruct (backup_entries_exist cfg env _ _ Hd) as [[? H]|H]; [|done].
        cbn [files] in H. congruence.
      * by apply take_while_total.
    + intros Hplain.
      assert (He : entries = backups cfg m1)
        by apply (backup_entries_files cfg env (MkFS m1 (dirs (fs w))) Hplain).
      split; [exact He|]. apply take_while_all. intros d Hd.
      apply elem_of_drop_in in Hd. unfold sorted in Hd.
      rewrite sort_desc_Permutation, He in Hd.
      apply (list_elem_of_fmap_2 fst) in Hd. rewrite backups_names in Hd.
      apply elem_of_backup_names in Hd as [_ Hd].
      unfold is_file_entry. by apply bool_decide_eq_true_2.
  - apply rotateBackups_outcome.
Qed.

End RetentionTheorem.

Lemma no_faults_example failures : no_faults (Example.env failures).
Proof. intros n op. reflexivity. Qed.

Lemma rotateBackups_retention_witness :
  let w' := archive_all CONFIG (Example.env []) Example.four_pushes Example.installed in
  backup_files CONFIG (files (fs w'))
  ≡ₚ [("proxy_20261102234601.json", File "b" 1793663161123);
      ("proxy_20261102234602.json", File "c" 1793663162123);
      ("proxy_20261102234603.json", File "d" 1793663163123)]
  /\ length (backup_files CONFIG (files (fs w'))) = 3%nat.
Proof.
  apply (proj1 (rotateBackups_retention CONFIG (Example.env []))
           (no_faults_example []) Example.four_pushes Example.installed).
  - vm_compute. reflexivity.
  - reflexivity.
  - repeat constructor; lia.
  - apply (bool_decide_unpack _). vm_compute. exact I.
Defined.

(** C5, as stated, fails on the order: with two backups to prune, the first
    one unlinked is the more recent of the two, not the least recent. *)
Lemma rotateBackups_unlinks_newest_first :
  let w' := (rotateBackups CONFIG (Example.env []) "{}" Example.crowded).2 in
  unlinked (since (trace Example.crowded) (trace w'))
  = ["/etc/sing-box/backups/proxy_20261101000002.json";
     "/etc/sing-box/backups/proxy_20261101000001.json"]
  /\ mtime <$> files (fs Example.crowded)
                 !! "/etc/sing-box/backups/proxy_20261101000002.json"
     = Some 1793491202000
  /\ mtime <$> files (fs Example.crowded)
                 !! "/etc/sing-box/backups/proxy_20261101000001.json"
     = Some 1793491201000.
Proof. vm_compute. done. Qed.

(** A sub-directory called like a backup takes a place among the entries
    that are kept.  Beside four backups and the directory [proxy_dir.json],
    which is newer than all of them, the archival keeps the directory, the
    new backup and the newest of the four, and unlinks the three others. *)
Lemma rotateBackups_counts_directories :
  let w' := (rotateBackups CONFIG (Example.env []) "{}" Example.crowded_dir).2 in
  unlinked (since (trace Example.crowded_dir) (trace w'))
  = ["/etc/sing-box/backups/proxy_20261101000003.json";
     "/etc/sing-box/backups/proxy_20261101000002.json";
     "/etc/sing-box/backups/proxy_20261101000001.json"]
  /\ length (backup_files CONFIG (files (fs w'))) = 2%nat.
Proof. vm_compute. done. Qed.

(** Pruning stops at a sub-directory.  Beside three directories called like
    backups, the oldest of which is older than the new backup, the archival
    tries to unlink that directory, logs the failure and returns. *)
Lemma rotateBackups_stops_at_directory :
  let w := set_now 1793663160999 Example.three_dirs in
  let w' := (rotateBackups CONFIG (Example.env []) "b" w).2 in
  (rotateBackups CONFIG (Example.env []) "b" w).1 = Ok tt
  /\ hd_error (trace w')
     = Some (EvLog (log_line 1793663160999
                      ("备份清理失败 (非致命): "
                       +:+ "EISDIR: illegal operation on a directory, "
                       +:+ "unlink '/etc/sing-box/backups/proxy_c.json'")
                      "WARN"))
  /\ unlinked (since (trace w) (trace w')) = []
  /\ length (backup_files CONFIG (files (fs w'))) = 1%nat.
Proof. vm_compute. done. Qed.

(** ** Dates *)

Lemma all_from_spec (P : Z -> bool) n : forall z k,
  all_from P n z = true -> z <= k < z + Z.of_nat n -> P k = true.
Proof.
  induction n as [|n IH]; intros z k H Hk; [lia|].
  cbn [all_from] in H. apply andb_prop in H as [Hz Hn].
  destruct (decide (k = z)) as [->|Hne]; [done|].
  apply (IH (z + 1)); [done|lia].
Qed.

Lemma era_check : all_from era_ok (Z.to_nat 146097) 0 = true.
Proof. vm_compute. reflexivity. Qed.

Lemma era_ok_all doe : 0 <= doe < 146097 -> era_ok doe = true.
Proof. intros H. apply (all_from_spec _ _ 0 doe era_check). lia. Qed.

Lemma civil_of_day_fields day :
  let doe := (day + 719468) mod 146097 in
  let era := (day + 719468) / 146097 in
  Js.civil_of_day day
  = Js.Civil (yoe_of doe + era * 400 + (if month_of doe <=? 2 then 1 else 0))
             (month_of doe) (dom_of doe).
Proof. reflexivity. Qed.

Lemma civil_of_day_bounds day :
  1 <= Js.c_month (Js.civil_of_day day) <= 12
  /\ 1 <= Js.c_day (Js.civil_of_day day) <= 31.
Proof.
  rewrite civil_of_day_fields. cbn [Js.c_month Js.c_day].
  pose proof (era_ok_all ((day + 719468) mod 146097)
                ltac:(apply Z.mod_pos_bound; lia)) as H.
  unfold era_ok in H. cbv zeta in H. fold (month_of ((day + 719468) mod 146097))
    (dom_of ((day + 719468) mod 146097)) in H.
  repeat (apply andb_prop in H as [H ?]). lia.
Qed.

Lemma day_of_civil_of_day day : day_of_civil (Js.civil_of_day day) = day.
Proof.
  rewrite civil_of_day_fields. unfold day_of_civil. cbn [Js.c_year Js.c_month Js.c_day].
  set (doe := (day + 719468) mod 146097). set (era := (day + 719468) / 146097).
  pose proof (era_ok_all doe ltac:(apply Z.mod_pos_bound; lia)) as H.
  unfold era_ok in H. cbv zeta in H. fold (month_of doe) (dom_of doe) in H.
  repeat (apply andb_prop in H as [H ?]).
  replace (yoe_of doe + era * 400 + (if month_of doe <=? 2 then 1 else 0)
           - (if month_of doe <=? 2 then 1 else 0))
    with (yoe_of doe + era * 400) by lia.
  assert (Hq : (yoe_of doe + era * 400) / 400 = era)
    by (rewrite Z.div_add by lia; rewrite Z.div_small by lia; lia).
  assert (Hr : (yoe_of doe + era * 400) mod 400 = yoe_of doe)
    by (rewrite Z.mod_add by lia; apply Z.mod_small; lia).
  rewrite Hq, Hr.
  assert (Hd : doe_of (yoe_of doe) (month_of doe) (dom_of doe) = doe) by lia.
  rewrite Hd. subst doe era.
  pose proof (Z.div_mod (day + 719468) 146097 ltac:(lia)). lia.
Qed.

Lemma same_second_fields t1 t2 :
  t1 / 1000 = t2 / 1000 ->
  Js.Day t1 = Js.Day t2
  /\ Js.HourFromTime t1 = Js.HourFromTime t2
  /\ Js.MinFromTime t1 = Js.MinFromTime t2
  /\ Js.SecFromTime t1 = Js.SecFromTime t2.
Proof.
  unfold Js.Day, Js.HourFromTime, Js.MinFromTime, Js.SecFromTime,
    Js.TimeWithinDay, Js.msPerDay.
  intros H. repeat split; Z.div_mod_to_equations; lia.
Qed.

(** ** Time stamps *)

Lemma remove_chars_append cs a b :
  Js.remove_chars cs (a +:+ b) = Js.remove_chars cs a +:+ Js.remove_chars cs b.
Proof.
  induction a as [|c a IH]; [done|]. rewrite append_cons. cbn.
  destruct (existsb _ cs); [done|]. by rewrite append_cons, IH.
Qed.

Local Abbreviation separators := ["-"; ":"; "T"]%char.

Lemma remove_uint d :
  Js.remove_chars separators (NilEmpty.string_of_uint d) = NilEmpty.string_of_uint d.
Proof. induction d; cbn; by rewrite ?IHd. Qed.

Lemma remove_string_of_Z n :
  0 <= n -> Js.remove_chars separators (Js.string_of_Z n) = Js.string_of_Z n.
Proof.
  intros H. unfold Js.string_of_Z.
  destruct n as [|p|p]; [done| |lia].
  cbn [Z.to_int NilZero.string_of_int]. unfold NilZero.string_of_uint.
  destruct (Pos.to_uint p); [done|apply remove_uint..].
Qed.

Lemma zeros_S k :
  String.concat "" (replicate (S k) "0")
  = String "0" (String.concat "" (replicate k "0")).
Proof. by destruct k. Qed.

Lemma remove_zeros k :
  Js.remove_chars separators (String.concat "" (replicate k "0"))
  = String.concat "" (replicate k "0").
Proof.
  induction k as [|k IH]; [done|]. rewrite zeros_S. cbn. by rewrite IH.
Qed.

Lemma remove_pad w n :
  0 <= n -> Js.remove_chars separators (Js.pad w n) = Js.pad w n.
Proof.
  intros H. unfold Js.pad.
  by rewrite remove_chars_append, remove_zeros, remove_string_of_Z.
Qed.

Lemma length_zeros k : String.length (String.concat "" (replicate k "0")) = k.
Proof.
  induction k as [|k IH]; [done|]. rewrite zeros_S. cbn. by rewrite IH.
Qed.

Lemma length_pad w n :
  String.length (Js.pad w n)
  = (w - String.length (Js.string_of_Z n) + String.length (Js.string_of_Z n))%nat.
Proof. unfold Js.pad. by rewrite length_append, length_zeros. Qed.

Lemma substring_append_short n a b :
  (n <= String.length a)%nat ->
  String.substring 0 n (a +:+ b) = String.substring 0 n a.
Proof.
  revert n. induction a as [|c a IH]; intros n H.
  - cbn in H. assert (n = 0)%nat as -> by lia. by destruct b.
  - rewrite append_cons. destruct n as [|n]; [done|]. cbn.
    rewrite IH; [done|]. cbn in H. lia.
Qed.

Lemma time_fields_bounds t :
  0 <= Js.HourFromTime t <= 23 /\ 0 <= Js.MinFromTime t <= 59
  /\ 0 <= Js.SecFromTime t <= 59 /\ 0 <= Js.msFromTime t <= 999.
Proof.
  unfold Js.HourFromTime, Js.MinFromTime, Js.SecFromTime, Js.msFromTime,
    Js.TimeWithinDay, Js.msPerDay.
  repeat split; Z.div_mod_to_equations; lia.
Qed.

Lemma append_nil_r s : s +:+ "" = s.
Proof. induction s as [|c s IH]; [done|]. rewrite append_cons. by rewrite IH. Qed.

Lemma remove_separator c s :
  In c separators ->
  Js.remove_chars separators (String c s) = Js.remove_chars separators s.
Proof. intros [<-|[<-|[<-|[]]]]; reflexivity. Qed.

Lemma removed_toISOString t :
  Js.remove_chars separators (Js.toISOString t)
  = stamp t +:+ "." +:+ Js.pad 3 (Js.msFromTime t) +:+ "Z".
Proof.
  pose proof (civil_of_day_bounds (Js.Day t)) as [Hm Hd].
  pose proof (time_fields_bounds t) as (Hh & Hmi & Hs & Hms).
  unfold Js.toISOString, stamp. cbv zeta.
  rewrite !remove_chars_append.
  rewrite !remove_pad by lia.
  change (Js.remove_chars separators "-") with "".
  change (Js.remove_chars separators ":") with "".
  change (Js.remove_chars separators "T") with "".
  change (Js.remove_chars separators ".") with ".".
  change (Js.remove_chars separators "Z") with "Z".
  rewrite !append_nil_l. by rewrite !append_assoc.
Qed.

Lemma length_removed_year y :
  (4 <= String.length (Js.remove_chars separators (Js.iso_year y)))%nat.
Proof.
  unfold Js.iso_year. destruct ((0 <=? y) && (y <=? 9999)) eqn:E.
  - apply andb_prop in E as [H _]. apply Z.leb_le in H.
    rewrite remove_pad by lia. rewrite length_pad. lia.
  - destruct (Z.ltb_spec y 0).
    + rewrite append_cons, append_nil_l, remove_separator by (cbn; tauto).
      rewrite remove_pad by lia. rewrite length_pad. lia.
    + rewrite append_cons, append_nil_l. cbn.
      rewrite remove_pad by lia. rewrite length_pad. lia.
Qed.

Lemma length_stamp t : (14 <= String.length (stamp t))%nat.
Proof.
  unfold stamp. cbv zeta. rewrite !length_append, !length_pad.
  pose proof (length_removed_year (Js.c_year (Js.civil_of_day (Js.Day t)))). lia.
Qed.

Lemma backupName_stamp t :
  backupName t = "proxy_" +:+ Js.slice0 14 (stamp t) +:+ ".json".
Proof.
  unfold backupName. rewrite removed_toISOString. unfold Js.slice0.
  by rewrite substring_append_short by apply length_stamp.
Qed.

(** Two times in the same second have the same backup name. *)
Lemma backupName_same_second t1 t2 :
  t1 / 1000 = t2 / 1000 -> backupName t1 = backupName t2.
Proof.
  intros H. apply same_second_fields in H as (Hd & Hh & Hm & Hs).
  rewrite !backupName_stamp. unfold stamp. by rewrite Hd, Hh, Hm, Hs.
Qed.

(** ** Distinct seconds, distinct names *)

Lemma pad4_check : all_from (pad_ok 4) (Z.to_nat 10000) 0 = true.
Proof. vm_compute. reflexivity. Qed.

Lemma pad2_check : all_from (pad_ok 2) (Z.to_nat 100) 0 = true.
Proof. vm_compute. reflexivity. Qed.

Lemma pad4_ok n :
  0 <= n <= 9999 ->
  String.length (Js.pad 4 n) = 4%nat /\ digits_value 0 (Js.pad 4 n) = n.
Proof.
  intros H. pose proof (all_from_spec _ _ 0 n pad4_check ltac:(lia)) as Hn.
  apply andb_prop in Hn as [Hl Hv]. apply Nat.eqb_eq in Hl. lia.
Qed.

Lemma pad2_ok n :
  0 <= n <= 99 ->
  String.length (Js.pad 2 n) = 2%nat /\ digits_value 0 (Js.pad 2 n) = n.
Proof.
  intros H. pose proof (all_from_spec _ _ 0 n pad2_check ltac:(lia)) as Hn.
  apply andb_prop in Hn as [Hl Hv]. apply Nat.eqb_eq in Hl. lia.
Qed.

Lemma append_inj_length (a1 a2 b1 b2 : string) :
  String.length a1 = String.length a2 ->
  a1 +:+ b1 = a2 +:+ b2 -> a1 = a2 /\ b1 = b2.
Proof.
  revert a2. induction a1 as [|c a1 IH]; intros [|c' a2] Hl H; try discriminate.
  - done.
  - rewrite !append_cons in H. injection H as -> H. injection Hl as Hl.
    destruct (IH a2 Hl H) as [-> ->]. done.
Qed.

Lemma append_inj_r (a b c : string) : a +:+ c = b +:+ c -> a = b.
Proof.
  intros H. apply append_inj_length in H as [? _]; [done|].
  apply (f_equal String.length) in H. rewrite !length_append in H. lia.
Qed.

Lemma year_bounds t :
  four_digit_year t -> 0 <= Js.c_year (Js.civil_of_day (Js.Day t)) <= 9999.
Proof.
  intros Ht. rewrite civil_of_day_fields. cbn [Js.c_year].
  set (z := Js.Day t + 719468).
  assert (Hz : -60 <= z <= 3652364).
  { subst z. unfold Js.Day, Js.msPerDay, four_digit_year in *.
    Z.div_mod_to_equations. lia. }
  pose proof (era_ok_all (z mod 146097) ltac:(apply Z.mod_pos_bound; lia)) as H.
  unfold era_ok in H. cbv zeta in H.
  fold (month_of (z mod 146097)) in H.
  repeat (apply andb_prop in H as [H ?]).
  match goal with Hb : Bool.eqb _ _ = true |- _ => apply Bool.eqb_prop in Hb; rename Hb into Hy end.
  pose proof (Z.div_mod z 146097 ltac:(lia)) as Hdm.
  pose proof (Z.mod_pos_bound z 146097 ltac:(lia)) as Hmod.
  set (adj := if month_of (z mod 146097) <=? 2 then 1 else 0) in *.
  assert (0 <= adj <= 1) by (subst adj; destruct (_ <=? 2); lia).
  destruct (Z.leb_spec (z mod 146097) 146036) as [Hle|Hgt];
    symmetry in Hy; [apply Z.leb_le in Hy|apply Z.leb_gt in Hy]; lia.
Qed.

(** In the years 0 to 9999 the stamp has exactly fourteen digits. *)
Lemma stamp_four_digit_year t :
  four_digit_year t ->
  let c := Js.civil_of_day (Js.Day t) in
  stamp t
  = Js.pad 4 (Js.c_year c) +:+ Js.pad 2 (Js.c_month c) +:+ Js.pad 2 (Js.c_day c)
    +:+ Js.pad 2 (Js.HourFromTime t) +:+ Js.pad 2 (Js.MinFromTime t)
    +:+ Js.pad 2 (Js.SecFromTime t)
  /\ String.length (stamp t) = 14%nat.
Proof.
  intros Ht c. pose proof (year_bounds t Ht) as Hy. fold c in Hy.
  pose proof (civil_of_day_bounds (Js.Day t)) as [Hm Hd]. fold c in Hm, Hd.
  pose proof (time_fields_bounds t) as (Hh & Hmi & Hs & _).
  assert (E : stamp t
              = Js.pad 4 (Js.c_year c) +:+ Js.pad 2 (Js.c_month c)
                +:+ Js.pad 2 (Js.c_day c) +:+ Js.pad 2 (Js.HourFromTime t)
                +:+ Js.pad 2 (Js.MinFromTime t) +:+ Js.pad 2 (Js.SecFromTime t)).
  { unfold stamp. fold c. unfold Js.iso_year.
    assert ((0 <=? Js.c_year c) && (Js.c_year c <=? 9999) = true) as ->
      by (apply andb_true_intro; split; apply Z.leb_le; lia).
    by rewrite remove_pad by lia. }
  split; [exact E|]. rewrite E, !length_append.
  destruct (pad4_ok (Js.c_year c)) as [-> _]; [lia|].
  destruct (pad2_ok (Js.c_month c)) as [-> _]; [lia|].
  destruct (pad2_ok (Js.c_day c)) as [-> _]; [lia|].
  destruct (pad2_ok (Js.HourFromTime t)) as [-> _]; [lia|].
  destruct (pad2_ok (Js.MinFromTime t)) as [-> _]; [lia|].
  destruct (pad2_ok (Js.SecFromTime t)) as [-> _]; [lia|]. done.
Qed.

Lemma pad4_inj n1 n2 :
  0 <= n1 <= 9999 -> 0 <= n2 <= 9999 -> Js.pad 4 n1 = Js.pad 4 n2 -> n1 = n2.
Proof.
  intros H1 H2 H. apply (f_equal (digits_value 0)) in H.
  destruct (pad4_ok n1 H1) as [_ E1], (pad4_ok n2 H2) as [_ E2]. congruence.
Qed.

Lemma pad2_inj n1 n2 :
  0 <= n1 <= 99 -> 0 <= n2 <= 99 -> Js.pad 2 n1 = Js.pad 2 n2 -> n1 = n2.
Proof.
  intros H1 H2 H. apply (f_equal (digits_value 0)) in H.
  destruct (pad2_ok n1 H1) as [_ E1], (pad2_ok n2 H2) as [_ E2]. congruence.
Qed.

(** In the years 0 to 9999, two times with the same backup name are in the
    same second. *)
Lemma backupName_inj t1 t2 :
  four_digit_year t1 -> four_digit_year t2 ->
  backupName t1 = backupName t2 -> t1 / 1000 = t2 / 1000.
Proof.
  intros Ht1 Ht2 H. rewrite !backupName_stamp in H.
  apply append_inj_l in H. apply append_inj_r in H.
  destruct (stamp_four_digit_year t1 Ht1) as [E1 L1].
  destruct (stamp_four_digit_year t2 Ht2) as [E2 L2].
  pose proof (substring_all (stamp t1)) as S1. rewrite L1 in S1.
  pose proof (substring_all (stamp t2)) as S2. rewrite L2 in S2.
  unfold Js.slice0 in H. rewrite S1, S2, E1, E2 in H. clear E1 E2 L1 L2 S1 S2.
  pose proof (year_bounds t1 Ht1) as Hy1. pose proof (year_bounds t2 Ht2) as Hy2.
  pose proof (civil_of_day_bounds (Js.Day t1)) as [Hm1 Hd1].
  pose proof (civil_of_day_bounds (Js.Day t2)) as [Hm2 Hd2].
  pose proof (time_fields_bounds t1) as (Hh1 & Hmi1 & Hs1 & _).
  pose proof (time_fields_bounds t2) as (Hh2 & Hmi2 & Hs2 & _).
  apply append_inj_length in H as [HY H];
    [|transitivity 4%nat; [|symmetry]; apply pad4_ok; lia].
  do 3 (apply append_inj_length in H as [? H];
        [|transitivity 2%nat; [|symmetry]; apply pad2_ok; lia]).
  apply append_inj_length in H as [? ?];
    [|transitivity 2%nat; [|symmetry]; apply pad2_ok; lia].
  repeat match goal with
         | E : Js.pad 2 _ = Js.pad 2 _ |- _ => apply pad2_inj in E; [|lia..]
         end.
  apply pad4_inj in HY; [|lia..].
  assert (Hday : Js.Day t1 = Js.Day t2).
  { rewrite <- (day_of_civil_of_day (Js.Day t1)), <- (day_of_civil_of_day (Js.Day t2)).
    f_equal. destruct (Js.civil_of_day (Js.Day t1)), (Js.civil_of_day (Js.Day t2)).
    cbn in *. congruence. }
  unfold Js.Day, Js.HourFromTime, Js.MinFromTime, Js.SecFromTime,
    Js.TimeWithinDay, Js.msPerDay in *.
  Z.div_mod_to_equations. lia.
Qed.

(** ** Two archivals in one second *)

Section SameSecond.

Context (cfg : Config) (env : Env).

Local Abbreviation dir := (BACKUP_DIR cfg).
Local Abbreviation N := (MAX_BACKUPS cfg).

Lemma length_backup_files m :
  length (backup_files cfg m) = length (backup_names cfg m).
Proof.
  rewrite <- (length_map (fun nf : string * file => (nf.1, mtime nf.2))).
  rewrite <- backups_of_files. unfold backups. by rewrite length_map.
Qed.

(** Pruning keeps the names of the [N] first backups of the sorted list. *)
Lemma pruned_names (m1 : gmap string file) :
  let sorted := sort_desc (backups cfg m1) in
  backup_names cfg
    (fold_left (fun m d => delete (Path.join dir d.1) m) (drop N sorted) m1)
  ≡ₚ (take N sorted).*1.
Proof.
  intros sorted.
  assert (Hperm : sorted.*1 ≡ₚ backup_names cfg m1).
  { unfold sorted. rewrite sort_desc_Permutation. by rewrite backups_names. }
  assert (Hnd : NoDup ((take N sorted).*1 ++ (drop N sorted).*1)).
  { rewrite <- fmap_app, take_drop, Hperm. apply NoDup_backup_names. }
  apply NoDup_app in Hnd as (Htake & Hdis & _).
  apply NoDup_Permutation; [apply NoDup_backup_names|done|].
  intros n. rewrite elem_of_backup_names, lookup_fold_delete.
  destruct (decide (n ∈ (drop N sorted).*1)) as [Hd|Hd].
  - split; [by intros [_ [? ?]]|]. intros Ht. by apply Hdis in Ht.
  - rewrite <- elem_of_backup_names, <- Hperm.
    rewrite <- (take_drop N sorted) at 1. rewrite fmap_app, elem_of_app. tauto.
Qed.

Lemma pruned_count (m1 : gmap string file) :
  length (backup_names cfg
            (fold_left (fun m d => delete (Path.join dir d.1) m)
                       (drop N (sort_desc (backups cfg m1))) m1))
  = min N (length (backup_names cfg m1)).
Proof.
  rewrite pruned_names, length_fmap, length_take.
  by rewrite sort_desc_Permutation, <- backups_names, length_fmap.
Qed.

Lemma names_insert (m : gmap string file) n f :
  valid_name n ->
  backup_names cfg (<[Path.join dir n := f]> m)
  ≡ₚ if decide (n ∈ backup_names cfg m) then backup_names cfg m
     else n :: backup_names cfg m.
Proof.
  intros Hv. apply NoDup_Permutation; [apply NoDup_backup_names| |].
  - destruct (decide _); [apply NoDup_backup_names|].
    constructor; [done|apply NoDup_backup_names].
  - intros n'. rewrite elem_of_backup_names.
    destruct (decide (n' = n)) as [->|Hne].
    + rewrite lookup_insert_eq.
      destruct (decide _) as [Hin|Hout]; [|rewrite elem_of_cons];
        rewrite ?elem_of_backup_names in *; intuition eauto.
    + rewrite lookup_insert_ne by (intros H; by apply join_inj in H).
      rewrite <- elem_of_backup_names.
      destruct (decide _) as [Hin|Hout]; [|rewrite elem_of_cons];
        rewrite ?elem_of_backup_names in *; intuition eauto.
Qed.

(** C10, as the code has it.  The name of a backup is [proxy_] followed by
    the fourteen digits of the date and time to the second, so that two
    archivals within the same second write to the same path: when no call
    fails, the second archival overwrites the file of the first with its own
    text; and when the backup directory has no sub-directory called
    [proxy_*.json], as many backups remain after it as after the first.
    Names are distinct for archivals at least one second apart (in the years
    0 to 9999, where the year has four digits), and only for archivals in
    distinct seconds. *)
Theorem backups_within_one_second :
  (forall t1 t2, t1 / 1000 = t2 / 1000 -> backupName t1 = backupName t2)
  /\ (no_faults env ->
      forall (w : World) (c1 c2 : string) (t1 t2 : Z),
        t1 / 1000 = t2 / 1000 ->
        let p := Path.join dir (backupName t1) in
        let w1 := (rotateBackups cfg env c1 (set_now t1 w)).2 in
        let w2 := (rotateBackups cfg env c2 (set_now t2 w1)).2 in
        (exists doomed,
            files (fs w1)
            = fold_left (fun m (d : string * Z) => delete (Path.join dir d.1) m) doomed
                        (<[p := File c1 t1]> (files (fs w))))
        /\ (exists doomed,
              files (fs w2)
              = fold_left (fun m (d : string * Z) => delete (Path.join dir d.1) m) doomed
                          (<[p := File c2 t2]> (files (fs w1))))
        /\ (forall f, files (fs w2) !! p = Some f -> f = File c2 t2)
        /\ (backup_dirs cfg (dirs (fs w)) = [] ->
            length (backup_files cfg (files (fs w2)))
            = length (backup_files cfg (files (fs w1)))))
  /\ (forall t1 t2,
        four_digit_year t1 -> four_digit_year t2 ->
        (t1 + 1000 <= t2 -> backupName t1 <> backupName t2)
        /\ (backupName t1 <> backupName t2 -> t1 / 1000 <> t2 / 1000)).
Proof.
  split; [exact backupName_same_second|]. split.
  - intros Hnf w c1 c2 t1 t2 Hsec p w1 w2.
    destruct (rotateBackups_run cfg env Hnf c1 (set_now t1 w))
      as (wa & Hrun1 & Hg1 & _).
    destruct (rotateBackups_run cfg env Hnf c2 (set_now t2 wa))
      as (wb & Hrun2 & Hg2 & _).
    assert (w1 = wa) as -> by (unfold w1; by rewrite Hrun1).
    assert (w2 = wb) as -> by (unfold w2; by rewrite Hrun2).
    cbn [now set_now fs] in Hg1, Hg2.
    rewrite <- (backupName_same_second t1 t2 Hsec) in Hg2. fold p in Hg1, Hg2.
    split; [eauto|]. split; [eauto|]. split.
    + intros f. rewrite Hg2. unfold p. rewrite lookup_fold_delete.
      destruct (decide _); [done|]. rewrite lookup_insert_eq. by intros [= <-].
    + intros Hplain. clear Hg1 Hg2.
      destruct (rotateBackups_nf cfg env Hnf c1 (set_now t1 w) Hplain)
        as (wa' & Hrun1' & Hf1 & _).
      assert (wa' = wa) as -> by congruence.
      assert (Hplain1 : backup_dirs cfg (dirs (fs (set_now t2 wa))) = []).
      { cbn [set_now fs].
        pose proof (rotateBackups_dirs cfg env Hnf c1 (set_now t1 w)) as Hd.
        rewrite Hrun1 in Hd. cbn [snd] in Hd. by rewrite Hd. }
      destruct (rotateBackups_nf cfg env Hnf c2 (set_now t2 wa) Hplain1)
        as (wb' & Hrun2' & Hf2 & _).
      assert (wb' = wb) as -> by congruence.
      cbn [now set_now fs] in Hf1, Hf2.
      rewrite <- (backupName_same_second t1 t2 Hsec) in Hf2. fold p in Hf1, Hf2.
      rewrite !length_backup_files.
      rewrite Hf2 at 1. rewrite pruned_count.
      pose proof (names_insert (files (fs wa)) (backupName t1) (File c2 t2)
                    (valid_backupName t1)) as Hins.
      fold p in Hins. rewrite Hins.
      assert (Hle : (length (backup_names cfg (files (fs wa))) <= N)%nat).
      { rewrite Hf1, pruned_count. lia. }
      destruct (decide _) as [Hin|Hout]; [lia|]. cbn [length].
      (* the backup of the first archival was pruned at once: the directory
         was full *)
      assert (Hfull : length (backup_names cfg (files (fs wa))) = N).
      { rewrite Hf1, pruned_count. apply Nat.min_l.
        destruct (decide (N <= length (backup_names cfg
                                         (<[p:=File c1 t1]> (files (fs w)))))%nat)
          as [?|Hlt]; [done|]. exfalso. apply Hout.
        rewrite Hf1, pruned_names.
        rewrite take_ge
          by (rewrite sort_desc_Permutation; unfold backups; rewrite length_map; lia).
        rewrite sort_desc_Permutation, backups_names.
        apply elem_of_backup_names. split; [apply valid_backupName|].
        unfold p. by rewrite lookup_insert_eq. }
      lia.
  - intros t1 t2 H1 H2. split.
    + intros Hgap Heq. apply backupName_inj in Heq; [|done..].
      Z.div_mod_to_equations. lia.
    + intros Hne Hsec. by apply Hne, backupName_same_second.
Qed.

End SameSecond.

Lemma backups_within_one_second_witness :
  backupName 1793663160123 = backupName 1793663160999
  /\ backupName 1793663160123 <> backupName 1793663161123.
Proof.
  destruct (backups_within_one_second CONFIG (Example.env [])) as (H1 & _ & H3).
  split.
  - apply H1. reflexivity.
  - apply (H3 1793663160123 1793663161123); unfold four_digit_year; lia.
Defined.

(** C10, as stated, fails on the count: in a backup directory with three
    sub-directories called like backups, two of them newer than both
    archivals and one made between them, the first archival of the second
    unlinks its own backup and the second keeps it, so that the number of
    backups grows from 0 to 1. *)
Lemma same_second_count_grows :
  let env := Example.env [] in
  let t1 := 1793663160123 in
  let t2 := 1793663160999 in
  let w1 := (rotateBackups CONFIG env "a" (set_now t1 Example.three_dirs)).2 in
  let w2 := (rotateBackups CONFIG env "b" (set_now t2 w1)).2 in
  t1 / 1000 = t2 / 1000
  /\ backupName t1 = backupName t2
  /\ backup_dirs CONFIG (dirs (fs Example.three_dirs))
     = ["proxy_a.json"; "proxy_b.json"; "proxy_c.json"]
  /\ backup_files CONFIG (files (fs w1)) = []
  /\ backup_files CONFIG (files (fs w2))
     = [("proxy_20261102234600.json", File "b" t2)].
Proof. vm_compute. done. Qed.

(** ** The handler when no file-system call fails *)

Section Safe.

Context (cfg : Config) (env : Env) (Hnf : no_faults env).

Lemma safe_ret {A} (a : A) : safe (retS a).
Proof. intros w. by exists a. Qed.

Lemma safe_bind {A B} (m : Sync A) (f : A -> Sync B) :
  safe m -> (forall a, safe (f a)) -> safe (bindS m f).
Proof.
  intros Hm Hf w. unfold bindS. destruct (Hm w) as [a Ha].
  destruct (m w) as [r w1]. cbn in Ha. subst r. apply Hf.
Qed.

Lemma safe_try_catch {A} (m : Sync A) h : safe m -> safe (try_catch m h).
Proof.
  intros Hm w. unfold try_catch. destruct (Hm w) as [a Ha].
  destruct (m w) as [r w1]. cbn in Ha. subst r. by exists a.
Qed.

Lemma safe_log msg level : safe (log msg level).
Proof. intros w. by exists tt. Qed.

Lemma safe_existsSync p : safe (existsSync env p).
Proof. intros w. rewrite existsSync_nf by done. eauto. Qed.

Lemma safe_mkdirSync p : safe (mkdirSync env p).
Proof. intros w. rewrite mkdirSync_nf by done. eauto. Qed.

(** The atomic writer when no call fails: the write of the temporary file,
    then the rename. *)
Lemma atomicWrite_nf p c w :
  let tempPath := p +:+ ".tmp." +:+ Js.string_of_Z (now w) in
  let w1 :=
    after_fs (OpWrite tempPath c) true
      (MkFS (<[tempPath := File c (now w)]> (files (fs w))) (dirs (fs w))) w in
  atomicWrite env p c w
  = (Ok tt,
     after_fs (OpRename tempPath p) true
       (MkFS (<[p := File c (now w)]> (delete tempPath (files (fs w1)))) (dirs (fs w1)))
       w1).
Proof.
  intros tempPath w1. unfold atomicWrite, bindS, Date_now, try_catch. cbv zeta.
  fold tempPath. rewrite (writeFileSync_ok env tempPath c w) by apply Hnf.
  fold w1.
  rewrite (renameSync_ok env tempPath p w1 (File c (now w))); [done|apply Hnf|].
  apply lookup_insert_eq.
Qed.

Lemma safe_atomicWrite p c : safe (atomicWrite env p c).
Proof. intros w. rewrite atomicWrite_nf. by exists tt. Qed.

Lemma safe_ensureSystemConfig : safe (ensureSystemConfig cfg env).
Proof.
  unfold ensureSystemConfig. cbv zeta.
  repeat lazymatch goal with
         | |- forall _, _ => intro
         | |- safe (if ?b then _ else _) => destruct b
         | |- safe (bindS _ _) => apply safe_bind
         | |- safe (try_catch _ _) => apply safe_try_catch
         | |- safe (existsSync _ _) => apply safe_existsSync
         | |- safe (mkdirSync _ _) => apply safe_mkdirSync
         | |- safe (atomicWrite _ _ _) => apply safe_atomicWrite
         | |- safe (log _ _) => apply safe_log
         | |- safe (retS _) => apply safe_ret
         end.
Qed.

End Safe.

(** ** What the helpers leave alone *)

Section Quiet.

Context (cfg : Config) (env : Env).

Lemma quiet_Date_now p : quiet p Date_now.
Proof. done. Qed.

Lemma quiet_atomicWrite q p c :
  p <> q -> (forall t, p +:+ ".tmp." +:+ Js.string_of_Z t <> q) ->
  quiet q (atomicWrite env p c).
Proof.
  intros Hp Ht. unfold atomicWrite.
  apply quiet_bind; [apply quiet_Date_now|]. intros t.
  apply quiet_try_catch.
  - apply quiet_bind; [by apply quiet_writeFileSync|]. intros _.
    by apply quiet_renameSync.
  - intros e. apply quiet_bind; [apply quiet_existsSync|]. intros present.
    apply quiet_bind; [|intros _; apply quiet_throw].
    destruct present; [|apply quiet_ret].
    apply quiet_try_catch; [by apply quiet_unlinkSync|]. intros _. apply quiet_ret.
Qed.

Lemma quiet_ensureSystemConfig q :
  Path.join (BASE_DIR cfg) (SYSTEM_FILE cfg) <> q ->
  (forall t, Path.join (BASE_DIR cfg) (SYSTEM_FILE cfg) +:+ ".tmp." +:+ Js.string_of_Z t <> q) ->
  quiet q (ensureSystemConfig cfg env).
Proof.
  intros Hp Ht. unfold ensureSystemConfig. cbv zeta.
  repeat lazymatch goal with
         | |- forall _, _ => intro
         | |- quiet _ (if ?b then _ else _) => destruct b
         | |- quiet _ (bindS _ _) => apply quiet_bind
         | |- quiet _ (try_catch _ _) => apply quiet_try_catch
         | |- quiet _ (existsSync _ _) => apply quiet_existsSync
         | |- quiet _ (mkdirSync _ _) => apply quiet_mkdirSync
         | |- quiet _ (atomicWrite _ _ _) => by apply quiet_atomicWrite
         | |- quiet _ (log _ _) => apply quiet_log
         | |- quiet _ (retS _) => apply quiet_ret
         | |- quiet _ (throwS _) => apply quiet_throw
         end.
Qed.

Lemma quiet_rotateBackups q c :
  (forall n, Path.join (BACKUP_DIR cfg) n <> q) ->
  quiet q (rotateBackups cfg env c).
Proof.
  intros Hq. unfold rotateBackups. cbv zeta.
  repeat lazymatch goal with
         | |- forall _, _ => intro
         | |- quiet _ (prune _ _) => unfold prune; cbv zeta
         | |- quiet _ (if ?b then _ else _) => destruct b
         | |- quiet _ (bindS _ _) => apply quiet_bind
         | |- quiet _ (try_catch _ _) => apply quiet_try_catch
         | |- quiet _ (existsSync _ _) => apply quiet_existsSync
         | |- quiet _ (mkdirSync _ _) => apply quiet_mkdirSync
         | |- quiet _ (readdirSync _ _) => apply quiet_readdirSync
         | |- quiet _ (stat_mtime _ _) => apply quiet_stat_mtime
         | |- quiet _ (writeFileSync _ _ _) => apply quiet_writeFileSync; apply Hq
         | |- quiet _ (unlinkSync _ _) => apply quiet_unlinkSync; apply Hq
         | |- quiet _ (forEach _ _) => apply quiet_forEach
         | |- quiet _ (mapS _ _) => apply quiet_mapS
         | |- quiet _ Date_now => apply quiet_Date_now
         | |- quiet _ (log _ _) => apply quiet_log
         | |- quiet _ (retS _) => apply quiet_ret
         | |- quiet _ (throwS _) => apply quiet_throw
         end.
Qed.

End Quiet.

(** ** Rollback *)


Lemma quiet_framed {A} p (m : Sync A) w : quiet p m -> framed p w (m w).2.
Proof. intros H. apply H. Qed.

Lemma run_bindT {L A B} (m : Task L A) (f : A -> Task L B) l w :
  run (bindT m f l w)
  = match run (m l w) with
    | (Ok a, l', w') => run (f a l' w')
    | (Throw e, l', w') => (Throw e, l', w')
    end.
Proof. apply run_bind. Qed.

Lemma run_lift_ok {L A B} (m : Sync A) (f : A -> Task L B) l w a w1 :
  m w = (Ok a, w1) -> run (bindT (lift m) f l w) = run (f a l w1).
Proof. intros H. by rewrite run_bindT, run_lift, H. Qed.

Lemma run_lift_throw {L A B} (m : Sync A) (f : A -> Task L B) l w e w1 :
  m w = (Throw e, w1) -> run (bindT (lift m) f l w) = (Throw e, l, w1).
Proof. intros H. by rewrite run_bindT, run_lift, H. Qed.

Lemma run_tryCatch {L A} (m : Task L A) h l w :
  run (tryCatch m h l w)
  = match run (m l w) with
    | (Ok a, l', w') => (Ok a, l', w')
    | (Throw e, l', w') => run (h e l' w')
    end.
Proof. apply run_catch. Qed.

Lemma sys_temp_neq_target t :
  Path.join (BASE_DIR CONFIG) (SYSTEM_FILE CONFIG) +:+ ".tmp." +:+ Js.string_of_Z t
  <> targetPath CONFIG.
Proof. intros H. discriminate H. Qed.


Lemma sys_neq_target :
  Path.join (BASE_DIR CONFIG) (SYSTEM_FILE CONFIG) <> targetPath CONFIG.
Proof. discriminate. Qed.

Section Steps.

Context (env : Env) (Hnf : no_faults env).

Local Abbreviation target := (targetPath CONFIG).

Lemma ensure_step w :
  exists w1, ensureSystemConfig CONFIG env w = (Ok tt, w1) /\ framed target w w1.
Proof.
  destruct (safe_ensureSystemConfig CONFIG env Hnf w) as [[] H].
  pose proof (quiet_framed target _ w
                (quiet_ensureSystemConfig CONFIG env target sys_neq_target
                   sys_temp_neq_target)) as Hf.
  destruct (ensureSystemConfig CONFIG env w) as [r w1]. cbn in *. subst r. eauto.
Qed.


(** The atomic writer when no call fails: the file holds the content, and
    nothing else of note changed. *)
Lemma atomicWrite_step p c w :
  exists w1,
    atomicWrite env p c w = (Ok tt, w1)
    /\ text_at p (fs w1) = Some c
    /\ isDeploying w1 = isDeploying w /\ now w1 = now w
    /\ (forall cmd, nexec cmd (trace w1) = nexec cmd (trace w)).
Proof.
  eexists. split; [apply (atomicWrite_nf env Hnf)|].
  split; [|done].
  unfold text_at. cbn. by rewrite lookup_insert_eq.
Qed.

Lemma runCmd_ok cmd w :
  exec_out env (nexec cmd (trace w)) cmd = ExecOk ->
  runCmd CONFIG env cmd w = (Ok tt, emit (EvExec cmd ExecOk) w).
Proof. intros H. unfold runCmd, bindS, execSync. by rewrite H. Qed.

Lemma runCmd_fails cmd w :
  exec_out env (nexec cmd (trace w)) cmd <> ExecOk ->
  runCmd CONFIG env cmd w
  = (Throw (command_error CONFIG cmd (exec_out env (nexec cmd (trace w)) cmd)),
     emit (EvExec cmd (exec_out env (nexec cmd (trace w)) cmd)) w).
Proof.
  intros H. unfold runCmd, bindS, execSync.
  by destruct (exec_out env (nexec cmd (trace w)) cmd).
Qed.

End Steps.

Lemma nexec_app cmd a b : nexec cmd (a ++ b) = (nexec cmd a + nexec cmd b)%nat.
Proof. unfold nexec. by rewrite List.filter_app, length_app. Qed.

Lemma nexec_rev cmd l : nexec cmd (rev l) = nexec cmd l.
Proof.
  induction l as [|e l IH]; [done|]. cbn [rev]. rewrite nexec_app, IH.
  unfold nexec. cbn. destruct (is_exec_of cmd e); cbn; lia.
Qed.

Lemma nexec_intersperse cmd x l :
  is_exec_of cmd x = false -> nexec cmd (intersperse x l) = nexec cmd l.
Proof.
  intros Hx. induction l as [|a [|b r] IH]; [done..|].
  change (intersperse x (a :: b :: r)) with (a :: x :: intersperse x (b :: r)).
  unfold nexec in *. cbn [List.filter]. rewrite Hx.
  destruct (is_exec_of cmd a); cbn [length]; rewrite IH; reflexivity.
Qed.

Lemma nexec_runs cmd c (f : nat -> exec_outcome) l :
  nexec cmd (map (fun j => EvExec c (f j)) l)
  = if String.eqb c cmd then length l else 0%nat.
Proof.
  unfold nexec. induction l as [|a l IH]; cbn; [by destruct (String.eqb c cmd)|].
  destruct (String.eqb c cmd); cbn; by rewrite IH.
Qed.

Section TryBlock.

Context (env : Env) (Hnf : no_faults env).

Local Abbreviation target := (targetPath CONFIG).
Local Abbreviation check := (CHECK (CMD CONFIG)).
Local Abbreviation restart := (RESTART (CMD CONFIG)).
Local Abbreviation status := (STATUS (CMD CONFIG)).

Lemma log_eq msg level w :
  log msg level w = (Ok tt, emit (EvLog (log_line (now w) msg level)) w).
Proof. reflexivity. Qed.

Lemma readFileSync_nf p w fl :
  files (fs w) !! p = Some fl ->
  readFileSync env p w
  = (Ok (utf8_decode env (data fl)), after_fs (OpRead p) true (fs w) w).
Proof. intros H. unfold readFileSync. rewrite fs_prim_normal by done. by rewrite H. Qed.

(** A payload that is not empty was taken out of a body that is an object. *)
Lemma destructure_truthy body :
  Js.truthy (own body "content") = true ->
  destructure "req.body" body "content" = Ok (own body "content").
Proof. by destruct body. Qed.

Lemma decryptAndParse_ok body text raw w :
  let c := own body "content" in
  Js.truthy c = true ->
  AES_decrypt_utf8 env c (SECRET CONFIG) = Ok text ->
  text <> "" ->
  JSON_parse env text = Ok raw ->
  decryptAndParse CONFIG env body w = (Ok raw, w).
Proof.
  intros c Ht Hd Hne Hp. unfold decryptAndParse.
  unfold bindS at 1, of_result at 1. rewrite (destructure_truthy body Ht).
  fold c. rewrite Ht. cbn [negb].
  unfold try_catch, bindS, of_result. rewrite Hd.
  assert (String.eqb text "" = false) as -> by by apply String.eqb_neq.
  by rewrite Hp.
Qed.


End TryBlock.

Section CatchBlock.

Context (env : Env) (Hnf : no_faults env).

Local Abbreviation target := (targetPath CONFIG).
Local Abbreviation check := (CHECK (CMD CONFIG)).
Local Abbreviation restart := (RESTART (CMD CONFIG)).
Local Abbreviation status := (STATUS (CMD CONFIG)).

(** The [catch] block when there is something to roll back to, whatever the
    restart of the rollback does: the text is written back, which leaves the
    world [restored], and the rest follows. *)
Lemma deploy_catch_rollback error old w :
  old <> "" ->
  let out := exec_out env (nexec restart (trace w)) restart in
  let reprobe := exec_out env (nexec status (trace w)) status in
  exists restored w',
    run (deploy_catch CONFIG env error {| rollbackContent := Some old |} w)
    = (Ok (failed error), {| rollbackContent := Some old |}, w')
    /\ text_at target (fs restored) = Some old
    /\ isDeploying restored = isDeploying w
    /\ (forall cmd, nexec cmd (trace restored) = nexec cmd (trace w))
    /\ trace w' = rollback_events CONFIG (now restored) out reprobe ++ trace restored
    /\ fs w' = fs restored
    /\ isDeploying w' = isDeploying w.
Proof.
  intros Hne out reprobe.
  unfold deploy_catch.
  rewrite (run_lift_ok _ _ _ _ _ _ (log_eq _ _ _)).
  set (w1 := emit _ w).
  rewrite run_bindT, run_tryCatch, run_bindT. cbn [get_local run rollbackContent].
  assert (truthy_text (Some old) = true) as ->
    by (cbn; by apply negb_true_iff, String.eqb_neq).
  rewrite (run_lift_ok _ _ _ _ _ _ (log_eq _ _ _)).
  set (w2 := emit _ w1).
  destruct (atomicWrite_step env Hnf target old w2) as (w3 & E3 & T3 & L3 & _ & N3).
  cbn [default].
  rewrite (run_lift_ok _ _ _ _ _ _ E3).
  assert (N03 : forall cmd, nexec cmd (trace w3) = nexec cmd (trace w))
    by (intros cmd; by rewrite N3).
  exists w3.
  destruct out eqn:Eout.
  - rewrite (run_lift_ok _ _ _ _ _ _
               (runCmd_ok env restart w3 ltac:(rewrite N03; exact Eout))).
    rewrite run_bindT, run_sleep.
    set (w5 := set_now _ _).
    rewrite run_bindT, run_lift, checkServiceHealth_eq. cbn [fst snd].
    change (nexec status (trace w5)) with (nexec status (trace w3)).
    rewrite N03. fold reprobe.
    exists (emit (EvLog (log_line (now w3 + 2000)
                           (rollback_verdict reprobe).1 (rollback_verdict reprobe).2))
              (emit (EvExec status reprobe)
                 (set_now (now w3 + 2000)
                    (emit (EvSleep 2000) (emit (EvExec restart ExecOk) w3))))).
    split; [by destruct reprobe|]. by repeat split.
  - rewrite (run_lift_throw _ _ _ _ _ _
               (runCmd_fails env restart w3
                  ltac:(rewrite N03; fold out; by rewrite Eout))).
    rewrite run_lift, log_eq. cbn [fst snd]. rewrite N03. fold out. rewrite Eout.
    eexists. split; [reflexivity|]. by repeat split.
  - rewrite (run_lift_throw _ _ _ _ _ _
               (runCmd_fails env restart w3
                  ltac:(rewrite N03; fold out; by rewrite Eout))).
    rewrite run_lift, log_eq. cbn [fst snd]. rewrite N03. fold out. rewrite Eout.
    eexists. split; [reflexivity|]. by repeat split.
Qed.

End CatchBlock.




(** The text that is put back is the text that was read.  A business file
    with a byte that is no UTF-8, [7b ff 7d], comes back with U+FFFD in its
    place, [7b ef bf bd 7d]. *)
Lemma rollback_restores_decoded_text :
  let probe := "rc-service sing-box status" in
  let w' :=
    (run (handle_deploy CONFIG (Example.env [(probe, 1%nat)])
            (Example.request (Js.VStr "{}")) Example.garbled)).2 in
  text_at Example.proxy (fs Example.garbled)
  = Some (String "{" (String (ascii_of_nat 255) "}"))
  /\ text_at Example.proxy (fs w')
     = Some (String "{" (String (ascii_of_nat 239) (String (ascii_of_nat 191)
               (String (ascii_of_nat 189) "}")))).
Proof. vm_compute. done. Qed.

(** ** A payload that cannot be read *)

Lemma decryptAndParse_fails env body e w :
  StepOneError env body e -> decryptAndParse CONFIG env body w = (Throw e, w).
Proof.
  unfold decryptAndParse, try_catch, bindS, of_result, throwS.
  intros [e' Hb|c e' Hb [Ht|m Ht Hd|Ht Hd|text m Ht Hd Hne Hp]]; rewrite Hb;
    [done|rewrite Ht; cbn [negb]..]; [done|rewrite Hd..]; [done|done|].
  assert (String.eqb text "" = false) as -> by by apply String.eqb_neq.
  by rewrite Hp.
Qed.

Lemma decryptAndParse_throws env body e w w' :
  decryptAndParse CONFIG env body w = (Throw e, w') -> StepOneError env body e.
Proof.
  unfold decryptAndParse, try_catch, bindS, of_result, throwS.
  destruct (destructure "req.body" body "content") as [c|e'] eqn:Hb.
  2:{ intros [= <- _]. by apply body_missing. }
  intros H. apply (payload_fails _ _ c); [done|]. revert H.
  destruct (Js.truthy c) eqn:Ht; cbn [negb].
  - destruct (AES_decrypt_utf8 env c (SECRET CONFIG)) as [text|m] eqn:Hd.
    + destruct (String.eqb text "") eqn:He.
      * apply String.eqb_eq in He as ->. intros [= <- _].
        by apply payload_secret_mismatch.
      * apply String.eqb_neq in He.
        destruct (JSON_parse env text) as [raw|m] eqn:Hp; [done|].
        intros [= <- _]. by eapply payload_unparsable.
    + intros [= <- _]. by apply payload_undecryptable.
  - intros [= <- _]. by apply payload_empty.
Qed.

(** C1.  What the handler does with a payload that cannot be read, or with a
    request that has no body to take the payload from, on a host whose
    business file exists, when no file-system call fails: STEP 1 throws
    before [rollbackContent] is assigned, so the [catch] block takes the
    branch meant for a failed first deployment and unlinks the business
    file.  The caller is answered 500 with the message of STEP 1, and the
    business file is gone. *)
Theorem payload_failure_unlinks_business_file
    (env : Env) (req : Request) (w : World) (e : string) (fl : file) :
  no_faults env ->
  authorization req = Some ("Bearer " +:+ TOKEN CONFIG) ->
  isDeploying w = false ->
  StepOneError env (req_body req) e ->
  files (fs w) !! targetPath CONFIG = Some fl ->
  exists w',
    run (handle_deploy CONFIG env req w)
    = (Ok (failed e), {| rollbackContent := None |}, w')
    /\ files (fs w') !! targetPath CONFIG = None
    /\ isDeploying w' = false.
Proof.
  intros Hnf Hauth Hlock He Hfl.
  unfold handle_deploy, deploy.
  rewrite (proj2 (bad_credential_spec CONFIG _) Hauth), Hlock.
  unfold tryFinally, tryCatch. rewrite run_finally, run_catch.
  unfold deploy_try.
  rewrite (run_lift_ok _ _ _ _ _ _ (log_eq _ _ _)).
  set (w1 := emit _ _).
  destruct (ensure_step env Hnf w1) as (w2 & E2 & F2).
  rewrite (run_lift_ok _ _ _ _ _ _ E2).
  rewrite (run_lift_throw _ _ _ _ _ _ (decryptAndParse_fails _ _ _ _ He)).
  unfold deploy_catch.
  rewrite (run_lift_ok _ _ _ _ _ _ (log_eq _ _ _)).
  set (w3 := emit _ w2).
  rewrite run_bindT, run_tryCatch, run_bindT. cbn [get_local run rollbackContent truthy_text].
  assert (Efl : files (fs w3) !! targetPath CONFIG = Some fl).
  { change (fs w3) with (fs w2). destruct F2 as (_ & _ & _ & ->). exact Hfl. }
  rewrite (run_lift_ok _ _ _ _ _ _ (existsSync_nf env Hnf _ _)).
  rewrite Efl, bool_decide_eq_true_2 by eauto. cbn [orb negb andb].
  set (w4 := after_fs _ _ _ w3).
  assert (E5 : try_catch (unlinkSync env (targetPath CONFIG)) (fun _ => retS tt) w4
               = (Ok tt, after_fs (OpUnlink (targetPath CONFIG)) true
                           (MkFS (delete (targetPath CONFIG) (files (fs w4))) (dirs (fs w4)))
                           w4)).
  { unfold try_catch. by rewrite (unlinkSync_nf env Hnf _ w4 fl Efl). }
  rewrite (run_lift_ok _ _ _ _ _ _ E5).
  rewrite run_lift. cbn [log_eq fst snd run retT].
  eexists. split; [reflexivity|]. cbn [fs emit set_isDeploying after_fs set_fs files isDeploying].
  split; [apply lookup_delete_eq|done].
Qed.

Lemma payload_failure_unlinks_business_file_witness :
  exists w',
    files (fs Example.installed) !! Example.proxy
    = Some (File "{'route':{}}" 1793000000000)
    /\ run (handle_deploy CONFIG (Example.env []) (Example.request (Js.VStr "not json"))
              Example.installed)
       = (Ok (failed "数据解析失败: Unexpected token"), {| rollbackContent := None |}, w')
    /\ files (fs w') !! Example.proxy = None.
Proof.
  destruct (payload_failure_unlinks_business_file (Example.env [])
              (Example.request (Js.VStr "not json")) Example.installed
              "数据解析失败: Unexpected token" (File "{'route':{}}" 1793000000000))
    as (w' & Hrun & Hgone & _).
  - intros n op. reflexivity.
  - reflexivity.
  - reflexivity.
  - apply (payload_fails _ _ (Js.VStr "not json")); [reflexivity|].
    apply (payload_unparsable _ _ "not json" "Unexpected token");
      [reflexivity|reflexivity|discriminate|reflexivity].
  - reflexivity.
  - exists w'. split; [reflexivity|]. split; [exact Hrun|exact Hgone].
Defined.

(** The kinds of request STEP 1 refuses, on the example host: the payload is
    empty, not decryptable or not JSON, or the request has no body.  Each
    time the answer is 500 and the business file, which was there, is
    gone. *)
Lemma payload_failures_example :
  text_at Example.proxy (fs Example.installed) = Some "{'route':{}}"
  /\ forallb
       (fun req =>
          match run (handle_deploy CONFIG (Example.env []) req Example.installed) with
          | (Ok answer, _, w') =>
              Nat.eqb (status answer) 500
              && match text_at Example.proxy (fs w') with None => true | Some _ => false end
          | (Throw _, _, _) => false
          end)
       (map Example.request
          [Js.VUndefined; Js.VNull; Js.VStr EmptyString; Js.VBool true;
           Js.VStr "not json"]
        ++ [{| authorization := Some "Bearer my_token_123";
               req_body := Js.VUndefined |};
            {| authorization := Some "Bearer my_token_123";
               req_body := Js.VObj [] |}])
     = true.
Proof. split; vm_compute; reflexivity. Qed.

(** * The client plug-in *)

(** ** The address of the receiver *)

Lemma all_slashes_append a b :
  Client.all_slashes (a +:+ b) = Client.all_slashes a && Client.all_slashes b.
Proof.
  induction a as [|c a IH]; [done|].
  rewrite append_cons. cbn [Client.all_slashes]. by rewrite IH, andb_assoc.
Qed.

Lemma strip_all_slashes t :
  Client.all_slashes t = true -> Client.strip_trailing_slashes t = "".
Proof. destruct t as [|c t]; [done|]. cbn. by intros ->. Qed.

Lemma strip_append_slashes a t :
  Client.all_slashes t = true ->
  Client.strip_trailing_slashes (a +:+ t) = Client.strip_trailing_slashes a.
Proof.
  intros Ht. induction a as [|c a IH].
  - rewrite append_nil_l. by apply strip_all_slashes.
  - rewrite append_cons. cbn [Client.strip_trailing_slashes].
    by rewrite all_slashes_append, Ht, andb_true_r, IH.
Qed.

Lemma strip_empty s :
  Client.strip_trailing_slashes s = "" -> Client.all_slashes s = true.
Proof.
  destruct s as [|c s]; [done|]. cbn.
  by destruct (Ascii.eqb c "/" && Client.all_slashes s).
Qed.

Lemma strip_not_slashes a :
  Client.strip_trailing_slashes a = ""
  \/ Client.all_slashes (Client.strip_trailing_slashes a) = false.
Proof.
  induction a as [|c a IH]; [by left|].
  cbn [Client.strip_trailing_slashes].
  destruct (Ascii.eqb c "/" && Client.all_slashes a) eqn:E; [by left|].
  right. cbn [Client.all_slashes].
  destruct (Ascii.eqb c "/") eqn:Ec; [|done]. cbn in *.
  destruct IH as [H|H]; [|done].
  apply strip_empty in H. congruence.
Qed.

Lemma endsWith_slash s :
  Js.endsWith s "/" = true -> exists r, s = r +:+ "/".
Proof.
  unfold Js.endsWith. intros H. apply andb_prop in H as [_ H].
  apply String.eqb_eq in H. cbn [String.length] in H.
  induction s as [|c s IH]; [discriminate H|].
  destruct s as [|d s].
  - cbn in H. injection H as ->. by exists "".
  - cbn [String.length] in H, IH. rewrite Nat.sub_succ, Nat.sub_0_r in H, IH.
    cbn [String.substring] in H.
    destruct (IH H) as [r Hr].
    exists (String c r). by rewrite append_cons, <- Hr.
Qed.

Lemma strip_fixed r :
  Client.strip_trailing_slashes (r +:+ "/") <> r +:+ "/".
Proof.
  rewrite strip_append_slashes by done.
  induction r as [|c r IH]; [done|].
  rewrite append_cons. cbn [Client.strip_trailing_slashes].
  destruct (_ && _); [done|]. intros [= H]. by apply IH.
Qed.

Lemma strip_idempotent a :
  Client.strip_trailing_slashes (Client.strip_trailing_slashes a)
  = Client.strip_trailing_slashes a.
Proof.
  induction a as [|c a IH]; [done|].
  cbn [Client.strip_trailing_slashes].
  destruct (Ascii.eqb c "/" && Client.all_slashes a) eqn:E; [done|].
  cbn [Client.strip_trailing_slashes]. rewrite IH.
  destruct (Ascii.eqb c "/") eqn:Ec; [|done]. cbn in E |- *.
  destruct (strip_not_slashes a) as [H|H]; [|by rewrite H].
  apply strip_empty in H. congruence.
Qed.

(** X1.  Slashes at the end of the configured address do not matter: the URL
    posted to is the same with any number of them, and what precedes
    [/deploy] in it never ends with a slash that came from the address: the
    address without its final slashes is left as it is by another removal and
    does not end with a slash. *)
Theorem targetUrl_trailing_slashes (address slashes : string) :
  Client.all_slashes slashes = true ->
  Client.targetUrl (address +:+ slashes) = Client.targetUrl address
  /\ Js.endsWith (Client.strip_trailing_slashes address) "/" = false
  /\ Client.strip_trailing_slashes (Client.strip_trailing_slashes address)
     = Client.strip_trailing_slashes address.
Proof.
  intros H. split; [|split].
  - unfold Client.targetUrl. cbv zeta. by rewrite strip_append_slashes.
  - destruct (Js.endsWith _ "/") eqn:E; [|done].
    apply endsWith_slash in E as [r Hr].
    pose proof (strip_idempotent address) as Hi. rewrite Hr in Hi.
    by apply strip_fixed in Hi.
  - apply strip_idempotent.
Qed.

Lemma targetUrl_trailing_slashes_witness :
  Client.targetUrl ("gateway.lan:8080" +:+ "///") = Client.targetUrl "gateway.lan:8080"
  /\ Js.endsWith (Client.strip_trailing_slashes "gateway.lan:8080") "/" = false
  /\ Client.strip_trailing_slashes (Client.strip_trailing_slashes "gateway.lan:8080")
     = Client.strip_trailing_slashes "gateway.lan:8080".
Proof. apply (targetUrl_trailing_slashes "gateway.lan:8080" "///"). reflexivity. Defined.

Lemma prefix_strip p : forall s,
  Path.has_slash p = false ->
  String.prefix p (Client.strip_trailing_slashes s) = String.prefix p s.
Proof.
  induction p as [|c p IH]; intros s Hp.
  - by destruct (Client.strip_trailing_slashes s), s.
  - destruct s as [|d s]; [done|].
    cbn [Client.strip_trailing_slashes].
    cbn in Hp. apply orb_false_elim in Hp as [Hc Hp].
    destruct (Ascii.eqb d "/") eqn:Ed.
    + apply Ascii.eqb_eq in Ed as ->. cbn [andb].
      assert (c <> "/"%char) by (intros ->; by rewrite Ascii.eqb_refl in Hc).
      destruct (Client.all_slashes s); cbn; [|]; by destruct (ascii_dec c "/").
    + cbn [andb String.prefix]. destruct (ascii_dec c d); [by apply IH|done].
Qed.

Lemma prefix_append p : forall s t,
  String.prefix p s = true -> String.prefix p (s +:+ t) = true.
Proof.
  induction p as [|c p IH]; intros s t H; [by destruct (s +:+ t)|].
  destruct s as [|d s]; [done|]. rewrite append_cons. cbn in *.
  destruct (ascii_dec c d); [by apply IH|done].
Qed.

(** X2.  The URL posted to always starts with [http] and ends with [/deploy].
    The plug-in puts [http://] in front exactly when the address as
    configured does not start with the four letters [http]; it does not look
    for a scheme, so that a host name such as [httpd.lan] gets none. *)
Theorem targetUrl_scheme (address : string) :
  Js.startsWith (Client.targetUrl address) "http" = true
  /\ Js.endsWith (Client.targetUrl address) "/deploy" = true
  /\ Client.targetUrl address
     = (if Js.startsWith address "http" then "" else "http://")
       +:+ Client.strip_trailing_slashes address +:+ "/deploy"
  /\ Client.targetUrl "httpd.lan" = "httpd.lan/deploy".
Proof.
  assert (Hex : Client.targetUrl "httpd.lan" = "httpd.lan/deploy") by reflexivity.
  revert Hex. generalize (Client.targetUrl "httpd.lan"). intros example Hex.
  unfold Client.targetUrl, Js.startsWith. cbv zeta.
  rewrite prefix_strip by done.
  destruct (String.prefix "http" address) eqn:E.
  - rewrite append_nil_l. repeat split; [|apply endsWith_append|exact Hex].
    apply prefix_append. by rewrite prefix_strip.
  - repeat split; [|exact Hex].
    rewrite <- append_assoc. apply endsWith_append.
Qed.

(** ** The settings *)

Lemma or_default_nonempty setting preset :
  preset <> "" -> Client.or_default setting preset <> "".
Proof.
  intros Hp. unfold Client.or_default. destruct setting as [s|]; [|done].
  destruct (String.eqb s "") eqn:E; [done|]. by apply String.eqb_neq.
Qed.

(** X3.  The settings are never found missing: a setting that is unset or
    empty is replaced by its preset, and the presets are not empty, so
    [Deploy] never throws its request to configure the plug-in.  Each
    setting read is the configured one when that is not empty, and the preset
    otherwise. *)
Theorem read_settings_never_fails (ServerAddress Token Secret : option string) :
  Client.read_settings ServerAddress Token Secret
  = Ok {| Client.address :=
            Client.or_default ServerAddress (Client.address Client.DEFAULT_CONFIG);
          Client.token := Client.or_default Token (Client.token Client.DEFAULT_CONFIG);
          Client.secret :=
            Client.or_default Secret (Client.secret Client.DEFAULT_CONFIG) |}
  /\ (forall s, s <> "" -> Client.or_default (Some s) (Client.address Client.DEFAULT_CONFIG) = s)
  /\ Client.or_default (Some "") "http://192.168.3.103:8080" = "http://192.168.3.103:8080"
  /\ Client.or_default None "http://192.168.3.103:8080" = "http://192.168.3.103:8080".
Proof.
  split; [|split; [|done]].
  - unfold Client.read_settings. cbv zeta.
    assert (forall setting preset, preset <> "" ->
              String.eqb (Client.or_default setting preset) "" = false) as H
      by (intros; by apply String.eqb_neq, or_default_nonempty).
    by rewrite !H.
  - intros s Hs. unfold Client.or_default.
    by apply String.eqb_neq in Hs as ->.
Qed.

(** ** The plug-in and the receiver *)

Lemma all_blank_append a b :
  Client.all_blank (a +:+ b) = Client.all_blank a && Client.all_blank b.
Proof.
  induction a as [|c a IH]; [done|].
  rewrite append_cons. cbn [Client.all_blank]. by rewrite IH, andb_assoc.
Qed.

Lemma drop_all_blank s :
  Client.all_blank s = true -> Client.drop_trailing_blanks s = "".
Proof. intros H. destruct s; [done|]. cbn [Client.drop_trailing_blanks]. by rewrite H. Qed.

(** Blanks at the end make no difference. *)
Lemma drop_trailing_blanks_append a b :
  Client.all_blank b = true ->
  Client.drop_trailing_blanks (a +:+ b) = Client.drop_trailing_blanks a.
Proof.
  intros Hb. induction a as [|c a IH]; [by apply drop_all_blank|].
  rewrite append_cons. cbn [Client.drop_trailing_blanks].
  rewrite <- append_cons, all_blank_append, Hb, andb_true_r.
  by rewrite IH.
Qed.

(** The header the receiver gets. *)
Lemma bearer_field_value t :
  Client.field_value ("Bearer " +:+ t)
  = if Client.all_blank t then "Bearer"
    else "Bearer " +:+ Client.drop_trailing_blanks t.
Proof.
  unfold Client.field_value.
  change ("Bearer " +:+ t)
    with (String "B" (String "e" (String "a" (String "r" (String "e"
            (String "r" (String " " t))))))).
  cbn. by destruct (Client.all_blank t).
Qed.

(** X4.  The plug-in is let in by the receiver exactly when its token, without
    the blanks at its end, is the receiver's: the header it sends is [Bearer]
    and its token, and HTTP hands the value of a header field over without
    the blanks around it.  So the receiver's token is let in, also with
    blanks after it.  A plug-in and a receiver both left with their presets
    agree. *)
Theorem client_authorized (cenv : Client.Env) (s : Client.Settings) (config : Js.value) :
  (bad_credential CONFIG (authorization (Client.request cenv s config)) = false
   <-> Client.drop_trailing_blanks (Client.token s) = TOKEN CONFIG)
  /\ (forall blanks,
        Client.all_blank blanks = true ->
        Client.drop_trailing_blanks (TOKEN CONFIG +:+ blanks) = TOKEN CONFIG)
  /\ Client.token Client.DEFAULT_CONFIG = TOKEN CONFIG
  /\ Client.secret Client.DEFAULT_CONFIG = SECRET CONFIG.
Proof.
  split; [|split; [|done]].
  - rewrite bad_credential_spec. cbn [Client.request authorization].
    rewrite bearer_field_value.
    destruct (Client.all_blank (Client.token s)) eqn:E.
    + rewrite (drop_all_blank _ E). split; discriminate.
    + split.
      * intros [= H]. by apply append_inj_l in H.
      * by intros ->.
  - intros blanks Hb. by rewrite drop_trailing_blanks_append.
Qed.

Lemma client_authorized_witness :
  let cenv := {| Client.stringify := Example.stringify;
                 Client.parse := Example.parse;
                 Client.AES_encrypt := fun text _ => text;
                 Client.ToString := fun _ => "" |} in
  let s := {| Client.address := "http://192.168.3.103:8080";
              Client.token := "my_token_123 ";
              Client.secret := "my_key_456" |} in
  bad_credential CONFIG (authorization (Client.request cenv s (Js.VObj []))) = false.
Proof.
  intros cenv s.
  apply (proj2 (proj1 (client_authorized cenv s (Js.VObj [])))).
  apply (proj1 (proj2 (client_authorized cenv s (Js.VObj []))) " ").
  reflexivity.
Defined.

Lemma read_answer_object cenv code props received :
  received = Js.VObj props
  \/ (exists text, received = Js.VStr text
                   /\ Client.parse cenv text = Ok (Js.VObj props)) ->
  Client.read_answer cenv code received
  = if Nat.eqb code 200 then inr tt
    else inl (Client.Value (Js.or_else (Js.get_prop "message" props)
                              (Js.VStr "服务器拒绝了请求"))).
Proof.
  intros [->|(text & -> & Hp)]; unfold Client.read_answer; rewrite ?Hp;
    by destruct (Nat.eqb code 200).
Qed.

(** X5.  What the user of the plug-in is shown for each answer the receiver
    can give to [/deploy], whether the body arrives as an object or as its
    JSON text.  Success is shown for 200 only.  The error of a failed
    deployment (500) is shown with the receiver's message, unless that
    message is empty.  A rejected token (401) and a deployment in progress
    (429) are both shown as the same generic refusal: their explanation
    travels in the property [error], which the plug-in does not read.  The
    handler itself never throws. *)
Theorem client_reads_server_answers (cfg : Config) (env : Env) (cenv : Client.Env)
    (name : string) (req : Request) (l : Locals) (w : World) :
  let refusal := "服务器拒绝了请求" in
  always
    (fun r =>
       exists resp, r = Ok resp /\
         forall received,
           received = body resp
           \/ (exists text, received = Js.VStr text
                            /\ Client.parse cenv text = Ok (body resp)) ->
           let shown := Client.report cenv name (status resp) received in
           (resp = deployed
            /\ shown = Client.success ("[" +:+ name +:+ "] 部署并预检通过！"))
           \/ (status resp = 401%nat /\ shown = Client.error ("部署失败: " +:+ refusal))
           \/ (status resp = 429%nat /\ shown = Client.error ("部署失败: " +:+ refusal))
           \/ (exists e, resp = failed e
                         /\ shown = Client.error
                                      ("部署失败: "
                                       +:+ (if String.eqb e "" then refusal else e))))
    (deploy cfg env req l w).
Proof.
  intros refusal.
  assert (Hshow : forall resp : Response,
    resp = json 401 [("error", Js.VStr "Unauthorized")] \/ resp = busy
    \/ resp = deployed \/ (exists e, resp = failed e) ->
    forall received,
      received = body resp
      \/ (exists text, received = Js.VStr text
                       /\ Client.parse cenv text = Ok (body resp)) ->
      let shown := Client.report cenv name (status resp) received in
      (resp = deployed
       /\ shown = Client.success ("[" +:+ name +:+ "] 部署并预检通过！"))
      \/ (status resp = 401%nat /\ shown = Client.error ("部署失败: " +:+ refusal))
      \/ (status resp = 429%nat /\ shown = Client.error ("部署失败: " +:+ refusal))
      \/ (exists e, resp = failed e
                    /\ shown = Client.error
                                 ("部署失败: "
                                  +:+ (if String.eqb e "" then refusal else e)))).
  { intros resp Hresp received Hrec shown. subst shown. unfold Client.report.
    destruct Hresp as [->|[->|[->|[e ->]]]];
      rewrite (read_answer_object cenv _ _ received Hrec); cbn.
    - right. by left.
    - right. right. by left.
    - by left.
    - right. right. right. exists e. split; [done|].
      unfold Js.or_else. cbn. by destruct (String.eqb e ""). }
  destruct (bad_credential cfg (authorization req)) eqn:Ha.
  - unfold deploy. rewrite Ha.
    eapply always_bind; [apply always_log| |intros ? [=]].
    intros _ _ l1 w1. constructor. eexists. split; [reflexivity|].
    apply Hshow. by left.
  - destruct (isDeploying w) eqn:Hw.
    + unfold deploy. rewrite Ha, Hw.
      constructor. eexists. split; [reflexivity|]. apply Hshow. right. by left.
    + eapply always_mono; [|by apply deploy_admitted_answers].
      intros r [->|[e ->]]; (eexists; split; [reflexivity|]); apply Hshow; eauto.
Qed.

(** ** Loading the library *)

Lemma poll_found present : forall fuel counter n,
  (counter <= n)%nat -> (n <= 21)%nat -> (n - counter < fuel)%nat ->
  present n = true ->
  (forall j, (counter <= j < n)%nat -> present j = false) ->
  Client.poll present fuel counter = Some (n, Ok tt).
Proof.
  induction fuel as [|fuel IH]; intros counter n Hc Hn Hf Hp Hfirst; [lia|].
  cbn [Client.poll].
  destruct (decide (counter = n)) as [->|Hne]; [by rewrite Hp|].
  rewrite (Hfirst counter) by lia.
  assert ((20 <? counter)%nat = false) as -> by (apply Nat.ltb_ge; lia).
  apply IH; [lia..|done|]. intros j Hj. apply Hfirst. lia.
Qed.

Lemma poll_timeout present : forall fuel counter,
  (counter <= 21)%nat -> (21 - counter < fuel)%nat ->
  (forall j, (counter <= j <= 21)%nat -> present j = false) ->
  Client.poll present fuel counter = Some (21%nat, Throw "脚本解析超时").
Proof.
  induction fuel as [|fuel IH]; intros counter Hc Hf Hno; [lia|].
  cbn [Client.poll]. rewrite (Hno counter) by lia.
  destruct (20 <? counter)%nat eqn:E.
  - apply Nat.ltb_lt in E. by assert (counter = 21)%nat as -> by lia.
  - apply Nat.ltb_ge in E. apply IH; [lia..|]. intros j Hj. apply Hno. lia.
Qed.

(** X6.  The polling for the library always ends within 22 runs of its
    callback, 2.2 seconds.  It resolves at the first run that finds
    [window.CryptoJS], if that is one of the first 22; it rejects with
    ['脚本解析超时'] at the 22nd run otherwise, one run later than the bound on
    the counter suggests, because the counter is compared before it is
    incremented. *)
Theorem poll_bound (present : nat -> bool) (fuel : nat) :
  (22 <= fuel)%nat ->
  (forall n,
     (n <= 21)%nat -> present n = true ->
     (forall j, (j < n)%nat -> present j = false) ->
     Client.poll present fuel 0 = Some (n, Ok tt))
  /\ ((forall j, (j <= 21)%nat -> present j = false) ->
      Client.poll present fuel 0 = Some (21%nat, Throw "脚本解析超时"))
  /\ exists n r, Client.poll present fuel 0 = Some (n, r) /\ (n <= 21)%nat.
Proof.
  intros Hfuel.
  assert (H1 : forall n,
     (n <= 21)%nat -> present n = true ->
     (forall j, (j < n)%nat -> present j = false) ->
     Client.poll present fuel 0 = Some (n, Ok tt)).
  { intros n Hn Hp Hfirst. apply poll_found; [lia..|done|].
    intros j Hj. apply Hfirst. lia. }
  assert (H2 : (forall j, (j <= 21)%nat -> present j = false) ->
               Client.poll present fuel 0 = Some (21%nat, Throw "脚本解析超时")).
  { intros Hno. apply poll_timeout; [lia..|]. intros j Hj. apply Hno. lia. }
  split; [exact H1|]. split; [exact H2|].
  (* the first run that finds the library, if any *)
  assert (Hfind : forall m, (m <= 22)%nat ->
            (exists n, (n < m)%nat /\ present n = true
                       /\ forall j, (j < n)%nat -> present j = false)
            \/ forall j, (j < m)%nat -> present j = false).
  { induction m as [|m IH]; intros Hm; [right; intros; lia|].
    destruct (IH ltac:(lia)) as [(n & Hn & Hp & Hf)|Hno].
    - left. exists n. split; [lia|done].
    - destruct (present m) eqn:E.
      + left. exists m. split; [lia|done].
      + right. intros j Hj. destruct (decide (j = m)) as [->|]; [done|].
        apply Hno. lia. }
  destruct (Hfind 22%nat ltac:(lia)) as [(n & Hn & Hp & Hf)|Hno].
  - exists n, (Ok tt). split; [apply H1; [lia|done..]|lia].
  - eexists _, _. split; [apply H2; intros; apply Hno; lia|lia].
Qed.

Lemma poll_bound_witness :
  Client.poll (fun n => Nat.eqb n 3) 30 0 = Some (3%nat, Ok tt)
  /\ Client.poll (fun _ => false) 30 0 = Some (21%nat, Throw "脚本解析超时").
Proof.
  destruct (poll_bound (fun n => Nat.eqb n 3) 30 ltac:(lia)) as (H & _ & _).
  destruct (poll_bound (fun _ => false) 30 ltac:(lia)) as (_ & H' & _).
  split.
  - apply (H 3%nat); [lia|reflexivity|].
    intros j Hj. apply Nat.eqb_neq. lia.
  - apply H'. reflexivity.
Defined.

(** * More on the receiver *)

(** ** The sanitizer, again *)

Lemma or_else_truthy a b : Js.truthy b = true -> Js.truthy (Js.or_else a b) = true.
Proof. unfold Js.or_else. by destruct (Js.truthy a) eqn:E. Qed.

Lemma or_else_self a b : Js.truthy a = true -> Js.or_else a b = a.
Proof. unfold Js.or_else. by intros ->. Qed.

(** X7.  Sanitizing is idempotent: the document the sanitizer produces is
    left as it is by the sanitizer.  A deployed business file can be pushed
    again and gives the same business file. *)
Theorem cleanConfig_idempotent (raw : Js.value) (clean : list (string * Js.value)) :
  cleanConfig raw = Ok clean -> cleanConfig (Js.VObj clean) = Ok clean.
Proof.
  intros H.
  assert (raw <> Js.VUndefined /\ raw <> Js.VNull) as [Hu Hn]
    by (destruct raw; try discriminate H; split; congruence).
  rewrite cleanConfig_shape in H by done. injection H as <-.
  rewrite cleanConfig_shape by done.
  set (D := Js.or_else (own raw "dns") (Js.VObj [])).
  set (O := Js.or_else (own raw "outbounds") (Js.VArr [])).
  set (R := Js.or_else (own raw "route") (Js.VObj [])).
  assert (HD : Js.truthy D = true) by by apply or_else_truthy.
  assert (HO : Js.truthy O = true) by by apply or_else_truthy.
  assert (HR : Js.truthy R = true) by by apply or_else_truthy.
  destruct (Js.nullish (own raw "ntp")) eqn:E; cbn [own app Js.get_prop String.eqb
    Ascii.eqb Bool.eqb]; rewrite ?E, !or_else_self by done; done.
Qed.

Lemma cleanConfig_idempotent_witness :
  cleanConfig
    (Js.VObj [("dns", Js.VObj []); ("outbounds", Js.VArr []);
              ("route", Js.VObj [("final", Js.VStr "direct")])])
  = Ok [("dns", Js.VObj []); ("outbounds", Js.VArr []);
        ("route", Js.VObj [("final", Js.VStr "direct")])].
Proof.
  apply (cleanConfig_idempotent
           (Js.VObj [("log", Js.VObj []);
                     ("route", Js.VObj [("final", Js.VStr "direct")])])).
  reflexivity.
Defined.

(** X8.  The sanitizer reads the four business sections and nothing else: two
    documents that agree on [dns], [outbounds], [route] and [ntp] are
    sanitized to the same document, whatever else they hold.  A document that
    is not an object (a number, a string, a boolean, an array) has no section
    and is accepted like the empty object: it is sanitized to the document
    with the three empty sections. *)
Theorem cleanConfig_reads_sections_only (raw raw' : Js.value) :
  raw <> Js.VUndefined -> raw <> Js.VNull ->
  raw' <> Js.VUndefined -> raw' <> Js.VNull ->
  (forall k, In k business_keys -> own raw k = own raw' k) ->
  cleanConfig raw = cleanConfig raw'
  /\ ((forall props, raw <> Js.VObj props) ->
      cleanConfig raw
      = Ok [("dns", Js.VObj []); ("outbounds", Js.VArr []); ("route", Js.VObj [])]).
Proof.
  intros Hu Hn Hu' Hn' Hk. split.
  - rewrite !cleanConfig_shape by done.
    by rewrite !(Hk _) by (cbn; tauto).
  - intros Hobj. destruct raw; try done. by destruct (Hobj props).
Qed.

Lemma cleanConfig_reads_sections_only_witness :
  cleanConfig (Js.VArr [])
  = cleanConfig (Js.VObj [("log", Js.VObj [("level", Js.VStr "debug")])])
  /\ cleanConfig (Js.VArr [])
     = Ok [("dns", Js.VObj []); ("outbounds", Js.VArr []); ("route", Js.VObj [])].
Proof.
  destruct (cleanConfig_reads_sections_only (Js.VArr [])
              (Js.VObj [("log", Js.VObj [("level", Js.VStr "debug")])]))
    as [H1 H2]; try discriminate.
  - intros k Hk. cbn in Hk. by destruct Hk as [<-|[<-|[<-|[<-|[]]]]].
  - split; [exact H1|]. apply H2. discriminate.
Defined.

(** ** The log *)

Lemma substring_middle a b c n m :
  String.length a = n -> String.length b = m ->
  String.substring n m (a +:+ b +:+ c) = b.
Proof.
  intros <- <-. rewrite substring_append_skip.
  rewrite substring_append_short by done. apply substring_all.
Qed.

Lemma time_of_day t :
  four_digit_year t ->
  Js.substring 11 19 (Js.toISOString t)
  = Js.pad 2 (Js.HourFromTime t) +:+ ":" +:+ Js.pad 2 (Js.MinFromTime t)
    +:+ ":" +:+ Js.pad 2 (Js.SecFromTime t).
Proof.
  intros Ht. unfold Js.substring, Js.toISOString. cbv zeta.
  pose proof (year_bounds t Ht) as Hy.
  pose proof (civil_of_day_bounds (Js.Day t)) as [Hm Hd].
  pose proof (time_fields_bounds t) as (Hh & Hmi & Hs & _).
  set (c := Js.civil_of_day (Js.Day t)) in *.
  assert (Js.iso_year (Js.c_year c) = Js.pad 4 (Js.c_year c)) as ->.
  { unfold Js.iso_year.
    assert ((0 <=? Js.c_year c) && (Js.c_year c <=? 9999) = true) as ->; [|done].
    apply andb_true_intro. split; apply Z.leb_le; lia. }
  destruct (pad4_ok (Js.c_year c)) as [LY _]; [lia|].
  destruct (pad2_ok (Js.c_month c)) as [LM _]; [lia|].
  destruct (pad2_ok (Js.c_day c)) as [LD _]; [lia|].
  destruct (pad2_ok (Js.HourFromTime t)) as [Lh _]; [lia|].
  destruct (pad2_ok (Js.MinFromTime t)) as [Lm _]; [lia|].
  destruct (pad2_ok (Js.SecFromTime t)) as [Ls _]; [lia|].
  set (date := Js.pad 4 (Js.c_year c) +:+ "-" +:+ Js.pad 2 (Js.c_month c) +:+ "-"
               +:+ Js.pad 2 (Js.c_day c) +:+ "T").
  set (time := Js.pad 2 (Js.HourFromTime t) +:+ ":" +:+ Js.pad 2 (Js.MinFromTime t)
               +:+ ":" +:+ Js.pad 2 (Js.SecFromTime t)).
  set (rest := "." +:+ Js.pad 3 (Js.msFromTime t) +:+ "Z").
  transitivity (String.substring 11 (19 - 11) (date +:+ time +:+ rest)).
  - f_equal. subst date time rest. by rewrite !append_assoc.
  - apply substring_middle.
    + subst date. rewrite !length_append, LY, LM, LD. reflexivity.
    + subst time. rewrite !length_append, Lh, Lm, Ls. reflexivity.
Qed.

(** X9.  Every line of the log starts with the time of day of the clock, in
    UTC and to the second, between brackets, then the level between brackets,
    then the message; the time has eight characters.  This holds in the years
    0 to 9999: the line is cut out of the ISO string at fixed positions, and
    the year has four digits there. *)
Theorem log_line_time (t : Z) (msg level : string) :
  four_digit_year t ->
  let hh := Js.pad 2 (Js.HourFromTime t) in
  let mm := Js.pad 2 (Js.MinFromTime t) in
  let ss := Js.pad 2 (Js.SecFromTime t) in
  log_line t msg level
  = "[" +:+ hh +:+ ":" +:+ mm +:+ ":" +:+ ss +:+ "] [" +:+ level +:+ "] " +:+ msg
  /\ String.length hh = 2%nat /\ String.length mm = 2%nat /\ String.length ss = 2%nat
  /\ digits_value 0 hh = (t mod 86400000) / 3600000
  /\ digits_value 0 mm = (t mod 3600000) / 60000
  /\ digits_value 0 ss = (t mod 60000) / 1000.
Proof.
  intros Ht hh mm ss.
  pose proof (time_fields_bounds t) as (Hh & Hmi & Hs & _).
  split.
  - unfold log_line. rewrite time_of_day by done. fold hh mm ss.
    by rewrite !append_assoc.
  - destruct (pad2_ok (Js.HourFromTime t)) as [L1 V1]; [lia|].
    destruct (pad2_ok (Js.MinFromTime t)) as [L2 V2]; [lia|].
    destruct (pad2_ok (Js.SecFromTime t)) as [L3 V3]; [lia|].
    subst hh mm ss. rewrite V1, V2, V3.
    repeat split; try done;
      unfold Js.HourFromTime, Js.MinFromTime, Js.SecFromTime, Js.TimeWithinDay,
        Js.msPerDay; Z.div_mod_to_equations; lia.
Qed.

Lemma log_line_time_witness :
  log_line 1793663160123 "新配置已原子写入磁盘" "INFO"
  = "[23:46:00] [INFO] 新配置已原子写入磁盘".
Proof.
  destruct (log_line_time 1793663160123 "新配置已原子写入磁盘" "INFO") as [H _].
  - unfold four_digit_year. lia.
  - rewrite H. reflexivity.
Defined.

(** ** The system configuration *)

Section SystemConfig.

Context (cfg : Config) (env : Env).

Local Abbreviation base := (BASE_DIR cfg).
Local Abbreviation sysPath := (Path.join (BASE_DIR cfg) (SYSTEM_FILE cfg)).

Lemma ensureSystemConfig_present (Hnf : no_faults env) w fl :
  files (fs w) !! sysPath = Some fl ->
  exists w',
    ensureSystemConfig cfg env w = (Ok tt, w')
    /\ files (fs w') = files (fs w)
    /\ (dirs (fs w') = dirs (fs w) \/ dirs (fs w') = base :: dirs (fs w))
    /\ exists evs, trace w' = evs ++ trace w /\ forallb is_fs evs = true.
Proof.
  intros Hfl. unfold ensureSystemConfig. cbv zeta.
  rewrite (bindS_ok _ _ _ _ _ (existsSync_nf env Hnf _ _)).
  set (w1 := after_fs _ _ _ w).
  destruct (negb _) eqn:Eb.
  - rewrite (bindS_ok _ _ _ _ _ (mkdirSync_nf env Hnf _ _)).
    set (w2 := after_fs _ _ _ w1).
    rewrite (bindS_ok _ _ _ _ _ (existsSync_nf env Hnf _ _)).
    change (files (fs w2)) with (files (fs w)). rewrite Hfl.
    rewrite bool_decide_eq_true_2 by eauto. cbn [orb negb].
    eexists. split; [reflexivity|]. split; [done|]. split; [by right|].
    eexists. split; [cbn; trace_ext|done].
  - rewrite (bindS_ok (retS tt) _ w1 tt w1 eq_refl).
    rewrite (bindS_ok _ _ _ _ _ (existsSync_nf env Hnf _ _)).
    change (files (fs w1)) with (files (fs w)). rewrite Hfl.
    rewrite bool_decide_eq_true_2 by eauto. cbn [orb negb].
    eexists. split; [reflexivity|]. split; [done|]. split; [by left|].
    eexists. split; [cbn; trace_ext|done].
Qed.

End SystemConfig.

Section Generation.

Context (env : Env) (Hnf : no_faults env).

Local Abbreviation base := (BASE_DIR CONFIG).
Local Abbreviation sysPath := (Path.join (BASE_DIR CONFIG) (SYSTEM_FILE CONFIG)).
Local Abbreviation template := (JSON_stringify env DEFAULT_SYSTEM_CONFIG).
Local Abbreviation cacheDir := (Path.dirname cache_file_path).

Lemma mkdir_unless (b : bool) d w :
  exists w1,
    (if negb b then mkdirSync env d else retS tt) w = (Ok tt, w1)
    /\ files (fs w1) = files (fs w)
    /\ dirs (fs w1) = (if b then dirs (fs w) else d :: dirs (fs w))
    /\ now w1 = now w
    /\ exists evs, trace w1 = evs ++ trace w /\ forallb is_fs evs = true.
Proof.
  destruct b; cbn [negb].
  - exists w. repeat split; try done. by exists [].
  - rewrite mkdirSync_nf by done. eexists. repeat split; try done.
    eexists [_]. by split.
Qed.

Lemma ensureSystemConfig_missing w :
  files (fs w) !! sysPath = None ->
  sysPath ∉ dirs (fs w) ->
  let tempPath := sysPath +:+ ".tmp." +:+ Js.string_of_Z (now w) in
  exists w',
    ensureSystemConfig CONFIG env w = (Ok tt, w')
    /\ files (fs w')
       = <[sysPath := File template (now w)]> (delete tempPath (files (fs w)))
    /\ (forall d, d ∈ dirs (fs w) -> d ∈ dirs (fs w'))
    /\ (base ∈ dirs (fs w') \/ is_Some (files (fs w) !! base))
    /\ (cacheDir ∈ dirs (fs w') \/ is_Some (files (fs w) !! cacheDir)).
Proof.
  intros Hfile Hdir tempPath. unfold ensureSystemConfig. cbv zeta.
  rewrite (bindS_ok _ _ _ _ _ (existsSync_nf env Hnf _ _)).
  set (b1 := _ || _). set (w1 := after_fs _ _ _ w).
  destruct (mkdir_unless b1 base w1) as (w2 & E2 & F2 & D2 & N2 & _).
  rewrite (bindS_ok _ _ _ _ _ E2).
  rewrite (bindS_ok _ _ _ _ _ (existsSync_nf env Hnf _ _)).
  assert (Hb2 : bool_decide (is_Some (files (fs w2) !! sysPath))
                || bool_decide (sysPath ∈ dirs (fs w2)) = false).
  { rewrite F2, D2. change (files (fs w1)) with (files (fs w)).
    change (dirs (fs w1)) with (dirs (fs w)). rewrite Hfile.
    rewrite bool_decide_eq_false_2 by (by intros [? ?]). cbn [orb].
    apply bool_decide_eq_false_2. destruct b1; [done|].
    rewrite elem_of_cons. intros [H|H]; [discriminate H|done]. }
  rewrite Hb2. cbn [negb].
  set (w3 := after_fs _ _ _ w2).
  rewrite (bindS_ok _ _ _ _ _ (log_eq _ _ _)).
  set (w4 := emit _ w3).
  unfold try_catch.
  rewrite (bindS_ok _ _ _ _ _ (existsSync_nf env Hnf _ _)).
  set (b3 := _ || _). set (w5 := after_fs _ _ _ w4).
  destruct (mkdir_unless b3 cacheDir w5) as (w6 & E6 & F6 & D6 & N6 & _).
  rewrite (bindS_ok _ _ _ _ _ E6).
  rewrite (bindS_ok _ _ _ _ _ (atomicWrite_nf env Hnf _ _ _)).
  rewrite log_eq.
  eexists. split; [reflexivity|].
  assert (Hfiles : files (fs w6) = files (fs w)) by (by rewrite F6; cbn; rewrite F2).
  assert (Hnow : now w6 = now w) by (by rewrite N6; cbn; rewrite N2).
  assert (Hdirs : forall d, d ∈ dirs (fs w2) -> d ∈ dirs (fs w6)).
  { intros d Hd. rewrite D6. change (dirs (fs w5)) with (dirs (fs w2)).
    destruct b3; [done|]. by apply list_elem_of_further. }
  cbn [fs emit after_fs set_fs files dirs]. rewrite Hnow, Hfiles. fold tempPath.
  split; [|split; [|split]].
  - by rewrite delete_insert_eq.
  - intros d Hd. apply Hdirs. rewrite D2. change (dirs (fs w1)) with (dirs (fs w)).
    destruct b1; [done|]. by apply list_elem_of_further.
  - destruct b1 eqn:Eb1.
    + subst b1. apply orb_prop in Eb1 as [H|H]; apply bool_decide_eq_true in H.
      * by right.
      * left. apply Hdirs. rewrite D2. exact H.
    + left. apply Hdirs. rewrite D2. apply list_elem_of_here.
  - destruct b3 eqn:Eb3.
    + subst b3. apply orb_prop in Eb3 as [H|H]; apply bool_decide_eq_true in H.
      * right. change (files (fs w4)) with (files (fs w2)) in H. by rewrite F2 in H.
      * left. rewrite D6. exact H.
    + left. rewrite D6. apply list_elem_of_here.
Qed.

End Generation.

Section AnyEnvironment.

Context (cfg : Config) (env : Env).

Local Abbreviation base := (BASE_DIR cfg).
Local Abbreviation sysPath := (Path.join (BASE_DIR cfg) (SYSTEM_FILE cfg)).

Lemma existsSync_any p w :
  exists b,
    existsSync env p w = (Ok b, after_fs (OpExists p) true (fs w) w)
    /\ (b = true -> is_Some (files (fs w) !! p) \/ p ∈ dirs (fs w)).
Proof.
  destruct (fs_fault env (nfs (trace w)) (OpExists p)) as [e|] eqn:F.
  - exists false. split; [by eapply existsSync_fault|done].
  - eexists. split; [by apply existsSync_ok|].
    intros H. apply orb_prop in H as [H|H]; apply bool_decide_eq_true in H; tauto.
Qed.

Lemma unlink_quietly p w :
  exists w', try_catch (unlinkSync env p) (fun _ => retS tt) w = (Ok tt, w').
Proof.
  unfold try_catch. destruct (unlinkSync env p w) as [[[]|e] w']; by eexists.
Qed.

(** The [catch] block of the atomic writer throws the error again. *)
Lemma atomicWrite_cleanup tempPath e w :
  ((present <- existsSync env tempPath ;;
    (if present then try_catch (unlinkSync env tempPath) (fun _ => retS tt)
     else retS tt) ;;
    throwS e)%sync w).1 = (Throw e : Result unit).
Proof.
  destruct (existsSync_any tempPath w) as (b & E & _).
  rewrite (bindS_ok _ _ _ _ _ E).
  destruct b.
  - destruct (unlink_quietly tempPath (after_fs (OpExists tempPath) true (fs w) w))
      as [w' E'].
    by rewrite (bindS_ok _ _ _ _ _ E').
  - reflexivity.
Qed.

(** When the atomic writer returns, the file holds the content. *)
Lemma atomicWrite_returns p c w a w' :
  atomicWrite env p c w = (Ok a, w') ->
  files (fs w') !! p = Some (File c (now w)).
Proof.
  unfold atomicWrite. rewrite (bindS_ok Date_now _ w (now w) w eq_refl).
  set (tempPath := p +:+ ".tmp." +:+ Js.string_of_Z (now w)).
  unfold try_catch at 1.
  destruct (fs_fault env (nfs (trace w)) (OpWrite tempPath c)) as [e|] eqn:F1.
  - unfold bindS at 1. rewrite (writeFileSync_fault env _ _ _ _ F1).
    intros H. pose proof (atomicWrite_cleanup tempPath e
      (after_fs (OpWrite tempPath c) false (torn_fs env tempPath w) w)) as Hc.
    rewrite H in Hc. discriminate Hc.
  - rewrite (bindS_ok _ _ _ _ _ (writeFileSync_ok env _ _ _ F1)).
    set (w1 := after_fs _ _ _ w).
    destruct (fs_fault env (nfs (trace w1)) (OpRename tempPath p)) as [e|] eqn:F2.
    + rewrite (renameSync_fault env _ _ _ _ F2).
      intros H. pose proof (atomicWrite_cleanup tempPath e
        (after_fs (OpRename tempPath p) false (fs w1) w1)) as Hc.
      rewrite H in Hc. discriminate Hc.
    + rewrite (renameSync_ok env _ _ _ (File c (now w)) F2)
        by apply lookup_insert_eq.
      intros [= _ <-]. cbn. apply lookup_insert_eq.
Qed.

Lemma ensureSystemConfig_outcome (w : World) :
  match ensureSystemConfig cfg env w with
  | (Ok _, w') => is_Some (files (fs w') !! sysPath) \/ sysPath ∈ dirs (fs w')
  | (Throw e, _) =>
      (exists n, fs_fault env n (OpMkdir base) = Some e)
      \/ exists cause, e = "无法生成系统配置: " +:+ cause
  end.
Proof.
  unfold ensureSystemConfig. cbv zeta.
  destruct (existsSync_any base w) as (b1 & E1 & _).
  rewrite (bindS_ok _ _ _ _ _ E1). set (w1 := after_fs _ _ _ w).
  assert (Hmk : (exists e n w2,
                   (if negb b1 then mkdirSync env base else retS tt) w1 = (Throw e, w2)
                   /\ fs_fault env n (OpMkdir base) = Some e)
                \/ exists w2,
                     (if negb b1 then mkdirSync env base else retS tt) w1 = (Ok tt, w2)).
  { destruct b1; cbn [negb]; [right; by eexists|].
    destruct (fs_fault env (nfs (trace w1)) (OpMkdir base)) as [e|] eqn:F.
    - left. exists e, (nfs (trace w1)). eexists. split; [|exact F].
      unfold mkdirSync. by rewrite (fs_prim_fault env _ _ _ _ _ F).
    - right. eexists. unfold mkdirSync. by rewrite (fs_prim_normal env _ _ _ _ F). }
  destruct Hmk as [(e & n & w2 & E2 & F)|[w2 E2]].
  { unfold bindS at 1. rewrite E2. left. by exists n. }
  rewrite (bindS_ok _ _ _ _ _ E2).
  destruct (existsSync_any sysPath w2) as (b2 & E3 & Hb2).
  rewrite (bindS_ok _ _ _ _ _ E3). set (w3 := after_fs _ _ _ w2).
  destruct b2; cbn [negb].
  { cbn. by apply Hb2. }
  rewrite (bindS_ok _ _ _ _ _ (log_eq _ _ _)). set (w4 := emit _ w3).
  unfold try_catch.
  destruct (existsSync_any (Path.dirname cache_file_path) w4) as (b3 & E4 & _).
  rewrite (bindS_ok _ _ _ _ _ E4). set (w5 := after_fs _ _ _ w4).
  unfold bindS at 1.
  destruct ((if negb b3 then mkdirSync env (Path.dirname cache_file_path) else retS tt) w5)
    as [[[]|e] w6]; [|right; by eexists].
  unfold bindS.
  destruct (atomicWrite env sysPath (JSON_stringify env DEFAULT_SYSTEM_CONFIG) w6)
    as [[[]|e] w7] eqn:E7; [|right; by eexists].
  apply atomicWrite_returns in E7. cbn. left. by rewrite E7.
Qed.

(** X10.  In every environment, whatever fails: when [ensureSystemConfig]
    returns, the system configuration exists; when it throws, the error is
    the one of creating the configuration directory, or it is wrapped in
    [无法生成系统配置]. *)
Theorem ensureSystemConfig_post (w : World) :
  match ensureSystemConfig cfg env w with
  | (Ok _, w') => is_Some (files (fs w') !! sysPath) \/ sysPath ∈ dirs (fs w')
  | (Throw e, _) =>
      (exists n, fs_fault env n (OpMkdir base) = Some e)
      \/ exists cause, e = "无法生成系统配置: " +:+ cause
  end.
Proof. apply ensureSystemConfig_outcome. Qed.

End AnyEnvironment.

(** X11.  When no file-system call fails and the system configuration exists,
    [ensureSystemConfig] returns, leaves every file as it is (it creates the
    configuration directory if that is missing), and does nothing but
    file-system calls: it logs nothing.  A system configuration edited on the
    host is never replaced by the template. *)
Theorem ensureSystemConfig_keeps_existing (cfg : Config) (env : Env) (w : World)
    (fl : file) :
  no_faults env ->
  files (fs w) !! Path.join (BASE_DIR cfg) (SYSTEM_FILE cfg) = Some fl ->
  exists w',
    ensureSystemConfig cfg env w = (Ok tt, w')
    /\ files (fs w') = files (fs w)
    /\ (dirs (fs w') = dirs (fs w) \/ dirs (fs w') = BASE_DIR cfg :: dirs (fs w))
    /\ exists evs, trace w' = evs ++ trace w /\ forallb is_fs evs = true.
Proof. intros Hnf Hfl. by eapply ensureSystemConfig_present. Qed.

Lemma ensureSystemConfig_keeps_existing_witness :
  exists w',
    ensureSystemConfig CONFIG (Example.env []) Example.installed = (Ok tt, w')
    /\ files (fs w') = files (fs Example.installed).
Proof.
  destruct (ensureSystemConfig_keeps_existing CONFIG (Example.env []) Example.installed
              (File "{'log':{}}" 1792000000000))
    as (w' & H1 & H2 & _).
  - intros n op. reflexivity.
  - reflexivity.
  - exists w'. split; [exact H1|exact H2].
Defined.

(** X12.  When no file-system call fails and there is no system configuration,
    [ensureSystemConfig] creates it: afterwards the system file holds the
    default template, written at the current time; the temporary file it was
    written to is gone; no other file has changed; the configuration
    directory and the directory of the cache file exist.  A second call then
    changes no file. *)
Theorem ensureSystemConfig_generates (env : Env) (w : World) :
  let sysPath := Path.join (BASE_DIR CONFIG) (SYSTEM_FILE CONFIG) in
  let tempPath := sysPath +:+ ".tmp." +:+ Js.string_of_Z (now w) in
  no_faults env ->
  files (fs w) !! sysPath = None ->
  sysPath ∉ dirs (fs w) ->
  exists w',
    ensureSystemConfig CONFIG env w = (Ok tt, w')
    /\ files (fs w')
       = <[sysPath := File (JSON_stringify env DEFAULT_SYSTEM_CONFIG) (now w)]>
           (delete tempPath (files (fs w)))
    /\ (forall d, d ∈ dirs (fs w) -> d ∈ dirs (fs w'))
    /\ (BASE_DIR CONFIG ∈ dirs (fs w') \/ is_Some (files (fs w) !! BASE_DIR CONFIG))
    /\ ("/var/lib/sing-box" ∈ dirs (fs w')
        \/ is_Some (files (fs w) !! "/var/lib/sing-box"))
    /\ exists w'',
         ensureSystemConfig CONFIG env w' = (Ok tt, w'')
         /\ files (fs w'') = files (fs w').
Proof.
  intros sysPath tempPath Hnf Hfile Hdir.
  destruct (ensureSystemConfig_missing env Hnf w Hfile Hdir)
    as (w' & Hrun & Hfiles & Hdirs & Hbase & Hcache).
  exists w'. repeat (split; [done|]).
  destruct (ensureSystemConfig_present CONFIG env Hnf w'
              (File (JSON_stringify env DEFAULT_SYSTEM_CONFIG) (now w)))
    as (w'' & Hrun' & Hfiles' & _).
  { rewrite Hfiles. apply lookup_insert_eq. }
  by exists w''.
Qed.

Lemma ensureSystemConfig_generates_witness :
  let bare := MkWorld (MkFS ∅ []) false 1793663160123 [] in
  exists w',
    ensureSystemConfig CONFIG (Example.env []) bare = (Ok tt, w')
    /\ text_at Example.system (fs w')
       = Some (JSON_stringify (Example.env []) DEFAULT_SYSTEM_CONFIG).
Proof.
  intros bare.
  destruct (ensureSystemConfig_generates (Example.env []) bare)
    as (w' & H1 & H2 & _).
  - intros n op. reflexivity.
  - reflexivity.
  - apply not_elem_of_nil.
  - exists w'. split; [exact H1|]. unfold text_at. rewrite H2.
    unfold Example.system. by rewrite lookup_insert_eq.
Defined.

(** ** Archival, whatever the directory holds *)

Section Archival.

Context (cfg : Config) (env : Env).

Local Abbreviation dir := (BACKUP_DIR cfg).
Local Abbreviation N := (MAX_BACKUPS cfg).

Lemma elem_of_backups m n t :
  (n, t) ∈ backups cfg m
  <-> n ∈ backup_names cfg m /\ t = default 0 (mtime <$> m !! Path.join dir n).
Proof.
  unfold backups. rewrite list_elem_of_fmap. split.
  - intros (n' & [= -> ->] & H). done.
  - intros [H ->]. by exists n.
Qed.

(** X13.  An archival during which no file-system call fails, in a backup
    directory without a sub-directory called [proxy_*.json], leaves at most
    [MAX_BACKUPS] backups, however many the directory held before: as many as
    before and the new one, if that is no more than [MAX_BACKUPS].  Every
    backup it removes is at most as recent, by modification time, as every
    backup it keeps. *)
Theorem rotateBackups_bound (c : string) (w : World) :
  no_faults env ->
  backup_dirs cfg (dirs (fs w)) = [] ->
  let m1 := <[Path.join dir (backupName (now w)) := File c (now w)]> (files (fs w)) in
  let after := files (fs (rotateBackups cfg env c w).2) in
  length (backup_files cfg after) = min N (length (backup_files cfg m1))
  /\ forall n1 f1 n2 f2,
       (n1, f1) ∈ backup_files cfg after ->
       (n2, f2) ∈ backup_files cfg m1 ->
       after !! Path.join dir n2 = None ->
       mtime f2 <= mtime f1.
Proof.
  intros Hnf Hplain m1 after.
  destruct (rotateBackups_nf cfg env Hnf c w Hplain) as (w' & Hrun & Hfiles & _).
  fold m1 in Hfiles. subst after. rewrite Hrun. cbn [snd]. rewrite Hfiles.
  split; [by rewrite !length_backup_files, pruned_count|].
  intros n1 f1 n2 f2 H1 H2 Hgone.
  set (sorted := sort_desc (backups cfg m1)) in *.
  apply elem_of_backup_files in H1 as [V1 L1], H2 as [V2 L2].
  rewrite lookup_fold_delete in L1, Hgone.
  destruct (decide (n1 ∈ (drop N sorted).*1)) as [|Hkeep]; [done|].
  destruct (decide (n2 ∈ (drop N sorted).*1)) as [Hdoomed|]; [|congruence].
  assert (Hin1 : (n1, mtime f1) ∈ sorted).
  { unfold sorted. rewrite sort_desc_Permutation. apply elem_of_backups.
    rewrite elem_of_backup_names, L1. eauto. }
  apply list_elem_of_fmap in Hdoomed as ([n t2] & -> & Hin2). cbn in *.
  assert (Ht2 : t2 = mtime f2).
  { apply elem_of_drop_in in Hin2. unfold sorted in Hin2.
    rewrite sort_desc_Permutation in Hin2.
    apply elem_of_backups in Hin2 as [_ ->]. by rewrite L2. }
  subst t2.
  rewrite <- (take_drop N sorted) in Hin1. apply elem_of_app in Hin1 as [Hin1|Hin1].
  - pose proof (sort_desc_sorted (backups cfg m1)) as Hs. fold sorted in Hs.
    rewrite <- (take_drop N sorted) in Hs.
    exact (StronglySorted_app_1_elem_of _ _ _ _ _ Hs Hin1 Hin2).
  - destruct Hkeep. apply list_elem_of_fmap. by exists (n1, mtime f1).
Qed.

(** X14.  An archival touches nothing but backups.  In every environment it
    leaves alone every file outside the backup directory, the lock and the
    clock, and runs no command.  When no file-system call fails it also
    leaves alone every file of the backup directory that is not called
    [proxy_*.json]. *)
Theorem rotateBackups_footprint (c : string) (w : World) :
  let w' := (rotateBackups cfg env c w).2 in
  (forall p, (forall n, Path.join dir n <> p) ->
             files (fs w') !! p = files (fs w) !! p)
  /\ isDeploying w' = isDeploying w
  /\ now w' = now w
  /\ (forall cmd, nexec cmd (trace w') = nexec cmd (trace w))
  /\ (no_faults env ->
      forall n, is_backup_name n = false ->
                files (fs w') !! Path.join dir n = files (fs w) !! Path.join dir n).
Proof.
  intros w'.
  assert (Hq : forall p, (forall n, Path.join dir n <> p) ->
                         quiet p (rotateBackups cfg env c))
    by (intros p Hp; by apply quiet_rotateBackups).
  split; [intros p Hp; apply (Hq p Hp w)|].
  destruct (Hq (dir +:+ "x")) with (w := w) as (Hl & Hn & Hc & _).
  { intros n E. unfold Path.join in E. apply append_inj_l in E. discriminate E. }
  split; [exact Hl|]. split; [exact Hn|]. split; [exact Hc|].
  intros Hnf n Hname. subst w'.
  destruct (rotateBackups_run cfg env Hnf c w) as (w1 & Hrun & Hfiles & _).
  rewrite Hrun. cbn [snd]. rewrite Hfiles, lookup_fold_delete.
  destruct (decide _) as [Hin|_].
  - apply list_elem_of_fmap in Hin as (d & -> & Hin).
    apply elem_of_take_while, elem_of_drop_in in Hin.
    rewrite sort_desc_Permutation in Hin.
    apply (list_elem_of_fmap_2 fst) in Hin. rewrite backup_entries_names in Hin.
    cbn [files] in Hin. apply elem_of_app in Hin as [Hin|Hin].
    + apply elem_of_backup_names in Hin as [[Hv _] _]. congruence.
    + apply elem_of_dir_names in Hin as [[Hv _] _]. congruence.
  - apply lookup_insert_ne. intros E. apply join_inj in E. subst n.
    destruct (valid_backupName (now w)) as [Hv _]. congruence.
Qed.

End Archival.

Lemma rotateBackups_bound_witness :
  let after := files (fs (rotateBackups CONFIG (Example.env []) "{}" Example.crowded).2) in
  length (backup_files CONFIG (files (fs Example.crowded))) = 4%nat
  /\ length (backup_files CONFIG after) = 3%nat.
Proof.
  intros after.
  destruct (rotateBackups_bound CONFIG (Example.env []) "{}" Example.crowded
              (no_faults_example []) eq_refl) as [H _].
  split; [vm_compute; reflexivity|].
  subst after. rewrite H. vm_compute. reflexivity.
Defined.

Lemma rotateBackups_footprint_witness :
  let w' := (rotateBackups CONFIG (Example.env []) "{}" Example.crowded).2 in
  files (fs w') !! Example.proxy = files (fs Example.crowded) !! Example.proxy
  /\ files (fs w') !! "/etc/sing-box/backups/notes.txt"
     = files (fs Example.crowded) !! "/etc/sing-box/backups/notes.txt".
Proof.
  intros w'.
  destruct (rotateBackups_footprint CONFIG (Example.env []) "{}" Example.crowded)
    as (H1 & _ & _ & _ & H2).
  split.
  - apply H1. intros n E. discriminate E.
  - apply (H2 (no_faults_example []) "notes.txt"). reflexivity.
Defined.

(** ** Deployments that run to the end *)

Lemma nexec_fs_only cmd evs tr :
  forallb is_fs evs = true -> nexec cmd (evs ++ tr) = nexec cmd tr.
Proof.
  intros H. rewrite nexec_app. unfold nexec at 1.
  induction evs as [|e evs IH]; [done|].
  cbn in H. apply andb_prop in H as [He H]. cbn.
  destruct e; try discriminate He. cbn. by apply IH.
Qed.

Section Deployments.

Context (env : Env) (Hnf : no_faults env).

Local Abbreviation target := (targetPath CONFIG).
Local Abbreviation sysPath := (Path.join (BASE_DIR CONFIG) (SYSTEM_FILE CONFIG)).
Local Abbreviation check := (CHECK (CMD CONFIG)).
Local Abbreviation restart := (RESTART (CMD CONFIG)).
Local Abbreviation status := (STATUS (CMD CONFIG)).

(** STEP 5 and STEP 6 of the [try] block. *)
Local Abbreviation deploy_tail :=
  (lift (log "新配置已原子写入磁盘" "INFO") ;;
   lift (log "执行语法预检..." "INFO") ;;
   lift (runCmd CONFIG env (CHECK (CMD CONFIG))) ;;
   lift (log "执行服务重启..." "INFO") ;;
   lift (runCmd CONFIG env (RESTART (CMD CONFIG))) ;;
   lift (log ("进入健康监测期 (" +:+ Js.string_of_Z (Z.of_nat (CHECK_COUNT (HEALTH CONFIG)))
              +:+ "秒)...") "INFO") ;;
   healthMonitor CONFIG env ;;
   lift (log "🎉 部署成功：服务运行稳定" "INFO") ;;
   retT (json 200 [("status", Js.VStr "success");
                   ("message", Js.VStr "Deployed and verified successfully")]))%task.

(** STEP 0 on a host whose system configuration exists. *)
Lemma ensure_installed w sysfile :
  files (fs w) !! sysPath = Some sysfile ->
  exists w1,
    ensureSystemConfig CONFIG env w = (Ok tt, w1)
    /\ files (fs w1) = files (fs w)
    /\ (forall d, d ∈ dirs (fs w1) -> d = BASE_DIR CONFIG \/ d ∈ dirs (fs w))
    /\ isDeploying w1 = isDeploying w
    /\ now w1 = now w
    /\ forall cmd, nexec cmd (trace w1) = nexec cmd (trace w).
Proof.
  intros Hsys.
  destruct (ensureSystemConfig_present CONFIG env Hnf w sysfile Hsys)
    as (w1 & Hrun & Hfiles & Hdirs & evs & Htr & Hevs).
  destruct (stable_ensureSystemConfig CONFIG env w) as [Hl Hn].
  rewrite Hrun in Hl, Hn. cbn in Hl, Hn.
  exists w1. repeat split; try done.
  - intros d Hd. destruct Hdirs as [Hdirs|Hdirs]; rewrite Hdirs in Hd; [by right|].
    apply elem_of_cons in Hd. tauto.
  - intros cmd. rewrite Htr. by apply nexec_fs_only.
Qed.

(** The [try] block up to STEP 4, on a host whose system configuration
    exists: the new business file is written; [rollbackContent] holds the
    text of the old one, if there was one. *)
Lemma deploy_try_written req l w text raw clean sysfile :
  Js.truthy (content req) = true ->
  AES_decrypt_utf8 env (content req) (SECRET CONFIG) = Ok text ->
  text <> "" ->
  JSON_parse env text = Ok raw ->
  cleanConfig raw = Ok clean ->
  files (fs w) !! sysPath = Some sysfile ->
  (files (fs w) !! target = None -> target ∉ dirs (fs w)) ->
  exists w6,
    run (deploy_try CONFIG env req l w)
    = run (deploy_tail
             match files (fs w) !! target with
             | Some old => {| rollbackContent := Some (utf8_decode env (data old)) |}
             | None => l
             end w6)
    /\ files (fs w6) !! target
       = Some (File (JSON_stringify env (Js.VObj clean)) (now w))
    /\ files (fs w6) !! sysPath = Some sysfile
    /\ isDeploying w6 = isDeploying w
    /\ now w6 = now w
    /\ forall cmd, nexec cmd (trace w6) = nexec cmd (trace w).
Proof.
  intros Ht Hd Hne Hp Hc Hsys Hdir.
  unfold deploy_try.
  rewrite (run_lift_ok _ _ _ _ _ _ (log_eq _ _ _)).
  set (w1 := emit _ w).
  destruct (ensure_installed w1 sysfile Hsys) as (w2 & E2 & F2 & D2 & L2 & N2 & C2).
  rewrite (run_lift_ok _ _ _ _ _ _ E2).
  rewrite (run_lift_ok _ _ _ _ _ _ (decryptAndParse_ok env _ _ _ _ Ht Hd Hne Hp)).
  assert (E3 : of_result (cleanConfig raw) w2 = (Ok clean, w2))
    by (unfold of_result; by rewrite Hc).
  rewrite (run_lift_ok _ _ _ _ _ _ E3).
  rewrite (run_lift_ok _ _ _ _ _ _ (existsSync_nf env Hnf _ _)).
  set (w3 := after_fs _ _ _ w2).
  rewrite F2. change (files (fs w1)) with (files (fs w)).
  assert (Hstep4 : forall (l5 : Locals) w5,
    files (fs w5) !! sysPath = Some sysfile ->
    isDeploying w5 = isDeploying w -> now w5 = now w ->
    (forall cmd, nexec cmd (trace w5) = nexec cmd (trace w)) ->
    exists w6,
      run ((lift (atomicWrite env target (JSON_stringify env (Js.VObj clean))) ;;
            deploy_tail)%task l5 w5)
      = run (deploy_tail l5 w6)
      /\ files (fs w6) !! target
         = Some (File (JSON_stringify env (Js.VObj clean)) (now w))
      /\ files (fs w6) !! sysPath = Some sysfile
      /\ isDeploying w6 = isDeploying w
      /\ now w6 = now w
      /\ forall cmd, nexec cmd (trace w6) = nexec cmd (trace w)).
  { intros l5 w5 S5 L5 N5 C5.
    rewrite (run_lift_ok _ _ _ _ _ _ (atomicWrite_nf env Hnf _ _ _)).
    eexists. split; [reflexivity|].
    cbn [fs files after_fs emit set_fs isDeploying now trace].
    rewrite N5. split; [apply lookup_insert_eq|].
    split; [|by repeat split].
    rewrite lookup_insert_ne by discriminate.
    rewrite lookup_delete_ne, lookup_insert_ne; [done|..].
    - intros E. discriminate E.
    - intros E. discriminate E. }
  destruct (files (fs w) !! target) as [old|] eqn:Eold.
  - rewrite bool_decide_eq_true_2 by eauto. cbn [orb].
    rewrite run_bindT, run_tryCatch.
    assert (E4 : readFileSync env target w3
                 = (Ok (utf8_decode env (data old)),
                    after_fs (OpRead target) true (fs w3) w3)).
    { apply readFileSync_nf; [done|]. change (files (fs w3)) with (files (fs w2)).
      by rewrite F2. }
    rewrite (run_lift_ok _ _ _ _ _ _ E4).
    set (w4 := after_fs _ _ _ w3).
    rewrite run_bindT. cbn [set_local run].
    destruct (rotateBackups_returns CONFIG env Hnf (utf8_decode env (data old)) w4)
      as (w5 & E5 & N5 & L5).
    pose proof (quiet_rotateBackups CONFIG env sysPath (utf8_decode env (data old))
                  ltac:(intros n E; discriminate E) w4) as (_ & _ & C5 & S5).
    rewrite E5 in C5, S5. cbn [snd] in C5, S5.
    rewrite run_lift, E5. cbn [fst snd].
    apply Hstep4.
    + rewrite S5. change (files (fs w4)) with (files (fs w2)). by rewrite F2.
    + rewrite L5. exact L2.
    + rewrite N5. exact N2.
    + intros cmd. rewrite C5. apply C2.
  - rewrite bool_decide_eq_false_2 by (by intros [? ?]). cbn [orb].
    rewrite bool_decide_eq_false_2.
    2:{ intros Hin. apply D2 in Hin as [Hin|Hin]; [discriminate Hin|].
        by apply Hdir. }
    rewrite run_bindT. cbn [retT run].
    apply Hstep4.
    + change (files (fs w3)) with (files (fs w2)). by rewrite F2.
    + exact L2.
    + exact N2.
    + exact C2.
Qed.

Lemma nexec_other cmd c out tr :
  cmd <> c -> nexec cmd (EvExec c out :: tr) = nexec cmd tr.
Proof.
  intros H. unfold nexec. cbn [List.filter is_exec_of].
  assert (String.eqb c cmd = false) as ->; [|done].
  apply String.eqb_neq. congruence.
Qed.

(** STEP 5 when the pre-check fails: nothing else is run. *)
Lemma tail_check_fails (l : Locals) w :
  exec_out env (nexec check (trace w)) check <> ExecOk ->
  exists w',
    run (deploy_tail l w)
    = (Throw (command_error CONFIG check (exec_out env (nexec check (trace w)) check)),
       l, w')
    /\ fs w' = fs w /\ isDeploying w' = isDeploying w /\ now w' = now w
    /\ nexec check (trace w') = S (nexec check (trace w))
    /\ forall cmd, cmd <> check -> nexec cmd (trace w') = nexec cmd (trace w).
Proof.
  intros Hout.
  rewrite (run_lift_ok _ _ _ _ _ _ (log_eq _ _ _)).
  rewrite (run_lift_ok _ _ _ _ _ _ (log_eq _ _ _)).
  set (w2 := emit _ (emit _ w)).
  assert (N2 : forall cmd, nexec cmd (trace w2) = nexec cmd (trace w)) by done.
  rewrite (run_lift_throw _ _ _ _ _ _ (runCmd_fails env check w2 ltac:(by rewrite N2))).
  rewrite N2. eexists. split; [reflexivity|].
  split; [done|]. split; [done|]. split; [done|].
  split; [cbn [trace emit]; by rewrite nexec_self, N2|].
  intros cmd Hcmd. cbn [trace emit]. by rewrite nexec_other, N2.
Qed.

(** STEP 5 and STEP 6 when every command succeeds. *)
Lemma tail_success (l : Locals) w :
  exec_out env (nexec check (trace w)) check = ExecOk ->
  exec_out env (nexec restart (trace w)) restart = ExecOk ->
  (forall j, (j < CHECK_COUNT (HEALTH CONFIG))%nat ->
             exec_out env (nexec status (trace w) + j) status = ExecOk) ->
  exists w',
    run (deploy_tail l w) = (Ok deployed, l, w')
    /\ fs w' = fs w /\ isDeploying w' = isDeploying w
    /\ now w' = now w + 5500
    /\ nexec check (trace w') = S (nexec check (trace w))
    /\ nexec restart (trace w') = S (nexec restart (trace w))
    /\ nexec status (trace w') = (nexec status (trace w) + 5)%nat.
Proof.
  intros Hcheck Hrestart Hok.
  rewrite (run_lift_ok _ _ _ _ _ _ (log_eq _ _ _)).
  rewrite (run_lift_ok _ _ _ _ _ _ (log_eq _ _ _)).
  set (w2 := emit _ (emit _ w)).
  assert (N2 : forall cmd, nexec cmd (trace w2) = nexec cmd (trace w)) by done.
  rewrite (run_lift_ok _ _ _ _ _ _ (runCmd_ok env check w2 ltac:(by rewrite N2))).
  rewrite (run_lift_ok _ _ _ _ _ _ (log_eq _ _ _)).
  set (w3 := emit _ (emit _ w2)).
  assert (N3 : nexec restart (trace w3) = nexec restart (trace w)) by apply N2.
  rewrite (run_lift_ok _ _ _ _ _ _ (runCmd_ok env restart w3 ltac:(by rewrite N3))).
  rewrite (run_lift_ok _ _ _ _ _ _ (log_eq _ _ _)).
  set (w4 := emit _ (emit _ w3)).
  assert (N4 : nexec status (trace w4) = nexec status (trace w)) by apply N2.
  rewrite run_bindT. unfold healthMonitor. rewrite run_bindT, run_sleep.
  set (w5 := set_now _ _).
  destruct (monitor_loop_run CONFIG env l (CHECK_COUNT (HEALTH CONFIG)) 1 w5
              (CHECK_COUNT (HEALTH CONFIG)))
    as (w6 & Hrun & Htr & Hfs & Hlock & Hnow); [lia|lia|..].
  { intros j Hj. change (nexec status (trace w5)) with (nexec status (trace w4)).
    rewrite N4. by apply Hok. }
  { intros Hlt. lia. }
  rewrite Hrun. rewrite Nat.ltb_irrefl in *.
  rewrite (run_lift_ok _ _ _ _ _ _ (log_eq _ _ _)).
  eexists. split; [reflexivity|].
  cbn [fs emit isDeploying now trace]. rewrite Hfs, Hlock, Hnow.
  split; [done|]. split; [done|]. split; [subst w5; cbn; lia|].
  unfold nexec at 1 3 5. cbn [List.filter is_exec_of]. fold (nexec check (trace w6))
    (nexec restart (trace w6)) (nexec status (trace w6)).
  rewrite Htr, !nexec_app, !nexec_rev, !nexec_intersperse by done.
  rewrite !nexec_runs. cbn [String.eqb Ascii.eqb Bool.eqb length seq].
  rewrite String.eqb_refl. subst w5 w4 w3 w2.
  unfold nexec. cbn. lia.
Qed.

Lemma nexec_skip cmd e tr :
  is_exec_of cmd e = false -> nexec cmd (e :: tr) = nexec cmd tr.
Proof. intros H. unfold nexec. cbn [List.filter]. by rewrite H. Qed.

Ltac count_runs :=
  repeat first [rewrite nexec_self | rewrite nexec_skip by reflexivity].

(** The [catch] block when there is something to roll back to, whatever the
    restart of the rollback does. *)
Lemma deploy_catch_restores error old w :
  old <> "" ->
  let out := exec_out env (nexec restart (trace w)) restart in
  let tempPath := target +:+ ".tmp." +:+ Js.string_of_Z (now w) in
  exists w',
    run (deploy_catch CONFIG env error {| rollbackContent := Some old |} w)
    = (Ok (failed error), {| rollbackContent := Some old |}, w')
    /\ files (fs w') = <[target := File old (now w)]> (delete tempPath (files (fs w)))
    /\ isDeploying w' = isDeploying w
    /\ now w' = now w + (if out is ExecOk then 2000 else 0)
    /\ nexec restart (trace w') = S (nexec restart (trace w))
    /\ nexec status (trace w')
       = (nexec status (trace w) + if out is ExecOk then 1 else 0)%nat
    /\ nexec check (trace w') = nexec check (trace w).
Proof.
  intros Hne out tempPath.
  unfold deploy_catch.
  rewrite (run_lift_ok _ _ _ _ _ _ (log_eq _ _ _)).
  set (w1 := emit _ w).
  rewrite run_bindT, run_tryCatch, run_bindT. cbn [get_local run rollbackContent].
  assert (truthy_text (Some old) = true) as ->
    by (cbn; by apply negb_true_iff, String.eqb_neq).
  rewrite (run_lift_ok _ _ _ _ _ _ (log_eq _ _ _)).
  set (w2 := emit _ w1). cbn [default].
  rewrite (run_lift_ok _ _ _ _ _ _ (atomicWrite_nf env Hnf _ _ _)).
  set (w3 := after_fs _ _ _ (after_fs _ _ _ w2)).
  assert (N3 : forall cmd, nexec cmd (trace w3) = nexec cmd (trace w)) by done.
  assert (F3 : files (fs w3)
               = <[target := File old (now w)]> (delete tempPath (files (fs w)))).
  { subst w3. cbn. by rewrite delete_insert_eq. }
  fold out. destruct out eqn:Eout.
  - rewrite (run_lift_ok _ _ _ _ _ _ (runCmd_ok env restart w3 ltac:(by rewrite N3))).
    rewrite run_bindT, run_sleep.
    set (w5 := set_now _ _).
    rewrite run_bindT, run_lift, checkServiceHealth_eq. cbn [fst snd].
    set (reprobe := exec_out env _ status).
    assert (forall m1 m2,
              run ((if match reprobe with ExecOk => true | _ => false end
                    then lift (log m1 "INFO") else lift (log m2 "ERROR"))
                     {| rollbackContent := Some old |}
                     (emit (EvExec status reprobe) w5))
              = (Ok tt, {| rollbackContent := Some old |},
                 emit (EvLog (log_line (now w5)
                                (if match reprobe with ExecOk => true | _ => false end
                                 then m1 else m2)
                                (if match reprobe with ExecOk => true | _ => false end
                                 then "INFO" else "ERROR")))
                   (emit (EvExec status reprobe) w5))) as ->
      by (intros; by destruct reprobe).
    eexists. split; [reflexivity|].
    split; [exact F3|]. split; [done|]. split; [subst w5 w3; cbn; lia|].
    subst w5. cbn [emit trace set_now].
    split; [|split].
    + count_runs. rewrite ?N3. lia.
    + count_runs. rewrite ?N3. lia.
    + apply N3.
  - rewrite (run_lift_throw _ _ _ _ _ _
               (runCmd_fails env restart w3 ltac:(rewrite N3; fold out; by rewrite Eout))).
    rewrite run_lift, log_eq. cbn [fst snd].
    eexists. split; [reflexivity|].
    split; [exact F3|]. split; [done|]. split; [subst w3; cbn; lia|].
    cbn [emit trace].
    split; [|split].
    + count_runs. rewrite ?N3. lia.
    + count_runs. rewrite ?N3. lia.
    + apply N3.
  - rewrite (run_lift_throw _ _ _ _ _ _
               (runCmd_fails env restart w3 ltac:(rewrite N3; fold out; by rewrite Eout))).
    rewrite run_lift, log_eq. cbn [fst snd].
    eexists. split; [reflexivity|].
    split; [exact F3|]. split; [done|]. split; [subst w3; cbn; lia|].
    cbn [emit trace].
    split; [|split].
    + count_runs. rewrite ?N3. lia.
    + count_runs. rewrite ?N3. lia.
    + apply N3.
Qed.

(** The [catch] block when there is nothing to roll back to: the business
    file is removed, if there is one. *)
Lemma deploy_catch_cleanup error l w :
  truthy_text (rollbackContent l) = false ->
  exists w',
    run (deploy_catch CONFIG env error l w) = (Ok (failed error), l, w')
    /\ files (fs w') = delete target (files (fs w))
    /\ isDeploying w' = isDeploying w
    /\ now w' = now w
    /\ forall cmd, nexec cmd (trace w') = nexec cmd (trace w).
Proof.
  intros Hl. unfold deploy_catch.
  rewrite (run_lift_ok _ _ _ _ _ _ (log_eq _ _ _)).
  set (w1 := emit _ w).
  rewrite run_bindT, run_tryCatch, run_bindT. cbn [get_local run]. rewrite Hl.
  rewrite (run_lift_ok _ _ _ _ _ _ (existsSync_nf env Hnf _ _)).
  set (w2 := after_fs _ _ _ w1). cbn [negb]. rewrite andb_true_r.
  destruct (files (fs w) !! target) as [fl|] eqn:Efl.
  - change (files (fs w1)) with (files (fs w)). rewrite Efl.
    rewrite bool_decide_eq_true_2 by eauto. cbn [orb].
    assert (E3 : try_catch (unlinkSync env target) (fun _ => retS tt) w2
                 = (Ok tt, after_fs (OpUnlink target) true
                             (MkFS (delete target (files (fs w2))) (dirs (fs w2))) w2)).
    { unfold try_catch. by rewrite (unlinkSync_nf env Hnf _ w2 fl Efl). }
    rewrite (run_lift_ok _ _ _ _ _ _ E3).
    rewrite run_lift, log_eq. cbn [fst snd].
    eexists. split; [reflexivity|]. by repeat split.
  - change (files (fs w1)) with (files (fs w)). rewrite Efl.
    rewrite bool_decide_eq_false_2 by (by intros [? ?]). cbn [orb].
    rewrite delete_id by done.
    destruct (bool_decide (target ∈ dirs (fs w1))).
    + assert (E3 : try_catch (unlinkSync env target) (fun _ => retS tt) w2
                   = (Ok tt, after_fs (OpUnlink target) false (fs w2) w2)).
      { unfold try_catch.
        by destruct (unlinkSync_missing env _ w2 (Hnf _ _) Efl) as [e3 ->]. }
      rewrite (run_lift_ok _ _ _ _ _ _ E3).
      rewrite run_lift, log_eq. cbn [fst snd].
      eexists. split; [reflexivity|]. by repeat split.
    + cbn [retT run]. eexists. split; [reflexivity|]. by repeat split.
Qed.

End Deployments.

Lemma deploy_runs (env : Env) (req : Request) (w : World)
    (text : string) (raw : Js.value) (clean : list (string * Js.value))
    (sysfile : file) :
  let target := targetPath CONFIG in
  let sysPath := Path.join (BASE_DIR CONFIG) (SYSTEM_FILE CONFIG) in
  let check := CHECK (CMD CONFIG) in
  let restart := RESTART (CMD CONFIG) in
  let status := STATUS (CMD CONFIG) in
  no_faults env ->
  authorization req = Some ("Bearer " +:+ TOKEN CONFIG) ->
  isDeploying w = false ->
  Js.truthy (content req) = true ->
  AES_decrypt_utf8 env (content req) (SECRET CONFIG) = Ok text ->
  text <> "" ->
  JSON_parse env text = Ok raw ->
  cleanConfig raw = Ok clean ->
  files (fs w) !! sysPath = Some sysfile ->
  (files (fs w) !! target = None -> target ∉ dirs (fs w)) ->
  exec_out env (nexec check (trace w)) check = ExecOk ->
  exec_out env (nexec restart (trace w)) restart = ExecOk ->
  (forall j, (j < 5)%nat -> exec_out env (nexec status (trace w) + j) status = ExecOk) ->
  exists w',
    run (handle_deploy CONFIG env req w)
    = (Ok deployed, {| rollbackContent := read_text env target (fs w) |}, w')
    /\ files (fs w') !! target
       = Some (File (JSON_stringify env (Js.VObj clean)) (now w))
    /\ files (fs w') !! sysPath = Some sysfile
    /\ isDeploying w' = false
    /\ now w' = now w + 5500
    /\ nexec check (trace w') = S (nexec check (trace w))
    /\ nexec restart (trace w') = S (nexec restart (trace w))
    /\ nexec status (trace w') = (nexec status (trace w) + 5)%nat.
Proof.
  intros target sysPath check restart status
    Hnf Hauth Hlock Ht Hd Hne Hp Hc Hsys Hdir Hcheck Hrestart Hok.
  subst target sysPath check restart status.
  unfold handle_deploy, deploy.
  rewrite (proj2 (bad_credential_spec CONFIG _) Hauth), Hlock.
  unfold tryFinally, tryCatch. rewrite run_finally, run_catch.
  destruct (deploy_try_written env Hnf req {| rollbackContent := None |}
              (set_isDeploying true w) text raw clean sysfile)
    as (w6 & Hrun & T6 & S6 & L6 & N6 & C6); try done.
  rewrite Hrun.
  destruct (tail_success env
              match files (fs (set_isDeploying true w)) !! targetPath CONFIG with
              | Some old => {| rollbackContent := Some (utf8_decode env (data old)) |}
              | None => {| rollbackContent := None |}
              end w6)
    as (w' & Hrun' & F' & L' & N' & C1 & C2 & C3).
  { by rewrite C6. }
  { by rewrite C6. }
  { intros j Hj. rewrite C6. by apply Hok. }
  rewrite Hrun'. eexists. split.
  { unfold read_text, text_at. change (fs (set_isDeploying true w)) with (fs w).
    by destruct (files (fs w) !! targetPath CONFIG). }
  cbn [fs set_isDeploying isDeploying now trace].
  rewrite F', N', N6, C1, C2, C3, !C6. by repeat split.
Qed.

(** X15.  A deployment that goes well, on a host whose system configuration
    exists, when no file-system call fails: the payload decrypts, parses and
    is sanitized, the pre-check and the restart succeed and the five probes
    find the daemon running.  The caller is answered 200.  The business file
    holds the serialized sanitized document and nothing else of the payload;
    the system configuration is as it was; the lock is free.  The handler ran
    the pre-check once, the restart once and the status command five times,
    and waited 5.5 seconds in all. *)
Theorem deploy_success (env : Env) (req : Request) (w : World)
    (text : string) (raw : Js.value) (clean : list (string * Js.value))
    (sysfile : file) :
  let target := targetPath CONFIG in
  let sysPath := Path.join (BASE_DIR CONFIG) (SYSTEM_FILE CONFIG) in
  let check := CHECK (CMD CONFIG) in
  let restart := RESTART (CMD CONFIG) in
  let status := STATUS (CMD CONFIG) in
  no_faults env ->
  authorization req = Some ("Bearer " +:+ TOKEN CONFIG) ->
  isDeploying w = false ->
  Js.truthy (content req) = true ->
  AES_decrypt_utf8 env (content req) (SECRET CONFIG) = Ok text ->
  text <> "" ->
  JSON_parse env text = Ok raw ->
  cleanConfig raw = Ok clean ->
  files (fs w) !! sysPath = Some sysfile ->
  (files (fs w) !! target = None -> target ∉ dirs (fs w)) ->
  exec_out env (nexec check (trace w)) check = ExecOk ->
  exec_out env (nexec restart (trace w)) restart = ExecOk ->
  (forall j, (j < 5)%nat -> exec_out env (nexec status (trace w) + j) status = ExecOk) ->
  exists w',
    run (handle_deploy CONFIG env req w)
    = (Ok deployed, {| rollbackContent := read_text env target (fs w) |}, w')
    /\ files (fs w') !! target
       = Some (File (JSON_stringify env (Js.VObj clean)) (now w))
    /\ files (fs w') !! sysPath = Some sysfile
    /\ isDeploying w' = false
    /\ now w' = now w + 5500
    /\ nexec check (trace w') = S (nexec check (trace w))
    /\ nexec restart (trace w') = S (nexec restart (trace w))
    /\ nexec status (trace w') = (nexec status (trace w) + 5)%nat.
Proof.
  intros target sysPath check restart status. by apply deploy_runs.
Qed.

Lemma deploy_success_witness :
  exists w',
    run (handle_deploy CONFIG (Example.env []) (Example.request (Js.VStr "{}"))
           Example.installed)
    = (Ok deployed, {| rollbackContent := Some "{'route':{}}" |}, w')
    /\ text_at Example.proxy (fs w') = Some "{'dns':{},'outbounds':[],'route':{}}"
    /\ text_at Example.system (fs w') = Some "{'log':{}}"
    /\ isDeploying w' = false.
Proof.
  destruct (deploy_success (Example.env []) (Example.request (Js.VStr "{}"))
              Example.installed "{}" (Js.VObj [])
              [("dns", Js.VObj []); ("outbounds", Js.VArr []); ("route", Js.VObj [])]
              (File "{'log':{}}" 1792000000000))
    as (w' & Hrun & Ht & Hs & Hl & _).
  - intros n op. reflexivity.
  - reflexivity.
  - reflexivity.
  - reflexivity.
  - reflexivity.
  - discriminate.
  - reflexivity.
  - reflexivity.
  - reflexivity.
  - discriminate.
  - reflexivity.
  - reflexivity.
  - intros j Hj. reflexivity.
  - exists w'. split; [exact Hrun|]. unfold text_at.
    change Example.proxy with (targetPath CONFIG).
    change Example.system with (Path.join (BASE_DIR CONFIG) (SYSTEM_FILE CONFIG)).
    rewrite Ht, Hs. split; [reflexivity|]. split; [reflexivity|]. exact Hl.
Defined.

(** X16.  A new configuration that fails the syntax pre-check, pushed over an
    existing business file whose text is not empty, when no file-system call
    fails: the daemon is never restarted on the new configuration.  The
    handler first puts back the text it read, which leaves the world
    [restored], without having run a restart; from there it restarts once, on
    the old configuration, and only if that restart succeeds does it wait 2
    seconds and probe, once; the file system stays as in [restored].  The
    caller is answered 500 with the error of the pre-check (the output of the
    command, or that it timed out), whatever the restart and the probe do.
    The system configuration is as it was and the lock is free. *)
Theorem check_failure_rolls_back (env : Env) (req : Request) (w : World)
    (old text : string) (raw : Js.value) (clean : list (string * Js.value))
    (sysfile : file) :
  let target := targetPath CONFIG in
  let sysPath := Path.join (BASE_DIR CONFIG) (SYSTEM_FILE CONFIG) in
  let check := CHECK (CMD CONFIG) in
  let restart := RESTART (CMD CONFIG) in
  let status := STATUS (CMD CONFIG) in
  let checked := exec_out env (nexec check (trace w)) check in
  let restarted := exec_out env (nexec restart (trace w)) restart in
  let reprobe := exec_out env (nexec status (trace w)) status in
  let saved := utf8_decode env old in
  no_faults env ->
  authorization req = Some ("Bearer " +:+ TOKEN CONFIG) ->
  isDeploying w = false ->
  Js.truthy (content req) = true ->
  AES_decrypt_utf8 env (content req) (SECRET CONFIG) = Ok text ->
  text <> "" ->
  JSON_parse env text = Ok raw ->
  cleanConfig raw = Ok clean ->
  files (fs w) !! sysPath = Some sysfile ->
  text_at target (fs w) = Some old ->
  saved <> "" ->
  checked <> ExecOk ->
  exists restored w',
    run (handle_deploy CONFIG env req w)
    = (Ok (failed (command_error CONFIG check checked)),
       {| rollbackContent := Some saved |}, w')
    /\ text_at target (fs restored) = Some saved
    /\ nexec restart (trace restored) = nexec restart (trace w)
    /\ nexec check (trace restored) = S (nexec check (trace w))
    /\ trace w'
       = rollback_events CONFIG (now restored) restarted reprobe ++ trace restored
    /\ fs w' = fs restored
    /\ text_at target (fs w') = Some saved
    /\ files (fs w') !! sysPath = Some sysfile
    /\ isDeploying w' = false
    /\ now w' = now w + (if restarted is ExecOk then 2000 else 0)
    /\ nexec check (trace w') = S (nexec check (trace w))
    /\ nexec restart (trace w') = S (nexec restart (trace w))
    /\ nexec status (trace w')
       = (nexec status (trace w) + if restarted is ExecOk then 1 else 0)%nat.
Proof.
  intros target sysPath check restart status checked restarted reprobe saved
    Hnf Hauth Hlock Ht Hd Hne Hp Hc Hsys Hold Hold' Hchecked.
  subst target sysPath check restart status checked restarted reprobe saved.
  unfold handle_deploy, deploy.
  rewrite (proj2 (bad_credential_spec CONFIG _) Hauth), Hlock.
  unfold tryFinally, tryCatch. rewrite run_finally, run_catch.
  unfold text_at in Hold.
  destruct (files (fs w) !! targetPath CONFIG) as [fl|] eqn:Efl; [|done].
  injection Hold as Hold.
  destruct (deploy_try_written env Hnf req {| rollbackContent := None |}
              (set_isDeploying true w) text raw clean sysfile)
    as (w6 & Hrun & T6 & S6 & L6 & N6 & C6); try done.
  { change (fs (set_isDeploying true w)) with (fs w). by rewrite Efl. }
  rewrite Hrun. change (fs (set_isDeploying true w)) with (fs w). rewrite Efl, Hold.
  destruct (tail_check_fails env {| rollbackContent := Some (utf8_decode env old) |} w6)
    as (w7 & Hrun7 & F7 & L7 & N7 & C7 & O7).
  { by rewrite C6. }
  rewrite Hrun7, C6.
  change (trace (set_isDeploying true w)) with (trace w) in *.
  change (now (set_isDeploying true w)) with (now w) in *.
  assert (R7 : nexec (RESTART (CMD CONFIG)) (trace w7)
               = nexec (RESTART (CMD CONFIG)) (trace w))
    by (rewrite O7 by discriminate; apply C6).
  assert (S7 : nexec (STATUS (CMD CONFIG)) (trace w7)
               = nexec (STATUS (CMD CONFIG)) (trace w))
    by (rewrite O7 by discriminate; apply C6).
  assert (K7 : nexec (CHECK (CMD CONFIG)) (trace w7)
               = S (nexec (CHECK (CMD CONFIG)) (trace w)))
    by (by rewrite C7, C6).
  destruct (deploy_catch_restores env Hnf
              (command_error CONFIG (CHECK (CMD CONFIG))
                 (exec_out env (nexec (CHECK (CMD CONFIG)) (trace w))
                    (CHECK (CMD CONFIG))))
              (utf8_decode env old) w7 Hold')
    as (w' & Hrun' & F' & L' & N' & C1 & C2 & C3).
  destruct (deploy_catch_rollback env Hnf
              (command_error CONFIG (CHECK (CMD CONFIG))
                 (exec_out env (nexec (CHECK (CMD CONFIG)) (trace w))
                    (CHECK (CMD CONFIG))))
              (utf8_decode env old) w7 Hold')
    as (restored & w2 & Hrun2 & T2 & L2 & N2 & Htr & Hfs & L3).
  rewrite Hrun' in Hrun2. injection Hrun2 as <-.
  rewrite Hrun'. exists restored. eexists. split; [reflexivity|].
  cbn [fs set_isDeploying isDeploying now trace].
  rewrite R7, S7 in Htr. rewrite !N2, R7, K7.
  split; [exact T2|]. split; [done|]. split; [done|]. split; [exact Htr|].
  split; [exact Hfs|].
  rewrite R7 in *. rewrite S7 in C2. rewrite K7 in C3.
  unfold text_at. rewrite F', N', N7, N6, C1, C2, C3.
  split; [by rewrite lookup_insert_eq|].
  split; [|done].
  rewrite lookup_insert_ne by discriminate.
  rewrite lookup_delete_ne by (intros E; discriminate E).
  by rewrite F7.
Qed.

Lemma check_failure_rolls_back_witness :
  let E := Example.env [("/usr/bin/sing-box check -C /etc/sing-box/conf.d", 0%nat)] in
  exists restored w',
    run (handle_deploy CONFIG E (Example.request (Js.VStr "{}")) Example.installed)
    = (Ok (failed "命令执行失败: Command failed"),
       {| rollbackContent := Some "{'route':{}}" |}, w')
    /\ text_at Example.proxy (fs restored) = Some "{'route':{}}"
    /\ nexec "rc-service sing-box restart" (trace restored) = 0%nat
    /\ text_at Example.proxy (fs w') = Some "{'route':{}}"
    /\ nexec "rc-service sing-box restart" (trace w') = 1%nat.
Proof.
  intros E.
  destruct (check_failure_rolls_back E (Example.request (Js.VStr "{}"))
              Example.installed "{'route':{}}" "{}" (Js.VObj [])
              [("dns", Js.VObj []); ("outbounds", Js.VArr []); ("route", Js.VObj [])]
              (File "{'log':{}}" 1792000000000))
    as (restored & w' & Hrun & Ht0 & Hr0 & _ & _ & _ & Ht & _ & _ & _ & _ & Hr & _).
  - intros n op. reflexivity.
  - reflexivity.
  - reflexivity.
  - reflexivity.
  - reflexivity.
  - discriminate.
  - reflexivity.
  - reflexivity.
  - reflexivity.
  - reflexivity.
  - discriminate.
  - vm_compute. discriminate.
  - exists restored, w'. split; [exact Hrun|]. split; [exact Ht0|].
    split; [exact Hr0|]. split; [exact Ht|exact Hr].
Defined.

(** X17.  A new configuration that fails the syntax pre-check when there is
    nothing to roll back to, because there was no business file or it was
    empty, on a host whose system configuration exists and when no
    file-system call fails: the handler removes the business file and runs
    nothing else; the daemon is neither restarted nor probed, and the handler
    does not wait.  The caller is answered 500 with the error of the
    pre-check. *)
Theorem first_deployment_failure_cleans_up (env : Env) (req : Request) (w : World)
    (text : string) (raw : Js.value) (clean : list (string * Js.value))
    (sysfile : file) :
  let target := targetPath CONFIG in
  let sysPath := Path.join (BASE_DIR CONFIG) (SYSTEM_FILE CONFIG) in
  let check := CHECK (CMD CONFIG) in
  let checked := exec_out env (nexec check (trace w)) check in
  no_faults env ->
  authorization req = Some ("Bearer " +:+ TOKEN CONFIG) ->
  isDeploying w = false ->
  Js.truthy (content req) = true ->
  AES_decrypt_utf8 env (content req) (SECRET CONFIG) = Ok text ->
  text <> "" ->
  JSON_parse env text = Ok raw ->
  cleanConfig raw = Ok clean ->
  files (fs w) !! sysPath = Some sysfile ->
  truthy_text (read_text env target (fs w)) = false ->
  (files (fs w) !! target = None -> target ∉ dirs (fs w)) ->
  checked <> ExecOk ->
  exists w',
    run (handle_deploy CONFIG env req w)
    = (Ok (failed (command_error CONFIG check checked)),
       {| rollbackContent := read_text env target (fs w) |}, w')
    /\ files (fs w') !! target = None
    /\ files (fs w') !! sysPath = Some sysfile
    /\ isDeploying w' = false
    /\ now w' = now w
    /\ nexec check (trace w') = S (nexec check (trace w))
    /\ forall cmd, cmd <> check -> nexec cmd (trace w') = nexec cmd (trace w).
Proof.
  intros target sysPath check checked
    Hnf Hauth Hlock Ht Hd Hne Hp Hc Hsys Hold Hdir Hchecked.
  subst target sysPath check checked.
  unfold handle_deploy, deploy.
  rewrite (proj2 (bad_credential_spec CONFIG _) Hauth), Hlock.
  unfold tryFinally, tryCatch. rewrite run_finally, run_catch.
  destruct (deploy_try_written env Hnf req {| rollbackContent := None |}
              (set_isDeploying true w) text raw clean sysfile)
    as (w6 & Hrun & T6 & S6 & L6 & N6 & C6); try done.
  rewrite Hrun. change (fs (set_isDeploying true w)) with (fs w).
  set (saved := match files (fs w) !! targetPath CONFIG with
                | Some old => {| rollbackContent := Some (utf8_decode env (data old)) |}
                | None => {| rollbackContent := None |}
                end).
  assert (Hsaved : saved = {| rollbackContent := read_text env (targetPath CONFIG) (fs w) |})
    by (subst saved; unfold read_text, text_at;
        by destruct (files (fs w) !! targetPath CONFIG)).
  destruct (tail_check_fails env saved w6) as (w7 & Hrun7 & F7 & L7 & N7 & C7 & O7).
  { by rewrite C6. }
  rewrite Hrun7, C6.
  change (trace (set_isDeploying true w)) with (trace w) in *.
  change (now (set_isDeploying true w)) with (now w) in *.
  destruct (deploy_catch_cleanup env Hnf
              (command_error CONFIG (CHECK (CMD CONFIG))
                 (exec_out env (nexec (CHECK (CMD CONFIG)) (trace w))
                    (CHECK (CMD CONFIG))))
              saved w7)
    as (w' & Hrun' & F' & L' & N' & C').
  { by rewrite Hsaved. }
  rewrite Hrun', Hsaved. eexists. split; [reflexivity|].
  cbn [fs set_isDeploying isDeploying now trace].
  rewrite F', N', N7, N6, F7.
  split; [apply lookup_delete_eq|].
  split; [by rewrite lookup_delete_ne by discriminate|].
  split; [done|]. split; [done|].
  split; [by rewrite C', C7, C6|].
  intros cmd Hcmd. by rewrite C', O7, C6.
Qed.

Lemma first_deployment_failure_cleans_up_witness :
  let E := Example.env [("/usr/bin/sing-box check -C /etc/sing-box/conf.d", 0%nat)] in
  let fresh :=
    MkWorld (MkFS (<[Example.system := File "{'log':{}}" 1792000000000]> ∅)
               ["/etc/sing-box/conf.d"])
      false 1793663160123 [] in
  exists w',
    run (handle_deploy CONFIG E (Example.request (Js.VStr "{}")) fresh)
    = (Ok (failed "命令执行失败: Command failed"), {| rollbackContent := None |}, w')
    /\ files (fs w') !! Example.proxy = None
    /\ nexec "rc-service sing-box restart" (trace w') = 0%nat.
Proof.
  intros E fresh.
  destruct (first_deployment_failure_cleans_up E (Example.request (Js.VStr "{}"))
              fresh "{}" (Js.VObj [])
              [("dns", Js.VObj []); ("outbounds", Js.VArr []); ("route", Js.VObj [])]
              (File "{'log':{}}" 1792000000000))
    as (w' & Hrun & Ht & _ & _ & _ & _ & Hr).
  - intros n op. reflexivity.
  - reflexivity.
  - reflexivity.
  - reflexivity.
  - reflexivity.
  - discriminate.
  - reflexivity.
  - reflexivity.
  - reflexivity.
  - reflexivity.
  - intros _ Hin. apply list_elem_of_singleton in Hin. discriminate Hin.
  - vm_compute. discriminate.
  - exists w'. split; [exact Hrun|]. split; [exact Ht|].
    rewrite Hr by discriminate. reflexivity.
Defined.

(** ** How long a deployment waits *)








Section Waits.

Context (cfg : Config) (env : Env).

Local Abbreviation count := (CHECK_COUNT (HEALTH cfg)).
Local Abbreviation interval := (INTERVAL (HEALTH cfg)).
Local Abbreviation initial := (INITIAL_DELAY (HEALTH cfg)).

Hypothesis Hinterval : 0 <= interval.
Hypothesis Hinitial : 0 <= initial.





End Waits.



(** ** What a deployment touches *)

Lemma quiet_untouched {A} p (m : Sync A) : quiet p m -> untouched p m.
Proof. intros H w. apply H. Qed.

Lemma maintains_bind {L A B} p v (x : Async L A) (f : A -> Task L B) :
  maintains p v x ->
  (forall a l w, files (fs w) !! p = v -> maintains p v (f a l w)) ->
  maintains p v (bindA x f).
Proof.
  intros Hx Hf. induction Hx as [[a|e] l w Hw|ms w k Hw Hk IH]; cbn.
  - by apply Hf.
  - by constructor.
  - constructor; [done|]. auto.
Qed.

Lemma maintains_catch {L A} p v (x : Async L A) (h : string -> Task L A) :
  maintains p v x ->
  (forall e l w, files (fs w) !! p = v -> maintains p v (h e l w)) ->
  maintains p v (catchA x h).
Proof.
  intros Hx Hh. induction Hx as [[a|e] l w Hw|ms w k Hw Hk IH]; cbn.
  - by constructor.
  - by apply Hh.
  - constructor; [done|]. auto.
Qed.

Lemma maintains_finally {L A} p v (x : Async L A) b :
  maintains p v x -> maintains p v (finallyA x (set_isDeploying b)).
Proof. induction 1; cbn; constructor; auto. Qed.

Lemma maintains_lift {L A} p v (m : Sync A) (l : L) w :
  (forall w, files (fs w) !! p = v -> files (fs (m w).2) !! p = v) ->
  files (fs w) !! p = v ->
  maintains p v (lift m l w).
Proof.
  intros Hm Hw. unfold lift. specialize (Hm w Hw). destruct (m w). by constructor.
Qed.

Lemma maintains_lift_bind {L A B} p v (m : Sync A) (f : A -> Task L B) l w :
  (forall w, files (fs w) !! p = v -> files (fs (m w).2) !! p = v) ->
  (forall a l w, files (fs w) !! p = v -> maintains p v (f a l w)) ->
  files (fs w) !! p = v ->
  maintains p v (bindT (lift m) f l w).
Proof. intros Hm Hf Hw. apply maintains_bind; [by apply maintains_lift|done]. Qed.

Lemma maintains_sleep_bind {L B} p v ms (f : unit -> Task L B) l w :
  (forall a l w, files (fs w) !! p = v -> maintains p v (f a l w)) ->
  files (fs w) !! p = v ->
  maintains p v (bindT (sleep ms) f l w).
Proof.
  intros Hf Hw. apply maintains_bind; [|done].
  constructor; [done|]. intros w' Hw'. by constructor.
Qed.

Lemma untouched_keeps {A} p v (m : Sync A) :
  untouched p m -> forall w, files (fs w) !! p = v -> files (fs (m w).2) !! p = v.
Proof. intros H w <-. apply H. Qed.

Section Footprint.

Context (env : Env) (p : string) (v : option file).

Local Abbreviation target := (targetPath CONFIG).
Local Abbreviation sysPath := (Path.join (BASE_DIR CONFIG) (SYSTEM_FILE CONFIG)).
Local Abbreviation kept w := (files (fs w) !! p = v).

Hypothesis Htarget : target <> p.
Hypothesis Htemp : forall t, target +:+ ".tmp." +:+ Js.string_of_Z t <> p.
Hypothesis Hbackups : forall n, Path.join (BACKUP_DIR CONFIG) n <> p.
Hypothesis Hensure :
  forall w, kept w -> kept (ensureSystemConfig CONFIG env w).2.

Lemma untouched_log msg level : untouched p (log msg level).
Proof. done. Qed.

Lemma untouched_runCmd cmd : untouched p (runCmd CONFIG env cmd).
Proof.
  intros w. unfold runCmd, bindS, execSync.
  by destruct (exec_out env (nexec cmd (trace w)) cmd).
Qed.

Lemma untouched_checkServiceHealth : untouched p (checkServiceHealth CONFIG env).
Proof. intros w. by rewrite checkServiceHealth_eq. Qed.

Lemma untouched_decryptAndParse body : untouched p (decryptAndParse CONFIG env body).
Proof.
  intros w. unfold decryptAndParse, try_catch, bindS, of_result, throwS.
  destruct (destructure "req.body" body "content") as [c|]; [|done].
  destruct (negb (Js.truthy c)); [done|].
  destruct (AES_decrypt_utf8 env c (SECRET CONFIG)) as [text|]; [|done].
  destruct (String.eqb text ""); [done|].
  by destruct (JSON_parse env text).
Qed.

Ltac keep :=
  first
    [ apply untouched_keeps, untouched_log
    | apply untouched_keeps, untouched_runCmd
    | apply untouched_keeps, untouched_checkServiceHealth
    | apply untouched_keeps, untouched_decryptAndParse
    | apply untouched_keeps; done
    | apply untouched_keeps, quiet_untouched, quiet_existsSync
    | apply untouched_keeps, quiet_untouched, quiet_readFileSync
    | apply untouched_keeps, quiet_untouched, quiet_rotateBackups; exact Hbackups
    | apply untouched_keeps, quiet_untouched, quiet_atomicWrite;
        [exact Htarget|exact Htemp]
    | exact Hensure ].

Lemma maintains_monitor_loop {L} remaining : forall i (l : L) w,
  kept w -> maintains p v (monitor_loop CONFIG env remaining i l w).
Proof.
  induction remaining as [|rem IH]; intros i l w Hw; [by constructor|].
  cbn [monitor_loop]. apply maintains_lift_bind; [keep| |done].
  intros healthy l1 w1 Hw1. destruct healthy; cbn [negb]; [|by constructor].
  destruct (i <? CHECK_COUNT (HEALTH CONFIG))%nat.
  - apply maintains_sleep_bind; [|done]. intros. by apply IH.
  - apply maintains_bind; [by constructor|]. intros. by apply IH.
Qed.

Lemma maintains_deploy_try req l w :
  kept w -> maintains p v (deploy_try CONFIG env req l w).
Proof.
  intros Hw. unfold deploy_try.
  apply maintains_lift_bind; [keep| |done]. intros _ l1 w1 Hw1.
  apply maintains_lift_bind; [keep| |done]. intros _ l2 w2 Hw2.
  apply maintains_lift_bind; [keep| |done]. intros raw l3 w3 Hw3.
  apply maintains_lift_bind; [by intros ? ?| |done]. intros clean l4 w4 Hw4.
  apply maintains_lift_bind; [keep| |done]. intros present l5 w5 Hw5.
  apply maintains_bind.
  { destruct present; [|by constructor].
    apply maintains_catch.
    - apply maintains_lift_bind; [keep| |done]. intros old l6 w6 Hw6.
      apply maintains_bind; [by constructor|]. intros _ l7 w7 Hw7.
      apply maintains_lift; [keep|done].
    - intros e l6 w6 Hw6. apply maintains_lift; [keep|done]. }
  intros _ l6 w6 Hw6.
  apply maintains_lift_bind; [keep| |done]. intros _ l7 w7 Hw7.
  apply maintains_lift_bind; [keep| |done]. intros _ l8 w8 Hw8.
  apply maintains_lift_bind; [keep| |done]. intros _ l9 w9 Hw9.
  apply maintains_lift_bind; [keep| |done]. intros _ l10 w10 Hw10.
  apply maintains_lift_bind; [keep| |done]. intros _ l11 w11 Hw11.
  apply maintains_lift_bind; [keep| |done]. intros _ l12 w12 Hw12.
  apply maintains_lift_bind; [keep| |done]. intros _ l13 w13 Hw13.
  apply maintains_bind.
  { unfold healthMonitor. apply maintains_sleep_bind; [|done].
    intros. by apply maintains_monitor_loop. }
  intros _ l14 w14 Hw14.
  apply maintains_lift_bind; [keep| |done]. intros _ l15 w15 Hw15.
  by constructor.
Qed.

Lemma untouched_unlink_target :
  untouched p (try_catch (unlinkSync env target) (fun _ => retS tt)).
Proof.
  intros w. unfold try_catch.
  pose proof (quiet_unlinkSync env p target Htarget w) as (_ & _ & _ & H).
  by destruct (unlinkSync env target w) as [[[]|e] w'].
Qed.

Lemma maintains_deploy_catch e l w :
  kept w -> maintains p v (deploy_catch CONFIG env e l w).
Proof.
  intros Hw. unfold deploy_catch.
  apply maintains_lift_bind; [keep| |done]. intros _ l1 w1 Hw1.
  apply maintains_bind; [|intros; by constructor].
  apply maintains_catch; [|intros; apply maintains_lift; [keep|done]].
  apply maintains_bind; [by constructor|]. intros l2 l3 w3 Hw3.
  destruct (truthy_text (rollbackContent l2)).
  - apply maintains_lift_bind; [keep| |done]. intros _ l4 w4 Hw4.
    apply maintains_lift_bind; [keep| |done]. intros _ l5 w5 Hw5.
    apply maintains_lift_bind; [keep| |done]. intros _ l6 w6 Hw6.
    apply maintains_sleep_bind; [|done]. intros _ l7 w7 Hw7.
    apply maintains_lift_bind; [keep| |done]. intros healthy l8 w8 Hw8.
    destruct healthy; apply maintains_lift; first [keep|done].
  - apply maintains_lift_bind; [keep| |done]. intros present l4 w4 Hw4.
    destruct (present && _); [|by constructor].
    apply maintains_lift_bind;
      [apply untouched_keeps, untouched_unlink_target| |done].
    intros _ l5 w5 Hw5. apply maintains_lift; [keep|done].
Qed.

Lemma maintains_deploy req l w :
  kept w -> maintains p v (deploy CONFIG env req l w).
Proof.
  intros Hw. unfold deploy.
  destruct (bad_credential CONFIG (authorization req)).
  - apply maintains_lift_bind; [keep| |done]. intros. by constructor.
  - destruct (isDeploying w); [by constructor|].
    apply maintains_finally, maintains_catch.
    + by apply maintains_deploy_try.
    + intros. by apply maintains_deploy_catch.
Qed.

End Footprint.

Lemma maintains_run {L A} p v (x : Async L A) :
  maintains p v x -> files (fs (run x).2) !! p = v.
Proof.
  induction 1 as [r l w Hw|ms w k Hw Hk IH]; [done|].
  cbn [run]. by apply IH.
Qed.

(** X19.  In every environment and for every request, the handler of
    [/deploy] touches no file other than the business file, the system
    configuration, their temporary siblings [*.tmp.<time>] and the entries of
    the backup directory: any other path holds the same file, or still none,
    each time the handler waits and when it answers. *)
Theorem deploy_footprint (env : Env) (p : string) (v : option file)
    (req : Request) (l : Locals) (w : World) :
  let target := targetPath CONFIG in
  let sysPath := Path.join (BASE_DIR CONFIG) (SYSTEM_FILE CONFIG) in
  target <> p ->
  (forall t, target +:+ ".tmp." +:+ Js.string_of_Z t <> p) ->
  sysPath <> p ->
  (forall t, sysPath +:+ ".tmp." +:+ Js.string_of_Z t <> p) ->
  (forall n, Path.join (BACKUP_DIR CONFIG) n <> p) ->
  files (fs w) !! p = v ->
  maintains p v (deploy CONFIG env req l w)
  /\ files (fs (run (deploy CONFIG env req l w)).2) !! p = v.
Proof.
  intros target sysPath Ht Htt Hs Hst Hb Hw.
  assert (H : maintains p v (deploy CONFIG env req l w)).
  { apply maintains_deploy; try done.
    apply untouched_keeps, quiet_untouched. by apply quiet_ensureSystemConfig. }
  split; [exact H|by apply maintains_run].
Qed.

Lemma deploy_footprint_witness :
  files (fs (run (handle_deploy CONFIG (Example.env [])
                    (Example.request (Js.VStr "{}")) Example.installed)).2)
    !! "/etc/sing-box/conf.d/20-local.json" = None.
Proof.
  apply (deploy_footprint (Example.env []) "/etc/sing-box/conf.d/20-local.json" None);
    try discriminate; try (intros ? E; discriminate E).
  reflexivity.
Defined.

(** X20.  When no file-system call fails, no request changes an existing
    system configuration, whatever its payload and however the deployment
    ends: the file is the same each time the handler waits and when it
    answers.  The sections [log], [inbounds] and [experimental] of the host
    are out of reach of the client. *)
Theorem deploy_keeps_system_config (env : Env) (req : Request) (l : Locals)
    (w : World) (sysfile : file) :
  let sysPath := Path.join (BASE_DIR CONFIG) (SYSTEM_FILE CONFIG) in
  no_faults env ->
  files (fs w) !! sysPath = Some sysfile ->
  maintains sysPath (Some sysfile) (deploy CONFIG env req l w)
  /\ files (fs (run (deploy CONFIG env req l w)).2) !! sysPath = Some sysfile.
Proof.
  intros sysPath Hnf Hw.
  assert (H : maintains sysPath (Some sysfile) (deploy CONFIG env req l w)).
  { apply maintains_deploy; try done; try (intros ? E; discriminate E).
    intros w1 H1.
    destruct (ensureSystemConfig_present CONFIG env Hnf w1 sysfile H1)
      as (w2 & Hrun & Hfiles & _).
    rewrite Hrun. cbn [snd]. by rewrite Hfiles. }
  split; [exact H|by apply maintains_run].
Qed.

Lemma deploy_keeps_system_config_witness :
  files (fs (run (handle_deploy CONFIG (Example.env [])
                    (Example.request (Js.VStr "{'log':{},'route':{'final':'direct'}}"))
                    Example.installed)).2)
    !! Example.system = Some (File "{'log':{}}" 1792000000000).
Proof.
  apply (deploy_keeps_system_config (Example.env [])).
  - intros n op. reflexivity.
  - reflexivity.
Defined.

(** ** The name of a backup *)

(** X22.  In the years 0 to 9999 the name of the backup taken at time [t] is
    [proxy_], the UTC date and time of [t] as fourteen digits (year, month,
    day, hour, minute, second), and [.json]: 25 characters, a name the
    pruning recognises, and one that does not leave the backup directory.
    The date in the name is the date of [t]: it gives back the day number of
    [t]. *)
Theorem backupName_format (t : Z) :
  four_digit_year t ->
  let c := Js.civil_of_day (Js.Day t) in
  backupName t
  = "proxy_" +:+ Js.pad 4 (Js.c_year c) +:+ Js.pad 2 (Js.c_month c)
    +:+ Js.pad 2 (Js.c_day c) +:+ Js.pad 2 (Js.HourFromTime t)
    +:+ Js.pad 2 (Js.MinFromTime t) +:+ Js.pad 2 (Js.SecFromTime t) +:+ ".json"
  /\ String.length (backupName t) = 25%nat
  /\ is_backup_name (backupName t) = true
  /\ Path.has_slash (backupName t) = false
  /\ day_of_civil c = t / 86400000.
Proof.
  intros Ht c.
  destruct (stamp_four_digit_year t Ht) as [Hs Hl]. fold c in Hs.
  destruct (valid_backupName t) as (Hn & Hsl & _).
  assert (Hname : backupName t = "proxy_" +:+ stamp t +:+ ".json").
  { rewrite backupName_stamp. unfold Js.slice0. by rewrite <- Hl, substring_all. }
  split; [|split; [|split; [done|split; [done|apply day_of_civil_of_day]]]].
  - rewrite Hname, Hs. by rewrite !append_assoc.
  - rewrite Hname, !length_append, Hl. reflexivity.
Qed.

Lemma backupName_format_witness :
  backupName 1793663160123 = "proxy_20261102234600.json".
Proof.
  destruct (backupName_format 1793663160123) as [H _].
  - unfold four_digit_year. lia.
  - rewrite H. reflexivity.
Defined.

(** ** The payload *)

(** X23.  STEP 1 fails in five cases and no other, each with its message:
    the request has no body, so that taking the payload out of it is a
    [TypeError]; the payload is empty ([Payload empty]); it cannot be
    decrypted, decrypts to nothing, or is not JSON.  The last three messages
    start with [数据解析失败: ], also the one for a wrong secret, which is thrown
    inside the [try] and wrapped by its [catch].  STEP 1 touches nothing. *)
Theorem decryptAndParse_errors (env : Env) (body : Js.value) (w : World) (e : string) :
  (decryptAndParse CONFIG env body w).2 = w
  /\ ((decryptAndParse CONFIG env body w).1 = Throw e <-> StepOneError env body e)
  /\ (StepOneError env body e ->
      (Js.nullish body = true
       /\ (e = "Cannot destructure property 'content' of 'req.body' as it is undefined."
           \/ e = "Cannot destructure property 'content' of 'req.body' as it is null."))
      \/ (Js.nullish body = false
          /\ ((e = "Payload empty" /\ Js.truthy (own body "content") = false)
              \/ exists m, e = "数据解析失败: " +:+ m))).
Proof.
  split; [|split].
  - unfold decryptAndParse, try_catch, bindS, of_result, throwS.
    destruct (destructure "req.body" body "content") as [c|]; [|done].
    destruct (negb (Js.truthy c)); [done|].
    destruct (AES_decrypt_utf8 env c (SECRET CONFIG)) as [text|]; [|done].
    destruct (String.eqb text ""); [done|].
    by destruct (JSON_parse env text).
  - split.
    + intros H. destruct (decryptAndParse CONFIG env body w) as [r w'] eqn:E.
      cbn in H. subst r. by eapply decryptAndParse_throws.
    + intros H. by rewrite (decryptAndParse_fails env body e w H).
  - intros [e' Hb|c e' Hb Hp].
    + left. destruct body; cbn in Hb; try discriminate; injection Hb as <-; auto.
    + right.
      assert (Hc : Js.nullish body = false /\ c = own body "content")
        by (destruct body; cbn in Hb; try discriminate; injection Hb as <-; auto).
      destruct Hc as [Hn ->]. split; [done|].
      destruct Hp as [H|m H1 H2|H1 H2|text m H1 H2 H3 H4]; eauto.
Qed.

(** ** A push, end to end *)

(** X24.  A push from the plug-in to the receiver, end to end.  The plug-in
    and the receiver share the token and the secret; decrypting what was
    encrypted with the same secret gives the text back, and parsing the text
    of the generated configuration gives the configuration back.  On a host
    whose system configuration exists, with the lock free, no file-system
    failure, and the pre-check, the restart and the five probes succeeding:
    the receiver writes the sanitized configuration to the business file and
    answers 200, and the plug-in shows success. *)
Theorem push_round_trip (env : Env) (cenv : Client.Env) (s : Client.Settings)
    (name : string) (config : Js.value) (clean : list (string * Js.value))
    (w : World) (sysfile : file) :
  let target := targetPath CONFIG in
  let sysPath := Path.join (BASE_DIR CONFIG) (SYSTEM_FILE CONFIG) in
  let check := CHECK (CMD CONFIG) in
  let restart := RESTART (CMD CONFIG) in
  let probe := STATUS (CMD CONFIG) in
  let text := Client.stringify cenv config in
  let req := Client.request cenv s config in
  Client.token s = TOKEN CONFIG ->
  Client.secret s = SECRET CONFIG ->
  Client.AES_encrypt cenv text (SECRET CONFIG) <> "" ->
  AES_decrypt_utf8 env (Js.VStr (Client.AES_encrypt cenv text (SECRET CONFIG)))
    (SECRET CONFIG) = Ok text ->
  text <> "" ->
  JSON_parse env text = Ok config ->
  cleanConfig config = Ok clean ->
  no_faults env ->
  isDeploying w = false ->
  files (fs w) !! sysPath = Some sysfile ->
  (files (fs w) !! target = None -> target ∉ dirs (fs w)) ->
  exec_out env (nexec check (trace w)) check = ExecOk ->
  exec_out env (nexec restart (trace w)) restart = ExecOk ->
  (forall j, (j < 5)%nat -> exec_out env (nexec probe (trace w) + j) probe = ExecOk) ->
  exists resp l' w',
    run (handle_deploy CONFIG env req w) = (Ok resp, l', w')
    /\ files (fs w') !! target
       = Some (File (JSON_stringify env (Js.VObj clean)) (now w))
    /\ isDeploying w' = false
    /\ Client.report cenv name (status resp) (body resp)
       = Client.success ("[" +:+ name +:+ "] 部署并预检通过！").
Proof.
  intros target sysPath check restart probe text req
    Htoken Hsecret Hne Hdec Htext Hparse Hclean Hnf Hlock Hsys Hdir Hc Hr Hok.
  destruct (deploy_runs env req w text config clean sysfile)
    as (w' & Hrun & Hfile & _ & Hl & _); try done.
  - subst req. cbn. by rewrite Htoken.
  - subst req. cbn. apply negb_true_iff, String.eqb_neq. by rewrite Hsecret.
  - subst req. cbn. by rewrite Hsecret.
  - exists deployed. eexists _, w'. split; [exact Hrun|]. by repeat split.
Qed.

Lemma push_round_trip_witness :
  let cenv := {| Client.stringify := Example.stringify;
                 Client.parse := Example.parse;
                 Client.AES_encrypt := fun text _ => text;
                 Client.ToString := fun _ => "" |} in
  exists resp l' w',
    run (handle_deploy CONFIG (Example.env [])
           (Client.request cenv Client.DEFAULT_CONFIG (Js.VObj [])) Example.installed)
    = (Ok resp, l', w')
    /\ text_at Example.proxy (fs w') = Some "{'dns':{},'outbounds':[],'route':{}}"
    /\ Client.report cenv "home" (status resp) (body resp)
       = Client.success "[home] 部署并预检通过！".
Proof.
  intros cenv.
  destruct (push_round_trip (Example.env []) cenv Client.DEFAULT_CONFIG "home"
              (Js.VObj [])
              [("dns", Js.VObj []); ("outbounds", Js.VArr []); ("route", Js.VObj [])]
              Example.installed (File "{'log':{}}" 1792000000000))
    as (resp & l' & w' & Hrun & Hfile & _ & Hshow).
  - reflexivity.
  - reflexivity.
  - discriminate.
  - reflexivity.
  - discriminate.
  - reflexivity.
  - reflexivity.
  - intros n op. reflexivity.
  - reflexivity.
  - reflexivity.
  - discriminate.
  - reflexivity.
  - reflexivity.
  - intros j Hj. reflexivity.
  - exists resp, l', w'. split; [exact Hrun|]. split; [|exact Hshow].
    unfold text_at. change Example.proxy with (targetPath CONFIG).
    rewrite Hfile. reflexivity.
Defined.

(** ** A crash loop with nothing to roll back to *)

Section CrashLoop.

Context (env : Env) (Hnf : no_faults env).

Local Abbreviation target := (targetPath CONFIG).
Local Abbreviation sysPath := (Path.join (BASE_DIR CONFIG) (SYSTEM_FILE CONFIG)).
Local Abbreviation check := (CHECK (CMD CONFIG)).
Local Abbreviation restart := (RESTART (CMD CONFIG)).
Local Abbreviation status := (STATUS (CMD CONFIG)).

Local Abbreviation deploy_tail :=
  (lift (log "新配置已原子写入磁盘" "INFO") ;;
   lift (log "执行语法预检..." "INFO") ;;
   lift (runCmd CONFIG env (CHECK (CMD CONFIG))) ;;
   lift (log "执行服务重启..." "INFO") ;;
   lift (runCmd CONFIG env (RESTART (CMD CONFIG))) ;;
   lift (log ("进入健康监测期 (" +:+ Js.string_of_Z (Z.of_nat (CHECK_COUNT (HEALTH CONFIG)))
              +:+ "秒)...") "INFO") ;;
   healthMonitor CONFIG env ;;
   lift (log "🎉 部署成功：服务运行稳定" "INFO") ;;
   retT (json 200 [("status", Js.VStr "success");
                   ("message", Js.VStr "Deployed and verified successfully")]))%task.

(** STEP 5 and STEP 6 when probe [k + 1] is the first to find the daemon
    stopped. *)
Lemma tail_crash (l : Locals) w k :
  exec_out env (nexec check (trace w)) check = ExecOk ->
  exec_out env (nexec restart (trace w)) restart = ExecOk ->
  (k < CHECK_COUNT (HEALTH CONFIG))%nat ->
  (forall j, (j < k)%nat -> exec_out env (nexec status (trace w) + j) status = ExecOk) ->
  exec_out env (nexec status (trace w) + k) status <> ExecOk ->
  exists w',
    run (deploy_tail l w) = (Throw (crash_loop_message (S k)), l, w')
    /\ fs w' = fs w /\ isDeploying w' = isDeploying w
    /\ now w' = now w + 1500 + 1000 * Z.of_nat k
    /\ nexec check (trace w') = S (nexec check (trace w))
    /\ nexec restart (trace w') = S (nexec restart (trace w))
    /\ nexec status (trace w') = (nexec status (trace w) + S k)%nat.
Proof.
  intros Hcheck Hrestart Hk Hok Hbad.
  rewrite (run_lift_ok _ _ _ _ _ _ (log_eq _ _ _)).
  rewrite (run_lift_ok _ _ _ _ _ _ (log_eq _ _ _)).
  set (w2 := emit _ (emit _ w)).
  assert (N2 : forall cmd, nexec cmd (trace w2) = nexec cmd (trace w)) by done.
  rewrite (run_lift_ok _ _ _ _ _ _ (runCmd_ok env check w2 ltac:(by rewrite N2))).
  rewrite (run_lift_ok _ _ _ _ _ _ (log_eq _ _ _)).
  set (w3 := emit _ (emit _ w2)).
  assert (N3 : nexec restart (trace w3) = nexec restart (trace w)) by apply N2.
  rewrite (run_lift_ok _ _ _ _ _ _ (runCmd_ok env restart w3 ltac:(by rewrite N3))).
  rewrite (run_lift_ok _ _ _ _ _ _ (log_eq _ _ _)).
  set (w4 := emit _ (emit _ w3)).
  assert (N4 : nexec status (trace w4) = nexec status (trace w)) by apply N2.
  rewrite run_bindT. unfold healthMonitor. rewrite run_bindT, run_sleep.
  set (w5 := set_now _ _).
  destruct (monitor_loop_run CONFIG env l (CHECK_COUNT (HEALTH CONFIG)) 1 w5 k)
    as (w6 & Hrun & Htr & Hfs & Hlock & Hnow); [lia|lia|..].
  { intros j Hj. change (nexec status (trace w5)) with (nexec status (trace w4)).
    rewrite N4. by apply Hok. }
  { intros _. change (nexec status (trace w5)) with (nexec status (trace w4)).
    by rewrite N4. }
  rewrite Hrun.
  assert ((k <? CHECK_COUNT (HEALTH CONFIG))%nat = true) as Hlt by (by apply Nat.ltb_lt).
  rewrite Hlt in *.
  eexists. split; [reflexivity|].
  rewrite Hfs, Hlock, Hnow.
  split; [done|]. split; [done|]. split; [subst w5; cbn; lia|].
  rewrite Htr, !nexec_app, !nexec_rev, !nexec_intersperse by done.
  rewrite !nexec_runs, length_seq. cbn [String.eqb Ascii.eqb Bool.eqb].
  rewrite String.eqb_refl. subst w5 w4 w3 w2.
  unfold nexec. cbn. lia.
Qed.

End CrashLoop.

(** X25.  A crash loop when there is nothing to roll back to, because there
    was no business file or it was empty, on a host whose system
    configuration exists and when no file-system call fails: the daemon was
    restarted on the new configuration and probe [k + 1] finds it stopped.
    The handler removes the business file and does nothing else: it does not
    restart the daemon, which is left stopped, and does not probe again.  The
    caller is answered 500 with the message of the crash loop. *)
Theorem first_deployment_crash_cleans_up (env : Env) (req : Request) (w : World)
    (text : string) (raw : Js.value) (clean : list (string * Js.value))
    (sysfile : file) (k : nat) :
  let target := targetPath CONFIG in
  let sysPath := Path.join (BASE_DIR CONFIG) (SYSTEM_FILE CONFIG) in
  let check := CHECK (CMD CONFIG) in
  let restart := RESTART (CMD CONFIG) in
  let probe := STATUS (CMD CONFIG) in
  no_faults env ->
  authorization req = Some ("Bearer " +:+ TOKEN CONFIG) ->
  isDeploying w = false ->
  Js.truthy (content req) = true ->
  AES_decrypt_utf8 env (content req) (SECRET CONFIG) = Ok text ->
  text <> "" ->
  JSON_parse env text = Ok raw ->
  cleanConfig raw = Ok clean ->
  files (fs w) !! sysPath = Some sysfile ->
  truthy_text (read_text env target (fs w)) = false ->
  (files (fs w) !! target = None -> target ∉ dirs (fs w)) ->
  exec_out env (nexec check (trace w)) check = ExecOk ->
  exec_out env (nexec restart (trace w)) restart = ExecOk ->
  (k < 5)%nat ->
  (forall j, (j < k)%nat -> exec_out env (nexec probe (trace w) + j) probe = ExecOk) ->
  exec_out env (nexec probe (trace w) + k) probe <> ExecOk ->
  exists w',
    run (handle_deploy CONFIG env req w)
    = (Ok (failed (crash_loop_message (S k))),
       {| rollbackContent := read_text env target (fs w) |}, w')
    /\ files (fs w') !! target = None
    /\ files (fs w') !! sysPath = Some sysfile
    /\ isDeploying w' = false
    /\ now w' = now w + 1500 + 1000 * Z.of_nat k
    /\ nexec restart (trace w') = S (nexec restart (trace w))
    /\ nexec probe (trace w') = (nexec probe (trace w) + S k)%nat.
Proof.
  intros target sysPath check restart probe
    Hnf Hauth Hlock Ht Hd Hne Hp Hc Hsys Hold Hdir Hcheck Hrestart Hk Hok Hbad.
  subst target sysPath check restart probe.
  unfold handle_deploy, deploy.
  rewrite (proj2 (bad_credential_spec CONFIG _) Hauth), Hlock.
  unfold tryFinally, tryCatch. rewrite run_finally, run_catch.
  destruct (deploy_try_written env Hnf req {| rollbackContent := None |}
              (set_isDeploying true w) text raw clean sysfile)
    as (w6 & Hrun & T6 & S6 & L6 & N6 & C6); try done.
  rewrite Hrun. change (fs (set_isDeploying true w)) with (fs w).
  set (saved := match files (fs w) !! targetPath CONFIG with
                | Some old => {| rollbackContent := Some (utf8_decode env (data old)) |}
                | None => {| rollbackContent := None |}
                end).
  assert (Hsaved : saved = {| rollbackContent := read_text env (targetPath CONFIG) (fs w) |})
    by (subst saved; unfold read_text, text_at;
        by destruct (files (fs w) !! targetPath CONFIG)).
  change (trace (set_isDeploying true w)) with (trace w) in *.
  change (now (set_isDeploying true w)) with (now w) in *.
  destruct (tail_crash env saved w6 k)
    as (w7 & Hrun7 & F7 & L7 & N7 & C7 & R7 & S7); rewrite ?C6; try done.
  rewrite Hrun7.
  destruct (deploy_catch_cleanup env Hnf (crash_loop_message (S k)) saved w7)
    as (w' & Hrun' & F' & L' & N' & C').
  { by rewrite Hsaved. }
  rewrite Hrun', Hsaved. eexists. split; [reflexivity|].
  cbn [fs set_isDeploying isDeploying now trace].
  rewrite F', N', N7, N6, F7, !C', R7, S7, !C6.
  split; [apply lookup_delete_eq|].
  split; [by rewrite lookup_delete_ne by discriminate|].
  by repeat split.
Qed.

Lemma first_deployment_crash_cleans_up_witness :
  let E := Example.env [("rc-service sing-box status", 1%nat)] in
  let fresh :=
    MkWorld (MkFS (<[Example.system := File "{'log':{}}" 1792000000000]> ∅)
               ["/etc/sing-box/conf.d"])
      false 1793663160123 [] in
  exists w',
    run (handle_deploy CONFIG E (Example.request (Js.VStr "{}")) fresh)
    = (Ok (failed (crash_loop_message 2)), {| rollbackContent := None |}, w')
    /\ files (fs w') !! Example.proxy = None
    /\ nexec "rc-service sing-box restart" (trace w') = 1%nat.
Proof.
  intros E fresh.
  destruct (first_deployment_crash_cleans_up E (Example.request (Js.VStr "{}"))
              fresh "{}" (Js.VObj [])
              [("dns", Js.VObj []); ("outbounds", Js.VArr []); ("route", Js.VObj [])]
              (File "{'log':{}}" 1792000000000) 1)
    as (w' & Hrun & Ht & _ & _ & _ & Hr & _).
  - intros n op. reflexivity.
  - reflexivity.
  - reflexivity.
  - reflexivity.
  - reflexivity.
  - discriminate.
  - reflexivity.
  - reflexivity.
  - reflexivity.
  - reflexivity.
  - intros _ Hin. apply list_elem_of_singleton in Hin. discriminate Hin.
  - reflexivity.
  - reflexivity.
  - lia.
  - intros j Hj. assert (j = 0)%nat as -> by lia. reflexivity.
  - vm_compute. discriminate.
  - exists w'. split; [exact Hrun|]. split; [exact Ht|exact Hr].
Defined.
